(** * Streaming event-to-text reduction of the agent benchmark scripts

    A shallow embedding of the two [callOasisAgent] functions
    (scripts/benchmark-mtbench.ts and the Tau-Bench style script) and of the
    replay path of [OllyConnector], together with the part of the JavaScript
    run-time they rely on: strings as sequences of UTF-16 code units, the
    values [JSON.parse] can return, abrupt completion by exceptions, and the
    streaming UTF-8 [TextDecoder]. *)

From Stdlib Require Import Ascii String.
From Stdlib Require Import Strings.Byte.
From Stdlib Require Import List NArith ZArith Bool Lia.
Import ListNotations.

Set Implicit Arguments.
Set Warnings "-register-all".

(* ================================================================== *)
(** * JavaScript strings *)
(* ================================================================== *)

Module JS.

(** A JavaScript string is a finite sequence of 16-bit code units. *)
Definition code_unit := N.
Definition jsstring := list code_unit.

(** String literals of the source, written with ASCII characters. *)
Definition js (s : string) : jsstring :=
  map N_of_ascii (list_ascii_of_string s).
Arguments js s%_string.

Fixpoint eqb (a b : jsstring) : bool :=
  match a, b with
  | [], [] => true
  | x :: a', y :: b' => N.eqb x y && eqb a' b'
  | _, _ => false
  end.

(** [s.startsWith(prefix)] *)
Fixpoint startsWith (s prefix : jsstring) {struct prefix} : bool :=
  match prefix, s with
  | [], _ => true
  | p :: prefix', c :: s' => N.eqb c p && startsWith s' prefix'
  | _ :: _, [] => false
  end.

(** [s.slice(n)] for a non-negative [n]. *)
Definition slice (n : nat) (s : jsstring) : jsstring := skipn n s.

Definition LF : code_unit := 10%N.

(** [s.split('\n')]: the pieces between line feeds; never empty. *)
Fixpoint split_lines (s : jsstring) : list jsstring :=
  match s with
  | [] => [[]]
  | c :: s' =>
      if N.eqb c LF then [] :: split_lines s'
      else match split_lines s' with
           | [] => [[c]]
           | line :: rest => (c :: line) :: rest
           end
  end.

(** WhiteSpace and LineTerminator code points of ECMAScript, the set
    stripped by [String.prototype.trim]. *)
Definition isWhiteSpace (c : code_unit) : bool :=
  existsb (N.eqb c)
    [0x0009; 0x000A; 0x000B; 0x000C; 0x000D; 0x0020; 0x00A0; 0x1680;
     0x2000; 0x2001; 0x2002; 0x2003; 0x2004; 0x2005; 0x2006; 0x2007;
     0x2008; 0x2009; 0x200A; 0x2028; 0x2029; 0x202F; 0x205F; 0x3000;
     0xFEFF]%N.

Fixpoint trimStart (s : jsstring) : jsstring :=
  match s with
  | c :: s' => if isWhiteSpace c then trimStart s' else s
  | [] => []
  end.

Definition trimEnd (s : jsstring) : jsstring := rev (trimStart (rev s)).

(** [s.trim()] *)
Definition trim (s : jsstring) : jsstring := trimEnd (trimStart s).

(** Decimal rendering of a natural number, as a template literal renders an
    integral Number such as an HTTP status. *)
Fixpoint uint_digits (d : Decimal.uint) : jsstring :=
  match d with
  | Decimal.Nil => []
  | Decimal.D0 d => 48 :: uint_digits d
  | Decimal.D1 d => 49 :: uint_digits d
  | Decimal.D2 d => 50 :: uint_digits d
  | Decimal.D3 d => 51 :: uint_digits d
  | Decimal.D4 d => 52 :: uint_digits d
  | Decimal.D5 d => 53 :: uint_digits d
  | Decimal.D6 d => 54 :: uint_digits d
  | Decimal.D7 d => 55 :: uint_digits d
  | Decimal.D8 d => 56 :: uint_digits d
  | Decimal.D9 d => 57 :: uint_digits d
  end%N.

Definition decimal (n : N) : jsstring := uint_digits (N.to_uint n).

(* ------------------------------------------------------------------ *)
(** ** Completion records *)

Inductive exn : Type :=
| TypeError
| SyntaxError
| Error (message : jsstring).

(** The result of evaluating an expression: a value, or a thrown exception. *)
Inductive outcome (A : Type) : Type :=
| Return (a : A)
| Throw (e : exn).
Arguments Return {A} a.
Arguments Throw {A} e.

Definition bind {A B} (m : outcome A) (k : A -> outcome B) : outcome B :=
  match m with
  | Return a => k a
  | Throw e => Throw e
  end.

Declare Scope js_scope.
Delimit Scope js_scope with js.
Notation "x <- m ;; k" := (bind m (fun x => k))
  (at level 100, m at next level, right associativity) : js_scope.

(* ------------------------------------------------------------------ *)
(** ** Values *)

(** The values [JSON.parse] can produce, and [undefined], which property
    reads produce.  Numbers are kept abstract: the program only converts them
    to booleans and to strings.  An object lists its own properties in
    creation order; a later entry for a key overrides an earlier one. *)
Inductive value (number : Type) : Type :=
| VUndefined
| VNull
| VBool (b : bool)
| VNum (n : number)
| VStr (s : jsstring)
| VArr (elements : list (value number))
| VObj (properties : list (jsstring * value number)).
Arguments VUndefined {number}.
Arguments VNull {number}.
Arguments VBool {number} b.
Arguments VNum {number} n.
Arguments VStr {number} s.
Arguments VArr {number} elements.
Arguments VObj {number} properties.

(** What the host engine supplies: the two conversions of Numbers, and the
    grammar of [JSON.parse] ([None] stands for the SyntaxError it throws). *)
Class Engine (number : Type) : Type := {
  Number_toBoolean : number -> bool;
  Number_toString : number -> jsstring;
  JSON_parse_text : jsstring -> option (value number)
}.

Section Operations.
Context {number : Type} {engine : Engine number}.
Local Abbreviation value := (value number).
Local Open Scope js_scope.

Definition isNullish (v : value) : bool :=
  match v with
  | VUndefined | VNull => true
  | _ => false
  end.

(** ToBoolean: the truthiness tested by [if], [&&] and [||]. *)
Definition ToBoolean (v : value) : bool :=
  match v with
  | VUndefined | VNull => false
  | VBool b => b
  | VNum n => Number_toBoolean n
  | VStr s => negb (eqb s [])
  | VArr _ | VObj _ => true
  end.

(** [v === 'literal'] *)
Definition strictEqualsString (v : value) (literal : jsstring) : bool :=
  match v with
  | VStr s => eqb s literal
  | _ => false
  end.

(** The own property [key] of an object: the last entry for the key. *)
Definition ownProperty (properties : list (jsstring * value))
    (key : jsstring) : option value :=
  fold_left
    (fun found entry => if eqb (fst entry) key then Some (snd entry) else found)
    properties None.

(** [v.key], for a key that no built-in prototype defines (every property
    name this program reads is one): reading from [undefined] or [null]
    throws, an object yields its own property, any other value yields
    [undefined]. *)
Definition getProp (v : value) (key : jsstring) : outcome value :=
  match v with
  | VUndefined | VNull => Throw TypeError
  | VObj properties =>
      match ownProperty properties key with
      | Some x => Return x
      | None => Return VUndefined
      end
  | _ => Return VUndefined
  end.

(** [v[0]] *)
Definition getIndex0 (v : value) : outcome value :=
  match v with
  | VUndefined | VNull => Throw TypeError
  | VArr (x :: _) => Return x
  | VStr (c :: _) => Return (VStr [c])
  | VObj properties =>
      match ownProperty properties (js "0") with
      | Some x => Return x
      | None => Return VUndefined
      end
  | _ => Return VUndefined
  end.

(** One link [v?....] of an optional chain: a nullish [v] ends the whole
    chain with [undefined]. *)
Definition optional (v : value) (rest : value -> outcome value)
    : outcome value :=
  if isNullish v then Return VUndefined else rest v.

(** [array.find(callback)] when the receiver is truthy: only arrays have a
    callable [find]; calling it on anything else is a TypeError. *)
Fixpoint findFirst (callback : value -> outcome bool) (l : list value)
    : outcome value :=
  match l with
  | [] => Return VUndefined
  | o :: l' =>
      hit <- callback o ;;
      if hit then Return o else findFirst callback l'
  end.

Definition find (receiver : value) (callback : value -> outcome bool)
    : outcome value :=
  match receiver with
  | VArr elements => findFirst callback elements
  | _ => Throw TypeError
  end.

Definition hasOwnProperty (properties : list (jsstring * value))
    (key : jsstring) : bool :=
  match ownProperty properties key with
  | Some _ => true
  | None => false
  end.

(** ToString, as applied by [+=] on a string and by [JSON.parse] to its
    argument.  An object has the inherited [toString] unless an own
    property of that name (never callable in parsed JSON) hides it, in
    which case the conversion throws; an array joins its elements with
    commas, [undefined] and [null] elements giving the empty string. *)
Fixpoint ToString (v : value) : outcome jsstring :=
  match v with
  | VUndefined => Return (js "undefined")
  | VNull => Return (js "null")
  | VBool true => Return (js "true")
  | VBool false => Return (js "false")
  | VNum n => Return (Number_toString n)
  | VStr s => Return s
  | VObj properties =>
      if hasOwnProperty properties (js "toString") then Throw TypeError
      else Return (js "[object Object]")
  | VArr elements =>
      (fix join (l : list value) : outcome jsstring :=
         match l with
         | [] => Return []
         | e :: l' =>
             s <- (if isNullish e then Return [] else ToString e) ;;
             match l' with
             | [] => Return s
             | _ :: _ => r <- join l' ;; Return (s ++ js "," ++ r)
             end
         end) elements
  end.

(** [JSON.parse(v)] *)
Definition JSON_parse (v : value) : outcome value :=
  text <- ToString v ;;
  match JSON_parse_text text with
  | Some parsed => Return parsed
  | None => Throw SyntaxError
  end.

End Operations.

End JS.

(* ================================================================== *)
(** * The streaming UTF-8 TextDecoder *)
(* ================================================================== *)

Module TextDecoder.
Import JS.
Local Open Scope N_scope.

(** State of the UTF-8 decoder of the Encoding Standard. *)
Record Utf8Decoder : Type := {
  code_point : N;
  bytes_seen : N;
  bytes_needed : N;
  lower_boundary : N;
  upper_boundary : N
}.

Definition utf8_initial : Utf8Decoder :=
  {| code_point := 0; bytes_seen := 0; bytes_needed := 0;
     lower_boundary := 0x80; upper_boundary := 0xBF |}.

Inductive handler_result : Type :=
| Continue
| Scalar (c : N)
| DecodeError
| DecodeErrorRestoringByte.

Definition inRange (lo hi b : N) : bool := (lo <=? b) && (b <=? hi).

(** The handler of the UTF-8 decoder, run on one byte. *)
Definition utf8_handler (d : Utf8Decoder) (b : N)
    : Utf8Decoder * handler_result :=
  if bytes_needed d =? 0 then
    if inRange 0x00 0x7F b then (d, Scalar b)
    else if inRange 0xC2 0xDF b then
      ({| code_point := N.land b 0x1F; bytes_seen := bytes_seen d;
          bytes_needed := 1;
          lower_boundary := lower_boundary d;
          upper_boundary := upper_boundary d |}, Continue)
    else if inRange 0xE0 0xEF b then
      ({| code_point := N.land b 0xF; bytes_seen := bytes_seen d;
          bytes_needed := 2;
          lower_boundary := if b =? 0xE0 then 0xA0 else lower_boundary d;
          upper_boundary := if b =? 0xED then 0x9F else upper_boundary d |},
       Continue)
    else if inRange 0xF0 0xF4 b then
      ({| code_point := N.land b 0x7; bytes_seen := bytes_seen d;
          bytes_needed := 3;
          lower_boundary := if b =? 0xF0 then 0x90 else lower_boundary d;
          upper_boundary := if b =? 0xF4 then 0x8F else upper_boundary d |},
       Continue)
    else (d, DecodeError)
  else if negb (inRange (lower_boundary d) (upper_boundary d) b) then
    (utf8_initial, DecodeErrorRestoringByte)
  else
    let cp := N.lor (N.shiftl (code_point d) 6) (N.land b 0x3F) in
    let seen := bytes_seen d + 1 in
    if negb (seen =? bytes_needed d) then
      ({| code_point := cp; bytes_seen := seen;
          bytes_needed := bytes_needed d;
          lower_boundary := 0x80; upper_boundary := 0xBF |}, Continue)
    else (utf8_initial, Scalar cp).

Definition REPLACEMENT : N := 0xFFFD.

(** Scalar values a handler result contributes in replacement error mode. *)
Definition emitted (r : handler_result) : list N :=
  match r with
  | Continue => []
  | Scalar c => [c]
  | DecodeError | DecodeErrorRestoringByte => [REPLACEMENT]
  end.

(** Processing one byte of the queue; a restored byte is read again at once. *)
Definition process_byte (d : Utf8Decoder) (b : N) : Utf8Decoder * list N :=
  match utf8_handler d b with
  | (d', DecodeErrorRestoringByte) =>
      let (d'', r) := utf8_handler d' b in (d'', REPLACEMENT :: emitted r)
  | (d', r) => (d', emitted r)
  end.

(** The invariant of the decoder that matters at a line feed: a continuation
    byte is never expected below 0x80. *)
Definition expectsContinuation (d : Utf8Decoder) : Prop :=
  0x80 <= lower_boundary d.

(** A scalar value as UTF-16 code units. *)
Definition utf16 (c : N) : jsstring :=
  if c <? 0x10000 then [c]
  else [0xD800 + (c - 0x10000) / 0x400; 0xDC00 + (c - 0x10000) mod 0x400].

(** [new TextDecoder()]: UTF-8, replacement error mode, BOM not ignored. *)
Record TextDecoder : Type := {
  decoder : Utf8Decoder;
  BOM_seen : bool
}.

Definition newTextDecoder : TextDecoder :=
  {| decoder := utf8_initial; BOM_seen := false |}.

(** Serialising the scalar values: the first one is dropped when it is the
    byte order mark. *)
Fixpoint serialize (bom_seen : bool) (scalars : list N) : bool * jsstring :=
  match scalars with
  | [] => (bom_seen, [])
  | c :: rest =>
      let (seen, out) := serialize true rest in
      if negb bom_seen && (c =? 0xFEFF) then (seen, out)
      else (seen, utf16 c ++ out)
  end.

Definition decode_byte (td : TextDecoder) (b : byte) : TextDecoder * jsstring :=
  let (d, scalars) := process_byte (decoder td) (Byte.to_N b) in
  let (seen, out) := serialize (BOM_seen td) scalars in
  ({| decoder := d; BOM_seen := seen |}, out).

(** [decoder.decode(chunk, { stream: true })]: an incomplete sequence at the
    end of the chunk stays in the decoder for the next call. *)
Fixpoint decode (td : TextDecoder) (chunk : list byte)
    : TextDecoder * jsstring :=
  match chunk with
  | [] => (td, [])
  | b :: chunk' =>
      let (td1, out1) := decode_byte td b in
      let (td2, out2) := decode td1 chunk' in
      (td2, out1 ++ out2)
  end.

(** The end of the queue, read when the decoder is flushed. *)
Definition flush (td : TextDecoder) : jsstring :=
  if bytes_needed (decoder td) =? 0 then []
  else snd (serialize (BOM_seen td) [REPLACEMENT]).

(** [await response.text()]: the whole body, UTF-8 decoded. *)
Definition text (body : list (list byte)) : jsstring :=
  let (td, out) := decode newTextDecoder (List.concat body) in
  out ++ flush td.

End TextDecoder.

(* ================================================================== *)
(** * The OASIS transport envelope *)
(* ================================================================== *)

Module Oasis.
Import JS.
Local Open Scope js_scope.

(** The response that [fetch] resolved to, after signing and sending the
    request: [body] is [None] when [response.body] is null, and otherwise the
    chunks that successive [reader.read()] calls deliver until [done].  A
    read that rejects is a failure of the transport and is not part of this
    model. *)
Record Response : Type := {
  status : N;
  body : option (list (list byte))
}.

(** [response.ok] *)
Definition ok (response : Response) : bool :=
  (200 <=? status response)%N && (status response <=? 299)%N.

(** The two readings of [Date.now()], at entry and just before returning. *)
Record Clock : Type := {
  startTime : Z;
  now : Z
}.

Section Envelope.
Context {number : Type} {engine : Engine number}.
Local Abbreviation value := (value number).

(** [data.inference_results?.[0]?.output] *)
Definition outputGuard (data : value) : outcome value :=
  results <- getProp data (js "inference_results") ;;
  optional results (fun results =>
    first <- getIndex0 results ;;
    optional first (fun first => getProp first (js "output"))).

(** [data.inference_results[0].output] *)
Definition outputsOf (data : value) : outcome value :=
  results <- getProp data (js "inference_results") ;;
  first <- getIndex0 results ;;
  getProp first (js "output").

(** [(o) => o.name === 'response'] *)
Definition isResponse (o : value) : outcome bool :=
  name <- getProp o (js "name") ;;
  Return (strictEqualsString name (js "response")).

(** [responseOutput?.dataAsMap?.content] *)
Definition contentGuard (responseOutput : value) : outcome value :=
  optional responseOutput (fun responseOutput =>
    dataAsMap <- getProp responseOutput (js "dataAsMap") ;;
    optional dataAsMap (fun dataAsMap => getProp dataAsMap (js "content"))).

(** [responseOutput.dataAsMap.content] *)
Definition contentOf (responseOutput : value) : outcome value :=
  dataAsMap <- getProp responseOutput (js "dataAsMap") ;;
  getProp dataAsMap (js "content").

(** The statements of the [try] block that both scripts share, from
    [JSON.parse(line.slice(6))] to
    [JSON.parse(responseOutput.dataAsMap.content)]: the AG-UI event wrapped
    in a frame, [None] when one of the two [if]s is not taken. *)
Definition unwrapEvent (payload : jsstring) : outcome (option value) :=
  data <- JSON_parse (VStr payload) ;;
  guard <- outputGuard data ;;
  if ToBoolean guard then
    outputs <- outputsOf data ;;
    responseOutput <- find outputs isResponse ;;
    guard <- contentGuard responseOutput ;;
    if ToBoolean guard then
      content <- contentOf responseOutput ;;
      aguiEvent <- JSON_parse content ;;
      Return (Some aguiEvent)
    else Return None
  else Return None.

(** [aguiEvent.type === literal] *)
Definition typeIs (aguiEvent : value) (literal : jsstring) : outcome bool :=
  type <- getProp aguiEvent (js "type") ;;
  Return (strictEqualsString type literal).

(** [aguiEvent.type === literal && aguiEvent.field] as a condition. *)
Definition typeIsAnd (aguiEvent : value) (literal field : jsstring)
    : outcome bool :=
  matches <- typeIs aguiEvent literal ;;
  if matches then
    x <- getProp aguiEvent field ;; Return (ToBoolean x)
  else Return false.

End Envelope.

Definition TEXT_MESSAGE_START := js "TEXT_MESSAGE_START".
Definition TEXT_MESSAGE_CONTENT := js "TEXT_MESSAGE_CONTENT".
Definition TEXT_MESSAGE_END := js "TEXT_MESSAGE_END".
Definition TOOL_CALL_START := js "TOOL_CALL_START".
Definition TOOL_CALL_ARGS := js "TOOL_CALL_ARGS".
Definition TOOL_CALL_END := js "TOOL_CALL_END".

End Oasis.

(* ================================================================== *)
(** * scripts/benchmark-mtbench.ts *)
(* ================================================================== *)

Module MTBench.
Import JS TextDecoder Oasis.
Local Open Scope js_scope.

(** The two accumulators of [callOasisAgent]. *)
Record State : Type := {
  fullResponse : jsstring;
  currentMessage : jsstring
}.

Definition initial : State := {| fullResponse := []; currentMessage := [] |}.

Record Result : Type := {
  response : jsstring;
  latencyMs : Z
}.

Section Script.
Context {number : Type} {engine : Engine number}.
Local Abbreviation value := (value number).

(** "Collect text content from AG-UI events": the [if ... else if ...] on the
    event, returning how it completes and the accumulators at that point. *)
Definition collectText (aguiEvent : value) (st : State)
    : outcome unit * State :=
  match typeIsAnd aguiEvent TEXT_MESSAGE_CONTENT (js "delta") with
  | Throw e => (Throw e, st)
  | Return true =>
      (* currentMessage += aguiEvent.delta *)
      match (delta <- getProp aguiEvent (js "delta") ;; ToString delta) with
      | Throw e => (Throw e, st)
      | Return text =>
          (Return tt, {| fullResponse := fullResponse st;
                         currentMessage := currentMessage st ++ text |})
      end
  | Return false =>
      match typeIs aguiEvent TEXT_MESSAGE_END with
      | Throw e => (Throw e, st)
      | Return true =>
          (Return tt, {| fullResponse := fullResponse st ++ currentMessage st;
                         currentMessage := [] |})
      | Return false => (Return tt, st)
      end
  end.

(** The [try { ... } catch (e) { }] around one frame. *)
Definition tryFrame (payload : jsstring) (st : State)
    : outcome unit * State :=
  match unwrapEvent payload with
  | Throw e => (Throw e, st)
  | Return None => (Return tt, st)
  | Return (Some aguiEvent) => collectText aguiEvent st
  end.

(** The body of [for (const line of lines)]. *)
Definition processLine (st : State) (line : jsstring) : State :=
  if startsWith line (js "data: ") then snd (tryFrame (slice 6 line) st)
  else st.

(** One turn of [while (true)] with a chunk read. *)
Definition processChunk (s : TextDecoder * State) (chunk : list byte)
    : TextDecoder * State :=
  let (td, chunkText) := decode (fst s) chunk in
  (td, fold_left processLine (split_lines chunkText) (snd s)).

Definition readLoop (chunks : list (list byte)) (s : TextDecoder * State)
    : TextDecoder * State :=
  fold_left processChunk chunks s.

(** "Add any remaining message" *)
Definition addRemaining (st : State) : jsstring :=
  if ToBoolean (VStr (currentMessage st) : value)
  then fullResponse st ++ currentMessage st
  else fullResponse st.

(** [fullResponse.trim() || 'No response received'] *)
Definition finalResponse (fullResponse : jsstring) : jsstring :=
  if ToBoolean (VStr (trim fullResponse) : value) then trim fullResponse
  else js "No response received".

Definition callOasisAgent (clock : Clock) (response : Response)
    : outcome Result :=
  if negb (ok response) then
    let errorText := text (match body response with
                           | Some chunks => chunks
                           | None => []
                           end) in
    Throw (Error (js "Agent error: " ++ decimal (status response)
                  ++ js " - " ++ errorText))
  else
    match body response with
    | None => Throw (Error (js "No response body"))
    | Some chunks =>
        let st := snd (readLoop chunks (newTextDecoder, initial)) in
        Return {| response := finalResponse (addRemaining st);
                  latencyMs := (now clock - startTime clock)%Z |}
    end.

(** What one decoded event does to the accumulators, and the reduction of
    a sequence of decoded events. *)
Definition step (st : State) (aguiEvent : value) : State :=
  snd (collectText aguiEvent st).

Definition foldEvents (events : list value) (st : State) : State :=
  fold_left step events st.

End Script.
End MTBench.

(* ================================================================== *)
(** * The Tau-Bench style script *)
(* ================================================================== *)

Module TauBench.
Import JS TextDecoder Oasis.
Local Open Scope js_scope.

Section Script.
Context {number : Type} {engine : Engine number}.
Local Abbreviation value := (value number).

(** The three accumulators of [callOasisAgent]; [toolsUsed] holds whatever
    values were pushed. *)
Record State : Type := {
  fullResponse : jsstring;
  currentMessage : jsstring;
  toolsUsed : list value
}.

Definition initial : State :=
  {| fullResponse := []; currentMessage := []; toolsUsed := [] |}.

Record Result : Type := {
  response : jsstring;
  resultToolsUsed : list value;
  latencyMs : Z
}.

(** "Track tool usage" *)
Definition trackToolUsage (aguiEvent : value) (st : State)
    : outcome unit * State :=
  match typeIsAnd aguiEvent TOOL_CALL_START (js "toolCallName") with
  | Throw e => (Throw e, st)
  | Return true =>
      (* toolsUsed.push(aguiEvent.toolCallName) *)
      match getProp aguiEvent (js "toolCallName") with
      | Throw e => (Throw e, st)
      | Return toolCallName =>
          (Return tt, {| fullResponse := fullResponse st;
                         currentMessage := currentMessage st;
                         toolsUsed := toolsUsed st ++ [toolCallName] |})
      end
  | Return false => (Return tt, st)
  end.

(** "Collect text" *)
Definition collectText (aguiEvent : value) (st : State)
    : outcome unit * State :=
  match typeIsAnd aguiEvent TEXT_MESSAGE_CONTENT (js "delta") with
  | Throw e => (Throw e, st)
  | Return true =>
      (* currentMessage += aguiEvent.delta *)
      match (delta <- getProp aguiEvent (js "delta") ;; ToString delta) with
      | Throw e => (Throw e, st)
      | Return text =>
          (Return tt, {| fullResponse := fullResponse st;
                         currentMessage := currentMessage st ++ text;
                         toolsUsed := toolsUsed st |})
      end
  | Return false =>
      match typeIs aguiEvent TEXT_MESSAGE_END with
      | Throw e => (Throw e, st)
      | Return true =>
          (Return tt, {| fullResponse := fullResponse st ++ currentMessage st;
                         currentMessage := [];
                         toolsUsed := toolsUsed st |})
      | Return false => (Return tt, st)
      end
  end.

(** The two statements applied to a decoded event, in sequence. *)
Definition handleEvent (aguiEvent : value) (st : State)
    : outcome unit * State :=
  match trackToolUsage aguiEvent st with
  | (Throw e, st') => (Throw e, st')
  | (Return _, st') => collectText aguiEvent st'
  end.

(** The [try { ... } catch (e) { }] around one frame. *)
Definition tryFrame (payload : jsstring) (st : State)
    : outcome unit * State :=
  match unwrapEvent payload with
  | Throw e => (Throw e, st)
  | Return None => (Return tt, st)
  | Return (Some aguiEvent) => handleEvent aguiEvent st
  end.

(** The body of [for (const line of lines)]. *)
Definition processLine (st : State) (line : jsstring) : State :=
  if startsWith line (js "data: ") then snd (tryFrame (slice 6 line) st)
  else st.

(** One turn of [while (true)] with a chunk read. *)
Definition processChunk (s : TextDecoder * State) (chunk : list byte)
    : TextDecoder * State :=
  let (td, chunkText) := decode (fst s) chunk in
  (td, fold_left processLine (split_lines chunkText) (snd s)).

Definition readLoop (chunks : list (list byte)) (s : TextDecoder * State)
    : TextDecoder * State :=
  fold_left processChunk chunks s.

Definition callOasisAgent (clock : Clock) (response : Response)
    : outcome Result :=
  if negb (ok response) || match body response with
                           | Some _ => false
                           | None => true
                           end
  then Throw (Error (js "Agent request failed: " ++ decimal (status response)))
  else
    match body response with
    | None => Throw TypeError
    | Some chunks =>
        let st := snd (readLoop chunks (newTextDecoder, initial)) in
        Return {| response := fullResponse st;
                  resultToolsUsed := toolsUsed st;
                  latencyMs := (now clock - startTime clock)%Z |}
    end.

(** What one decoded event does to the accumulators, and the reduction of
    a sequence of decoded events. *)
Definition step (st : State) (aguiEvent : value) : State :=
  snd (handleEvent aguiEvent st).

Definition foldEvents (events : list value) (st : State) : State :=
  fold_left step events st.

End Script.
End TauBench.

(* ================================================================== *)
(** * services/connectors/agui/OllyConnector.ts *)
(* ================================================================== *)

Module OllyConnector.
Import JS.

(** Modelled from the spec: the class [AGUIToTrajectoryConverter] of
    services/agent/aguiConverter, which is not part of the sources at hand.
    The spec describes it as a reducer over its own state: [processEvent]
    consumes one event and emits zero or more trajectory steps, and the
    identity accessors read what has been captured so far. *)
Class AGUIToTrajectoryConverter (AGUIEvent TrajectoryStep Converter : Type)
    : Type := {
  newConverter : Converter;
  processEvent : Converter -> AGUIEvent -> list TrajectoryStep * Converter;
  getRunId : Converter -> option jsstring;
  getThreadId : Converter -> option jsstring
}.

Section Connector.
Context {AGUIEvent TrajectoryStep Converter : Type}
        {converterClass :
           AGUIToTrajectoryConverter AGUIEvent TrajectoryStep Converter}.

(** Modelled from the spec: [consumeSSEStream] of services/agent/sseStream
    hands every decoded event of the stream to the callback, one at a
    time and in arrival order. *)
Definition consumeSSEStream {S : Type} (stream : list AGUIEvent)
    (callback : S -> AGUIEvent -> S) (s : S) : S :=
  fold_left callback stream s.

(** Modelled from the spec: [computeTrajectoryFromRawEvents] constructs a
    fresh converter and feeds the events through [processEvent] in their
    original order. *)
Definition computeTrajectoryFromRawEvents (rawEvents : list AGUIEvent)
    : list TrajectoryStep :=
  fst (fold_left
         (fun acc event =>
            let (steps, converter) := processEvent (snd acc) event in
            (fst acc ++ steps, converter))
         rawEvents ([], newConverter)).

(** What the callback of [execute] mutates. *)
Record Locals : Type := {
  localTrajectory : list TrajectoryStep;
  localRawEvents : list AGUIEvent;
  converter : Converter
}.

(** The callback given to [consumeSSEStream]: capture the raw event, then
    convert it and push its steps. *)
Definition onEvent (l : Locals) (event : AGUIEvent) : Locals :=
  let rawEvents := localRawEvents l ++ [event] in
  let (steps, converter') := processEvent (converter l) event in
  {| localTrajectory := fold_left (fun t step => t ++ [step]) steps
                          (localTrajectory l);
     localRawEvents := rawEvents;
     converter := converter' |}.

Record ConnectorResponse : Type := {
  trajectory : list TrajectoryStep;
  runId : option jsstring;
  rawEvents : list AGUIEvent;
  metadata_threadId : option jsstring
}.

(** [execute], from the creation of the converter on, for a request whose
    endpoint check and signing succeeded; [stream] is what the endpoint
    sends. *)
Definition execute (stream : list AGUIEvent) : ConnectorResponse :=
  let l := consumeSSEStream stream onEvent
             {| localTrajectory := []; localRawEvents := [];
                converter := newConverter |} in
  {| trajectory := localTrajectory l;
     runId := getRunId (converter l);
     rawEvents := localRawEvents l;
     metadata_threadId := getThreadId (converter l) |}.

(** [parseResponse] *)
Definition parseResponse (rawEvents : list AGUIEvent)
    : list TrajectoryStep :=
  computeTrajectoryFromRawEvents rawEvents.

End Connector.
End OllyConnector.

(* ================================================================== *)
(** * A reference engine for closed examples *)
(* ================================================================== *)

(** The theorems below hold for every engine.  Closed examples need one to
    run: this one parses JSON text by recursive descent.  Its Numbers are
    the integer literals within the safe-integer range; other number
    literals are outside the fragment it accepts. *)
Module Reference.
Import JS.
Local Open Scope N_scope.

Definition isJsonSpace (c : N) : bool :=
  (c =? 32) || (c =? 9) || (c =? 10) || (c =? 13).

Fixpoint skipSpace (s : jsstring) : jsstring :=
  match s with
  | c :: s' => if isJsonSpace c then skipSpace s' else s
  | [] => []
  end.

Definition hexDigit (c : N) : option N :=
  if (48 <=? c) && (c <=? 57) then Some (c - 48)
  else if (65 <=? c) && (c <=? 70) then Some (c - 55)
  else if (97 <=? c) && (c <=? 102) then Some (c - 87)
  else None.

Definition hex4 (a b c d : N) : option N :=
  match hexDigit a, hexDigit b, hexDigit c, hexDigit d with
  | Some a, Some b, Some c, Some d => Some (((a * 16 + b) * 16 + c) * 16 + d)
  | _, _, _, _ => None
  end.

Definition simpleEscape (e : N) : option N :=
  if (e =? 34) || (e =? 92) || (e =? 47) then Some e
  else if e =? 98 then Some 8
  else if e =? 102 then Some 12
  else if e =? 110 then Some 10
  else if e =? 114 then Some 13
  else if e =? 116 then Some 9
  else None.

Definition consChar (c : N) (r : option (jsstring * jsstring))
    : option (jsstring * jsstring) :=
  match r with
  | Some (str, rest) => Some (c :: str, rest)
  | None => None
  end.

(** The characters of a string literal after its opening quote, and the
    text after its closing quote. *)
Fixpoint parseChars (s : jsstring) : option (jsstring * jsstring) :=
  match s with
  | [] => None
  | c :: rest =>
      if c =? 34 then Some ([], rest)
      else if c =? 92 then
        match rest with
        | [] => None
        | e :: rest1 =>
            if e =? 117 then
              match rest1 with
              | h1 :: h2 :: h3 :: h4 :: rest2 =>
                  match hex4 h1 h2 h3 h4 with
                  | Some u => consChar u (parseChars rest2)
                  | None => None
                  end
              | _ => None
              end
            else
              match simpleEscape e with
              | Some x => consChar x (parseChars rest1)
              | None => None
              end
        end
      else if c <? 32 then None
      else consChar c (parseChars rest)
  end.

Definition isDigit (c : N) : bool := (48 <=? c) && (c <=? 57).

Fixpoint parseDigits (acc : N) (s : jsstring) : N * jsstring :=
  match s with
  | c :: s' => if isDigit c then parseDigits (acc * 10 + (c - 48)) s' else (acc, s)
  | [] => (acc, [])
  end.

Definition MAX_SAFE_INTEGER : N := 9007199254740991.

(** An integer literal: no leading zeros, no fraction, no exponent. *)
Definition parseInteger (s : jsstring) : option (Z * jsstring) :=
  let (negative, s1) := match s with
                        | 45 :: s' => (true, s')
                        | _ => (false, s)
                        end in
  match s1 with
  | d :: s2 =>
      if isDigit d then
        let (n, rest) := if d =? 48 then (0, s2) else parseDigits 0 s1 in
        match rest with
        | c :: _ =>
            if isDigit c || (c =? 46) || (c =? 101) || (c =? 69) then None
            else if n <=? MAX_SAFE_INTEGER
                 then Some (if negative then (- Z.of_N n)%Z else Z.of_N n, rest)
                 else None
        | [] =>
            if n <=? MAX_SAFE_INTEGER
            then Some (if negative then (- Z.of_N n)%Z else Z.of_N n, rest)
            else None
        end
      else None
  | [] => None
  end.

Fixpoint parseValue (fuel : nat) (s : jsstring) {struct fuel}
    : option (value Z * jsstring) :=
  match fuel with
  | O => None
  | S fuel' =>
      match skipSpace s with
      | [] => None
      | c :: rest =>
          if c =? 123 then
            match skipSpace rest with
            | 125 :: rest' => Some (VObj [], rest')
            | _ =>
                match parseMembers fuel' rest with
                | Some (members, rest') => Some (VObj members, rest')
                | None => None
                end
            end
          else if c =? 91 then
            match skipSpace rest with
            | 93 :: rest' => Some (VArr [], rest')
            | _ =>
                match parseElements fuel' rest with
                | Some (elements, rest') => Some (VArr elements, rest')
                | None => None
                end
            end
          else if c =? 34 then
            match parseChars rest with
            | Some (str, rest') => Some (VStr str, rest')
            | None => None
            end
          else if startsWith (c :: rest) (js "true") then
            Some (VBool true, skipn 4 (c :: rest))
          else if startsWith (c :: rest) (js "false") then
            Some (VBool false, skipn 5 (c :: rest))
          else if startsWith (c :: rest) (js "null") then
            Some (VNull, skipn 4 (c :: rest))
          else
            match parseInteger (c :: rest) with
            | Some (z, rest') => Some (VNum z, rest')
            | None => None
            end
      end
  end
with parseElements (fuel : nat) (s : jsstring) {struct fuel}
    : option (list (value Z) * jsstring) :=
  match fuel with
  | O => None
  | S fuel' =>
      match parseValue fuel' s with
      | None => None
      | Some (v, rest) =>
          match skipSpace rest with
          | c :: rest' =>
              if c =? 93 then Some ([v], rest')
              else if c =? 44 then
                match parseElements fuel' rest' with
                | Some (l, rest'') => Some (v :: l, rest'')
                | None => None
                end
              else None
          | [] => None
          end
      end
  end
with parseMembers (fuel : nat) (s : jsstring) {struct fuel}
    : option (list (jsstring * value Z) * jsstring) :=
  match fuel with
  | O => None
  | S fuel' =>
      match skipSpace s with
      | q :: afterQuote =>
          if q =? 34 then
            match parseChars afterQuote with
            | None => None
            | Some (key, afterKey) =>
                match skipSpace afterKey with
                | colon :: afterColon =>
                    if colon =? 58 then
                      match parseValue fuel' afterColon with
                      | None => None
                      | Some (v, rest) =>
                          match skipSpace rest with
                          | c :: rest' =>
                              if c =? 125 then Some ([(key, v)], rest')
                              else if c =? 44 then
                                match parseMembers fuel' rest' with
                                | Some (l, rest'') => Some ((key, v) :: l, rest'')
                                | None => None
                                end
                              else None
                          | [] => None
                          end
                      end
                    else None
                | [] => None
                end
            end
          else None
      | [] => None
      end
  end.

Definition parse (s : jsstring) : option (value Z) :=
  match parseValue (2 * List.length s + 2) s with
  | Some (v, rest) =>
      match skipSpace rest with
      | [] => Some v
      | _ :: _ => None
      end
  | None => None
  end.

Definition toString (z : Z) : jsstring :=
  match z with
  | Zneg p => js "-" ++ decimal (Npos p)
  | _ => decimal (Z.to_N z)
  end.

#[export] Instance engine : Engine Z := {
  Number_toBoolean z := negb (Z.eqb z 0);
  Number_toString := toString;
  JSON_parse_text := parse
}.

End Reference.

(* ================================================================== *)
(** * Vocabulary of the specification *)
(* ================================================================== *)

Module Spec.
Import JS TextDecoder Oasis.
Local Open Scope js_scope.

Section Vocabulary.
Context {number : Type} {engine : Engine number}.
Local Abbreviation value := (value number).

(** The read loop of either script, over any per-line handler. *)
Definition processChunkWith {S : Type} (processLine : S -> jsstring -> S)
    (s : TextDecoder * S) (chunk : list byte) : TextDecoder * S :=
  let (td, chunkText) := decode (fst s) chunk in
  (td, fold_left processLine (split_lines chunkText) (snd s)).

(** The decoded AG-UI events of a line, of a chunk, and of a stream: the
    events that reach the event-handling statements, in arrival order. *)
Definition lineEvents (line : jsstring) : list value :=
  if startsWith line (js "data: ") then
    match unwrapEvent (slice 6 line) with
    | Return (Some aguiEvent) => [aguiEvent]
    | _ => []
    end
  else [].

Definition chunkEvents (td : TextDecoder) (chunk : list byte) : list value :=
  flat_map lineEvents (split_lines (snd (decode td chunk))).

Fixpoint decodedEvents (td : TextDecoder) (chunks : list (list byte))
    : list value :=
  match chunks with
  | [] => []
  | chunk :: rest =>
      chunkEvents td chunk ++ decodedEvents (fst (decode td chunk)) rest
  end.

(** The per-line handler that only collects the decoded events. *)
Definition collectLine (events : list value) (line : jsstring) : list value :=
  events ++ lineEvents line.

(** An event closes a text-message span when its type is
    [TEXT_MESSAGE_END]. *)
Definition closesSpan (aguiEvent : value) : bool :=
  match typeIs aguiEvent TEXT_MESSAGE_END with
  | Return b => b
  | Throw _ => false
  end.

(** The delta fragment of an event: the [delta] field of a
    [TEXT_MESSAGE_CONTENT] event read as text (the field itself when it is
    a string), and nothing for any other event. *)
Definition deltaOf (aguiEvent : value) : jsstring :=
  match typeIsAnd aguiEvent TEXT_MESSAGE_CONTENT (js "delta") with
  | Return true =>
      match (delta <- getProp aguiEvent (js "delta") ;; ToString delta) with
      | Return fragment => fragment
      | Throw _ => []
      end
  | _ => []
  end.

(** The text of a span: its delta fragments, concatenated in order. *)
Definition spanText (span : list value) : jsstring :=
  concat (map deltaOf span).

(** The completed spans of an event sequence (each the events before a
    [TEXT_MESSAGE_END], back to the previous one), and the span left open
    at its end; [opened] holds the events of the current span so far. *)
Fixpoint completedSpans (opened events : list value) : list (list value) :=
  match events with
  | [] => []
  | e :: rest =>
      if closesSpan e then opened :: completedSpans [] rest
      else completedSpans (opened ++ [e]) rest
  end.

Fixpoint openSpan (opened events : list value) : list value :=
  match events with
  | [] => opened
  | e :: rest =>
      if closesSpan e then openSpan [] rest
      else openSpan (opened ++ [e]) rest
  end.

(** The reduction of text-message spans as the specification words it,
    on the pair of the response so far and the current message buffer: a
    closing event moves the buffer to the response and clears it, any
    other event appends its delta fragment to the buffer. *)
Definition textStep (acc : jsstring * jsstring) (aguiEvent : value)
    : jsstring * jsstring :=
  if closesSpan aguiEvent then (fst acc ++ snd acc, [])
  else (fst acc, snd acc ++ deltaOf aguiEvent).

(** The tool name an event adds: the [toolCallName] of a
    [TOOL_CALL_START] event that carries one. *)
Definition toolNameOf (aguiEvent : value) : list value :=
  match typeIsAnd aguiEvent TOOL_CALL_START (js "toolCallName") with
  | Return true =>
      match getProp aguiEvent (js "toolCallName") with
      | Return toolCallName => [toolCallName]
      | Throw _ => []
      end
  | _ => []
  end.

(** The ways a frame can fail to unwrap. *)
Inductive FrameFailure (payload : jsstring) : Prop :=
| NotJson :
    JSON_parse_text payload = None ->
    FrameFailure payload
| OutputMissingOrMisshapen data :
    JSON_parse_text payload = Some data ->
    (forall elements, outputGuard data <> Return (VArr elements)) ->
    FrameFailure payload
| NoResponseElement data outputs :
    JSON_parse_text payload = Some data ->
    outputGuard data = Return (VArr outputs) ->
    (forall o, In o outputs ->
               getProp o (js "name") <> Return (VStr (js "response"))) ->
    FrameFailure payload
| ContentAbsent data outputs responseOutput :
    JSON_parse_text payload = Some data ->
    outputGuard data = Return (VArr outputs) ->
    findFirst isResponse outputs = Return responseOutput ->
    contentGuard responseOutput = Return VUndefined ->
    FrameFailure payload
| ContentNotJson data outputs responseOutput content e :
    JSON_parse_text payload = Some data ->
    outputGuard data = Return (VArr outputs) ->
    findFirst isResponse outputs = Return responseOutput ->
    contentGuard responseOutput = Return content ->
    JSON_parse content = Throw e ->
    FrameFailure payload.

(** A chunk ends at a line end; every chunk boundary of a body falls
    just after a line feed. *)
Definition endsWithLineFeed (chunk : list byte) : bool :=
  match rev chunk with
  | x0a :: _ => true
  | _ => false
  end.

Definition boundariesAtLineEnds (chunks : list (list byte)) : bool :=
  forallb endsWithLineFeed (removelast chunks).

End Vocabulary.
End Spec.

(* ================================================================== *)
(** * Example streams *)
(* ================================================================== *)

Module Examples.
Import JS TextDecoder Oasis Reference.

(** Examples write JSON text with an apostrophe standing for the double
    quote. *)
Definition quoted (s : string) : list byte :=
  map (fun a => if Ascii.eqb a "'"%char then x22 else byte_of_ascii a)
      (list_ascii_of_string s).

Definition NL : list byte := [x0a].

(** The frame that wraps an AG-UI event given as JSON text. *)
Definition frame (event : string) : list byte :=
  quoted "data: {'inference_results':[{'output':[{'name':'response','dataAsMap':{'content':'"
  ++ quoted event ++ quoted "'}}]}]}".

Definition contentHi : list byte :=
  frame "{\'type\':\'TEXT_MESSAGE_CONTENT\',\'delta\':\'Hi\'}".
Definition contentPadded : list byte :=
  frame "{\'type\':\'TEXT_MESSAGE_CONTENT\',\'delta\':\' Hi \'}".
Definition contentSentinel : list byte :=
  frame "{\'type\':\'TEXT_MESSAGE_CONTENT\',\'delta\':\'No response received\'}".
Definition messageStart : list byte :=
  frame "{\'type\':\'TEXT_MESSAGE_START\'}".
Definition messageEnd : list byte :=
  frame "{\'type\':\'TEXT_MESSAGE_END\'}".
Definition toolStart : list byte :=
  frame "{\'type\':\'TOOL_CALL_START\',\'toolCallName\':\'search\'}".
Definition toolEnd : list byte :=
  frame "{\'type\':\'TOOL_CALL_END\'}".
Definition unknown : list byte :=
  frame "{\'type\':\'SOMETHING_UNKNOWN\'}".
Definition notJson : list byte := quoted "data: not-json".

(** Modelled from the spec: a converter for text-message spans only, after
    section 4.2: a content event appends its delta to the buffer and emits
    nothing, an end event emits one step made of the buffer and clears it,
    any other event changes nothing. *)
#[export] Instance textConverter
  : OllyConnector.AGUIToTrajectoryConverter (value Z) jsstring jsstring := {
  OllyConnector.newConverter := [];
  OllyConnector.processEvent buffer event :=
    if Spec.closesSpan event then ([buffer], [])
    else ([], buffer ++ Spec.deltaOf event);
  OllyConnector.getRunId _ := None;
  OllyConnector.getThreadId _ := None
}.

(** Events captured from a stream, and the execution that captured them. *)
Definition capturedEvents : list (value Z) :=
  Spec.decodedEvents newTextDecoder [contentHi ++ NL; messageEnd ++ NL].

Definition liveRun : OllyConnector.ConnectorResponse :=
  OllyConnector.execute capturedEvents.

Definition replayed : list jsstring :=
  OllyConnector.parseResponse (OllyConnector.rawEvents liveRun).

Definition resultA : @TauBench.Result Z :=
  {| TauBench.response := js "Hi";
     TauBench.resultToolsUsed := [VStr (js "search")];
     TauBench.latencyMs := 250 |}.

Definition resultB : @TauBench.Result Z :=
  {| TauBench.response := js "Hi";
     TauBench.resultToolsUsed := [VStr (js "search")];
     TauBench.latencyMs := 22000 |}.

(** JSON text as a JavaScript string. *)
Definition jsonText (s : string) : jsstring :=
  snd (decode newTextDecoder (quoted s)).

(** Payloads that fail to unwrap, one for each way. *)
Definition payloadNoOutput : jsstring := jsonText "{'inference_results':[{}]}".
Definition payloadOutputNotArray : jsstring :=
  jsonText "{'inference_results':[{'output':'text'}]}".
Definition payloadNoResponse : jsstring :=
  jsonText "{'inference_results':[{'output':[{'name':'memory_id'}]}]}".
Definition payloadNoContent : jsstring :=
  jsonText "{'inference_results':[{'output':[{'name':'response','dataAsMap':{}}]}]}".
Definition payloadBadContent : jsstring :=
  jsonText "{'inference_results':[{'output':[{'name':'response','dataAsMap':{'content':'{oops'}}]}]}".

(** Frames whose event is not shaped as an AG-UI event. *)
Definition contentNumber : list byte :=
  frame "{\'type\':\'TEXT_MESSAGE_CONTENT\',\'delta\':42}".
Definition eventNull : list byte := frame "null".

(** Bodies of responses. *)
Definition paddedBody : list (list byte) :=
  [contentPadded ++ NL; messageEnd ++ NL].
Definition openBody : list (list byte) := [contentHi ++ NL].
Definition wholeBody : list (list byte) :=
  [contentHi ++ NL ++ messageEnd ++ NL].
Definition splitBody : list (list byte) :=
  [firstn 30 contentHi; skipn 30 contentHi ++ NL ++ messageEnd ++ NL].
Definition twoReads : list (list byte) :=
  [contentHi ++ NL; messageEnd ++ NL].
Definition sentinelBody : list (list byte) :=
  [contentSentinel ++ NL; messageEnd ++ NL].
Definition toolBody : list (list byte) :=
  [toolStart ++ NL ++ toolEnd ++ NL].
Definition interleavedBody : list (list byte) :=
  [contentHi ++ NL ++ notJson ++ NL ++ messageEnd ++ NL].

(** Decoded events. *)
Definition event (type : jsstring) (fields : list (jsstring * value Z))
    : value Z :=
  VObj ((js "type", VStr type) :: fields).

Definition evContentHi : value Z :=
  event TEXT_MESSAGE_CONTENT [(js "delta", VStr (js "Hi"))].
Definition evStart : value Z := event TEXT_MESSAGE_START [].
Definition evEnd : value Z := event TEXT_MESSAGE_END [].
Definition evToolSearch : value Z :=
  event TOOL_CALL_START [(js "toolCallName", VStr (js "search"))].
Definition evToolUnnamed : value Z := event TOOL_CALL_START [].
Definition evToolEnd : value Z := event TOOL_CALL_END [].
Definition evUnknown : value Z := event (js "SOMETHING_UNKNOWN") [].

Definition clockA : Clock := {| startTime := 1000; now := 1250 |}.
Definition clockB : Clock := {| startTime := 77000; now := 99000 |}.

End Examples.

(* ================================================================== *)
(** * Text matching *)
(* ================================================================== *)

(** The string operations of the remaining functions: splitting on a
    separator, global replacement of one code unit, and the three regular
    expressions of the sources, each matched as [String.prototype.match]
    matches a pattern without the global flag: at the leftmost position
    where it can match, with greedy quantifiers. *)
Module Text.
Import JS.

(** The characters that [.] does not match. *)
Definition isLineTerminator (c : code_unit) : bool :=
  existsb (N.eqb c) [0x000A; 0x000D; 0x2028; 0x2029]%N.

Fixpoint takeWhile (p : code_unit -> bool) (s : jsstring) : jsstring :=
  match s with
  | c :: s' => if p c then c :: takeWhile p s' else []
  | [] => []
  end.

Fixpoint dropWhile (p : code_unit -> bool) (s : jsstring) : jsstring :=
  match s with
  | c :: s' => if p c then dropWhile p s' else s
  | [] => []
  end.

(** [s.split(sep)] for a separator of one code unit. *)
Fixpoint split (sep : code_unit) (s : jsstring) : list jsstring :=
  match s with
  | [] => [[]]
  | c :: s' =>
      if N.eqb c sep then [] :: split sep s'
      else match split sep s' with
           | [] => [[c]]
           | part :: rest => (c :: part) :: rest
           end
  end.

(** [s.replace(/a/g, 'b')] for single code units [a] and [b]. *)
Definition replaceAll (a b : code_unit) (s : jsstring) : jsstring :=
  map (fun c => if N.eqb c a then b else c) s.

(** [s] contains [literal]. *)
Fixpoint occurs (literal s : jsstring) : bool :=
  startsWith s literal
  || match s with
     | [] => false
     | _ :: s' => occurs literal s'
     end.

(** The first capture group of the leftmost match of a pattern made of a
    literal followed by one group; [group] matches the group at the start
    of the text that follows the literal. *)
Fixpoint matchAfter (literal : jsstring)
    (group : jsstring -> option jsstring) (s : jsstring) : option jsstring :=
  match (if startsWith s literal then group (skipn (length literal) s)
         else None) with
  | Some captured => Some captured
  | None =>
      match s with
      | [] => None
      | _ :: s' => matchAfter literal group s'
      end
  end.

(** The group [(.+)]: the longest run of characters other than line
    terminators, which must not be empty. *)
Definition restOfLine (s : jsstring) : option jsstring :=
  match takeWhile (fun c => negb (isLineTerminator c)) s with
  | [] => None
  | run => Some run
  end.

(** The group [([^\]]+)] followed by a closing bracket: the longest run of
    characters other than the bracket, not empty, with the bracket next. *)
Definition bracketed (s : jsstring) : option jsstring :=
  match takeWhile (fun c => negb (N.eqb c 93%N)) s with
  | [] => None
  | run =>
      match skipn (length run) s with
      | c :: _ => if N.eqb c 93%N then Some run else None
      | [] => None
      end
  end.

(** The prefix of [s] that ends with the last occurrence of [c]. *)
Fixpoint throughLast (c : code_unit) (s : jsstring) : option jsstring :=
  match s with
  | [] => None
  | x :: s' =>
      match throughLast c s' with
      | Some r => Some (x :: r)
      | None => if N.eqb x c then Some [x] else None
      end
  end.

(** The match of [/\{[\s\S]*\}/]: from the first opening brace to the last
    closing brace after it. *)
Definition matchBraces (s : jsstring) : option jsstring :=
  match dropWhile (fun c => negb (N.eqb c 123%N)) s with
  | [] => None
  | open :: rest =>
      match throughLast 125%N rest with
      | Some r => Some (open :: r)
      | None => None
      end
  end.

End Text.

(* ================================================================== *)
(** * server/services/auth/sigv4Signer.ts *)
(* ================================================================== *)

Module SigV4Signer.
Import JS Text.
Local Open Scope js_scope.

(** [process.env]: a variable is a string or is not set. *)
Definition Env : Type := jsstring -> option jsstring.

(** [x || fallback] for a string [x] that may be undefined. *)
Definition orElse (x : option jsstring) (fallback : jsstring) : jsstring :=
  match x with
  | Some (c :: s) => c :: s
  | _ => fallback
  end.

Definition nonEmpty (s : jsstring) : bool :=
  match s with
  | [] => false
  | _ :: _ => true
  end.

(** A [Record<string, string>]: its properties in creation order. *)
Definition Headers : Type := list (jsstring * jsstring).

(** [headers[key]] *)
Fixpoint getHeader (headers : Headers) (key : jsstring) : option jsstring :=
  match headers with
  | [] => None
  | (k, v) :: rest => if eqb k key then Some v else getHeader rest key
  end.

(** [headers[key] = v] *)
Fixpoint setHeader (key v : jsstring) (headers : Headers) : Headers :=
  match headers with
  | [] => [(key, v)]
  | (k, v') :: rest =>
      if eqb k key then (k, v) :: rest
      else (k, v') :: setHeader key v rest
  end.

(** [generateFreshFasCreds], given what [execSync] returns for the
    credential script (its standard output) or throws. *)
Definition generateFreshFasCreds (execSync : outcome jsstring)
    : outcome jsstring :=
  output <- execSync ;;
  match matchAfter (js "ENCRYPTED_FAS_CREDS=") restOfLine output with
  | None =>
      Throw (Error
               (js "Could not extract ENCRYPTED_FAS_CREDS from script output"))
  | Some group =>
      if nonEmpty group then Return (trim group)
      else Throw (Error
                    (js "Could not extract ENCRYPTED_FAS_CREDS from script output"))
  end.

(** What [signAgentRequest] obtains from outside: the value of
    [JSON.stringify(payload).length] that its second log line prints, the
    host name of [new URL(endpoint)], the run of the credential script, the
    assumed role, and the headers of the signed authentication request. *)
Record Externals : Type := {
  payloadSize : outcome nat;
  hostname : outcome jsstring;
  execSync : outcome jsstring;
  assumedRole : outcome unit;
  signedRequest : outcome Headers
}.

Section Signer.
(** The constant of the same name, an opaque blob. *)
Variable DEFAULT_ENCRYPTED_FAS_CREDS : jsstring.

(** "Add datasource headers if configured" *)
Definition addDatasourceHeaders (env : Env) (headers : Headers) : Headers :=
  let datasourceEndpoint :=
    orElse (env (js "MLCOMMONS_HEADER_OPENSEARCH_URL")) [] in
  let datasourceRegion := orElse (env (js "MLCOMMONS_HEADER_AWS_REGION")) [] in
  let datasourceAccessKey :=
    orElse (env (js "MLCOMMONS_HEADER_AWS_ACCESS_KEY_ID")) [] in
  let datasourceSecretKey :=
    orElse (env (js "MLCOMMONS_HEADER_AWS_SECRET_ACCESS_KEY")) [] in
  let datasourceSessionToken :=
    orElse (env (js "MLCOMMONS_HEADER_AWS_SESSION_TOKEN")) [] in
  if nonEmpty datasourceEndpoint then
    let headers :=
      setHeader (js "x-amzn-datasource-endpoint") datasourceEndpoint headers in
    let headers := setHeader (js "x-amzn-datasource-type") (js "es") headers in
    if nonEmpty datasourceAccessKey && nonEmpty datasourceSecretKey then
      let headers :=
        setHeader (js "x-amzn-datasource-aws-region") datasourceRegion
          headers in
      let headers :=
        setHeader (js "x-amzn-datasource-aws-access-key-id")
          datasourceAccessKey headers in
      let headers :=
        setHeader (js "x-amzn-datasource-aws-secret-access-key")
          datasourceSecretKey headers in
      if nonEmpty datasourceSessionToken then
        setHeader (js "x-amzn-datasource-aws-session-token")
          datasourceSessionToken headers
      else headers
    else headers
  else headers.

Definition signAgentRequest (env : Env) (x : Externals) : outcome Headers :=
  let accountId := orElse (env (js "SIGV4_ACCOUNT_ID")) (js "631352388807") in
  let applicationId :=
    orElse (env (js "SIGV4_APPLICATION_ID")) (js "zz1jwht80jvvdq2b8otc") in
  let fasKmsKeyArn :=
    orElse (env (js "SIGV4_FAS_KMS_KEY_ARN"))
      (js "arn:aws:kms:us-west-2:640632644840:key/f40d283f-95de-4185-980c-a641340b14f1") in
  _ <- payloadSize x ;;
  host <- hostname x ;;
  (* try { ... generateFreshFasCreds(...) } catch { ... fallback ... } *)
  let encryptedFasCreds :=
    match generateFreshFasCreds (execSync x) with
    | Return fresh => fresh
    | Throw _ =>
        orElse (env (js "ENCRYPTED_FAS_CREDS")) DEFAULT_ENCRYPTED_FAS_CREDS
    end in
  _ <- assumedRole x ;;
  signed <- signedRequest x ;;
  let headers : Headers :=
    [ (js "x-amzn-service-account", accountId);
      (js "x-amzn-aosd-application-id", applicationId);
      (js "x-amzn-auth-endpoint", host);
      (js "x-amzn-client-account", accountId);
      (js "X-Amz-Date", orElse (getHeader signed (js "x-amz-date")) []);
      (js "Authorization", orElse (getHeader signed (js "authorization")) []);
      (js "encrypted-fas-creds", encryptedFasCreds);
      (js "fas-kms-key-arn", fasKmsKeyArn) ] in
  let headers := addDatasourceHeaders env headers in
  let headers :=
    if nonEmpty (orElse (getHeader signed (js "x-amz-security-token")) [])
    then setHeader (js "X-Amz-Security-Token")
           (orElse (getHeader signed (js "x-amz-security-token")) []) headers
    else headers in
  Return headers.

End Signer.
End SigV4Signer.

(* ================================================================== *)
(** * scripts/get-encrypted-fas-creds.js *)
(* ================================================================== *)

Module FasCredsScript.
Import JS Text.
Local Open Scope js_scope.

(** A token a lookup came back with: a string, or [null]. *)
Definition found (token : option jsstring) : bool :=
  match token with
  | Some (_ :: _) => true
  | _ => false
  end.

(** The body of [for (const event of logs.events)]: the first message with
    a bearer token decides.  A message may be missing from an event. *)
Fixpoint firstBearer (messages : list (option jsstring))
    : outcome (option jsstring) :=
  match messages with
  | [] => Return None
  | None :: _ => Throw TypeError
  | Some message :: rest =>
      match matchAfter (js "X-Amz-Juno-Sectoken:[Bearer ") bracketed message with
      | Some token => if found (Some token) then Return (Some token)
                      else firstBearer rest
      | None => firstBearer rest
      end
  end.

(** [getJwtTokenFromCloudWatch], given what [filterLogEvents] resolves to
    (the messages of [logs.events], [None] when there is no [events]) or
    rejects with. *)
Definition getJwtTokenFromCloudWatch
    (filterLogEvents : outcome (option (list (option jsstring))))
    : outcome (option jsstring) :=
  logs <- filterLogEvents ;;
  match logs with
  | None => Return None
  | Some [] => Return None
  | Some events => firstBearer events
  end.

(** What [waitForToken] does besides computing: a lookup, or a pause of so
    many milliseconds. *)
Inductive action : Type :=
| Lookup
| Sleep (delayMs : N).

(** The [for] loop of [waitForToken] from [attempt] on, with [fuel] turns
    left; [lookup n] is what the [n]-th call of [getJwtTokenFromCloudWatch]
    completes with. *)
Fixpoint attemptsFrom (lookup : nat -> outcome (option jsstring))
    (maxAttempts : nat) (delayMs : N) (attempt fuel : nat)
    : list action * outcome jsstring :=
  match fuel with
  | O =>
      ([], Throw (Error (js "Failed to find token after maximum attempts")))
  | S fuel' =>
      match lookup attempt with
      | Throw e => ([Lookup], Throw e)
      | Return token =>
          match token with
          | Some (c :: t) => ([Lookup], Return (c :: t))
          | _ =>
              let (actions, result) :=
                attemptsFrom lookup maxAttempts delayMs (S attempt) fuel' in
              if Nat.ltb attempt maxAttempts
              then (Lookup :: Sleep delayMs :: actions, result)
              else (Lookup :: actions, result)
          end
      end
  end.

(** [waitForToken(requestId, beholderCredentials, maxAttempts, delayMs)] *)
Definition waitForToken (lookup : nat -> outcome (option jsstring))
    (maxAttempts : nat) (delayMs : N) : list action * outcome jsstring :=
  attemptsFrom lookup maxAttempts delayMs 1 maxAttempts.

Section Jwt.
Context {number : Type} {engine : Engine number}.
(** [Buffer.from(base64, 'base64').toString('utf8')] *)
Variable base64ToUtf8 : jsstring -> jsstring.

(** [extractEncryptedFasCreds] *)
Definition extractEncryptedFasCreds (jwtToken : jsstring)
    : outcome (value number) :=
  let parts := split 46%N jwtToken in
  if Nat.ltb (length parts) 2 then
    Throw (Error (js "Invalid JWT format - need at least header and payload"))
  else
    let payload := nth 1 parts [] in
    let base64 := replaceAll 95%N 47%N (replaceAll 45%N 43%N payload) in
    let jsonPayload := base64ToUtf8 base64 in
    decoded <- JSON_parse (VStr jsonPayload) ;;
    encryptedFasCreds <- getProp decoded (js "encrypted-fas-creds") ;;
    if ToBoolean encryptedFasCreds then Return encryptedFasCreds
    else Throw (Error (js "encrypted-fas-creds not found in JWT payload")).

End Jwt.
End FasCredsScript.

(* ================================================================== *)
(** * The judges and the benchmark loop *)
(* ================================================================== *)

Module Judges.
Import JS TextDecoder Text.
Local Open Scope js_scope.

Section Judges.
Context {number : Type} {engine : Engine number}.
Local Abbreviation value := (value number).
(** The Number [0]. *)
Variable zero : number.

(** [content.match(/\{[\s\S]*\}/)]: only a string has a [match] method. *)
Definition matchJson (content : value) : outcome (option jsstring) :=
  match content with
  | VStr s => Return (matchBraces s)
  | _ => Throw TypeError
  end.

(** [responseBody.content[0].text] *)
Definition contentText (responseBody : value) : outcome value :=
  blocks <- getProp responseBody (js "content") ;;
  block <- getIndex0 blocks ;;
  getProp block (js "text").

(** "Parse JSON from response": the score and the reasoning in the matched
    text. *)
Definition readVerdict (matched : jsstring) : outcome (value * value) :=
  result <- JSON_parse (VStr matched) ;;
  score <- getProp result (js "score") ;;
  reasoning <- getProp result (js "reasoning") ;;
  Return (score, reasoning).

(** [evaluateWithBedrock] of benchmark-mtbench.ts, from the bytes of
    [response.body] on. *)
Definition evaluateWithBedrock (responseBody : list byte)
    : outcome (value * value) :=
  responseBody <- JSON_parse (VStr (text [responseBody])) ;;
  content <- contentText responseBody ;;
  jsonMatch <- matchJson content ;;
  match jsonMatch with
  | None => Throw (Error (js "Failed to parse judge response"))
  | Some matched => readVerdict matched
  end.






(** A question of the dataset, shaped as the interface [MTBenchQuestion]
    declares it (the id being whatever JSON value the file holds), and a row
    of the report. *)
Record MTBenchQuestion : Type := {
  question_id : value;
  category : jsstring;
  turns : list jsstring;
  reference : option jsstring
}.

Record BenchmarkResult : Type := {
  questionId : value;
  resultCategory : jsstring;
  query : jsstring;
  expected : jsstring;
  actual : jsstring;
  accuracyScore : value;
  resultReasoning : value;
  resultLatencyMs : Z
}.

(** [`Error: ${error}`], for what the engine renders a thrown value as. *)
Variable describe : exn -> jsstring.

(** The collaborators of the loop: the agent call and the judge call made
    for the [i]-th question. *)
Variable callOasisAgent : nat -> jsstring -> outcome (jsstring * Z).
Variable judge : nat -> jsstring -> jsstring -> jsstring -> outcome (value * value).

(** The row that the [try] block pushes, and the one that the [catch]
    block pushes. *)
Definition scoredRow (question : MTBenchQuestion) (query expected : jsstring)
    (agent : jsstring * Z) (verdict : value * value) : BenchmarkResult :=
  {| questionId := question_id question;
     resultCategory := category question;
     query := query;
     expected := expected;
     actual := fst agent;
     accuracyScore := fst verdict;
     resultReasoning := snd verdict;
     resultLatencyMs := snd agent |}.

Definition errorRow (question : MTBenchQuestion) (query expected : jsstring)
    (error : exn) : BenchmarkResult :=
  {| questionId := question_id question;
     resultCategory := category question;
     query := query;
     expected := expected;
     actual := js "ERROR";
     accuracyScore := VNum zero;
     resultReasoning := VStr (js "Error: " ++ describe error);
     resultLatencyMs := 0 |}.

(** The two progress lines that end the [try] block: their template
    literals convert the score and the reasoning to strings. *)
Definition progressLines (verdict : value * value) : outcome unit :=
  _ <- ToString (fst verdict) ;;
  _ <- ToString (snd verdict) ;;
  Return tt.

(** The [try ... catch] of one turn of the loop of [runBenchmark]: the rows
    that the turn pushes.  The progress lines come after the [push] of the
    [try] block, so when they throw the [catch] block pushes a second
    row. *)
Definition evaluateQuestion (i : nat) (question : MTBenchQuestion)
    (query expected : jsstring) : list BenchmarkResult :=
  match (agent <- callOasisAgent i query ;;
         verdict <- judge i query expected (fst agent) ;;
         Return (agent, verdict)) with
  | Return (agent, verdict) =>
      match progressLines verdict with
      | Return _ => [scoredRow question query expected agent verdict]
      | Throw error =>
          [scoredRow question query expected agent verdict;
           errorRow question query expected error]
      end
  | Throw error => [errorRow question query expected error]
  end.

(** The loop of [runBenchmark] from question [i] on.  [question.turns[0]]
    of a question without turns is undefined, and [query.substring], which
    the progress line calls before the [try], throws on it. *)
Fixpoint evaluateFrom (i : nat) (questions : list MTBenchQuestion)
    (results : list BenchmarkResult) : outcome (list BenchmarkResult) :=
  match questions with
  | [] => Return results
  | question :: rest =>
      match turns question with
      | [] => Throw TypeError
      | query :: _ =>
          let expected :=
            SigV4Signer.orElse (reference question)
              (js "No reference provided") in
          evaluateFrom (S i) rest
            (results ++ evaluateQuestion i question query expected)
      end
  end.

(** [runBenchmark], from the loaded dataset to the [results] array that
    [calculateSummary] receives. *)
Definition runBenchmark (maxQuestions : Z) (dataset : list MTBenchQuestion)
    : outcome (list BenchmarkResult) :=
  let questions :=
    if (0 <? maxQuestions)%Z then firstn (Z.to_nat maxQuestions) dataset
    else dataset in
  evaluateFrom 0 questions [].

End Judges.
End Judges.

(* ================================================================== *)
(** * Vocabulary and samples for the remaining functions *)
(* ================================================================== *)

Module Expect.
Import JS Text.

(** The actions of [k] lookups that found nothing, each followed by a
    pause. *)
Fixpoint retries (k : nat) (delayMs : N) : list FasCredsScript.action :=
  match k with
  | O => []
  | S k' =>
      FasCredsScript.Lookup :: FasCredsScript.Sleep delayMs
        :: retries k' delayMs
  end.

(** The questions that [runBenchmark] evaluates. *)
Definition selected {number : Type} (maxQuestions : Z)
    (dataset : list (@Judges.MTBenchQuestion number))
    : list (@Judges.MTBenchQuestion number) :=
  if (0 <? maxQuestions)%Z then firstn (Z.to_nat maxQuestions) dataset
  else dataset.

(** The names of the headers that carry the datasource. *)
Definition DS_ENDPOINT := js "x-amzn-datasource-endpoint".
Definition DS_TYPE := js "x-amzn-datasource-type".
Definition DS_REGION := js "x-amzn-datasource-aws-region".
Definition DS_ACCESS_KEY := js "x-amzn-datasource-aws-access-key-id".
Definition DS_SECRET_KEY := js "x-amzn-datasource-aws-secret-access-key".
Definition DS_SESSION_TOKEN := js "x-amzn-datasource-aws-session-token".

(** Whether the header [name] is among [headers]. *)
Definition sent (headers : SigV4Signer.Headers) (name : jsstring) : bool :=
  match SigV4Signer.getHeader headers name with
  | Some _ => true
  | None => false
  end.

(** An environment given as a list of settings. *)
Definition envOf (settings : list (jsstring * jsstring)) : SigV4Signer.Env :=
  SigV4Signer.getHeader settings.

(** A run in which the payload is serialised, the URL parses, the role is
    assumed and the authentication request is signed; [script] is the run
    of the credential script. *)
Definition signedRun (script : outcome jsstring) : SigV4Signer.Externals :=
  {| SigV4Signer.payloadSize := Return 42%nat;
     SigV4Signer.hostname := Return (js "oasis.us-west-2.amazonaws.com");
     SigV4Signer.execSync := script;
     SigV4Signer.assumedRole := Return tt;
     SigV4Signer.signedRequest :=
       Return [(js "authorization", js "AWS4-HMAC-SHA256 Signature=0a1b");
               (js "x-amz-date", js "20260101T000000Z");
               (js "x-amz-security-token", js "IQoJb3JpZ2lu")] |}.

(** A datasource with keys and no region. *)
Definition datasourceSettings : list (jsstring * jsstring) :=
  [(js "MLCOMMONS_HEADER_OPENSEARCH_URL", js "https://search.example.com");
   (js "MLCOMMONS_HEADER_AWS_ACCESS_KEY_ID", js "AKIAEXAMPLE");
   (js "MLCOMMONS_HEADER_AWS_SECRET_ACCESS_KEY", js "secret");
   (js "ENCRYPTED_FAS_CREDS", js "stored")].

(** A reply of the judge model whose text wraps the verdict in prose. *)
Definition judgeReply : list byte :=
  Examples.quoted
    "{'content':[{'text':'Verdict: {\'score\':90,\'reasoning\':\'ok\'} Thanks'}]}".

Definition parsedReply : value Z :=
  match JSON_parse (engine := Reference.engine)
          (VStr (TextDecoder.text [judgeReply])) with
  | Return reply => reply
  | Throw _ => VUndefined
  end.

(** What stands between the braces of that verdict. *)
Definition verdictBody : jsstring :=
  TextDecoder.text [Examples.quoted "'score':90,'reasoning':'ok'"].

(** A reply whose text has no verdict. *)
Definition judgeRefusal : list byte :=
  Examples.quoted "{'content':[{'text':'I cannot rate this.'}]}".

Definition parsedRefusal : value Z :=
  match JSON_parse (engine := Reference.engine)
          (VStr (TextDecoder.text [judgeRefusal])) with
  | Return reply => reply
  | Throw _ => VUndefined
  end.

(** Two questions of a dataset. *)
Definition writingQuestion : @Judges.MTBenchQuestion Z :=
  {| Judges.question_id := VNum 81%Z;
     Judges.category := js "writing";
     Judges.turns := [js "Compose a travel post"; js "Rewrite it"];
     Judges.reference := None |}.

Definition mathQuestion : @Judges.MTBenchQuestion Z :=
  {| Judges.question_id := VNum 111%Z;
     Judges.category := js "math";
     Judges.turns := [js "What is the area?"];
     Judges.reference := Some (js "3") |}.

Definition questions : list (@Judges.MTBenchQuestion Z) :=
  [writingQuestion; mathQuestion].

(** A question that lost its turns. *)
Definition blankQuestion : @Judges.MTBenchQuestion Z :=
  {| Judges.question_id := VNum 120%Z;
     Judges.category := js "math";
     Judges.turns := [];
     Judges.reference := None |}.

(** A row that belongs to a question: it carries the question's id and
    category, its first turn and its reference. *)
Definition rowOf {number : Type} (question : @Judges.MTBenchQuestion number)
    (row : @Judges.BenchmarkResult number) : Prop :=
  Judges.questionId row = Judges.question_id question
  /\ Judges.resultCategory row = Judges.category question
  /\ Judges.query row = hd [] (Judges.turns question)
  /\ Judges.expected row
     = SigV4Signer.orElse (Judges.reference question)
         (js "No reference provided").


Definition judgeFair (i : nat) (query expected actual : jsstring)
    : outcome (value Z * value Z) :=
  Return (VNum 90%Z, VStr (js "close enough")).


(** An agent that cannot be reached. *)
Definition agentDown (i : nat) (query : jsstring) : outcome (jsstring * Z) :=
  Throw (Error (js "Agent error: 503 - unavailable")).

Definition judgeDown (i : nat) (query expected actual : jsstring)
    : outcome (value Z * value Z) :=
  Throw (Error (js "Failed to parse judge response")).


End Expect.

(* ================================================================== *)
(** * Strings and the decoder *)
(* ================================================================== *)

Import JS TextDecoder Oasis.
Unset Implicit Arguments.

(** Closed examples run on the reference engine. *)
#[local] Existing Instance Reference.engine.
#[local] Existing Instance Examples.textConverter.

Lemma eqb_eq (a b : jsstring) : JS.eqb a b = true <-> a = b.
Proof.
  revert b; induction a as [|x a IH]; intros [|y b]; simpl;
    try (split; (reflexivity || discriminate)).
  rewrite andb_true_iff, N.eqb_eq, IH.
  split; [intros [-> ->]; reflexivity | intros [= -> ->]; auto].
Qed.

Lemma eqb_refl (a : jsstring) : JS.eqb a a = true.
Proof. apply eqb_eq; reflexivity. Qed.

Lemma eqb_nil_r (a : jsstring) : JS.eqb a [] = true <-> a = [].
Proof. apply eqb_eq. Qed.

Lemma split_lines_nonempty (s : jsstring) : split_lines s <> [].
Proof.
  destruct s as [|c s]; simpl; [discriminate|].
  destruct (N.eqb c LF); [discriminate|].
  destruct (split_lines s); discriminate.
Qed.

(** A line feed ends a line: the lines of [a ++ LF :: b] are the lines of
    [a] followed by the lines of [b]. *)
Lemma split_lines_app_LF (a b : jsstring) :
  split_lines (a ++ LF :: b) = split_lines a ++ split_lines b.
Proof.
  induction a as [|c a IH]; simpl.
  - reflexivity.
  - destruct (N.eqb c LF).
    + rewrite IH; reflexivity.
    + rewrite IH.
      pose proof (split_lines_nonempty a) as Hne.
      destruct (split_lines a) as [|line rest]; [contradiction|].
      reflexivity.
Qed.

Lemma decode_app (td : TextDecoder) (c1 c2 : list byte) :
  decode td (c1 ++ c2) =
  (fst (decode (fst (decode td c1)) c2),
   snd (decode td c1) ++ snd (decode (fst (decode td c1)) c2)).
Proof.
  revert td; induction c1 as [|b c1 IH]; intros td; simpl.
  - destruct (decode td c2); reflexivity.
  - destruct (decode_byte td b) as [td1 out1].
    rewrite IH.
    destruct (decode td1 c1) as [td2 out2]; simpl.
    rewrite app_assoc; reflexivity.
Qed.

Lemma utf8_handler_invariant (d : Utf8Decoder) (b : N) :
  expectsContinuation d -> expectsContinuation (fst (utf8_handler d b)).
Proof.
  unfold expectsContinuation, utf8_handler; intros H.
  repeat match goal with
         | |- context [if ?c then _ else _] => destruct c eqn:?
         end; simpl; try assumption; try lia.
Qed.

Lemma process_byte_invariant (d : Utf8Decoder) (b : N) :
  expectsContinuation d -> expectsContinuation (fst (process_byte d b)).
Proof.
  intros H; unfold process_byte.
  pose proof (utf8_handler_invariant d b H) as H1.
  destruct (utf8_handler d b) as [d' r]; simpl in H1.
  destruct r; simpl; try assumption.
  pose proof (utf8_handler_invariant d' b H1) as H2.
  destruct (utf8_handler d' b) as [d'' r']; simpl in *; assumption.
Qed.

Lemma decode_invariant (chunk : list byte) (td : TextDecoder) :
  expectsContinuation (decoder td) ->
  expectsContinuation (decoder (fst (decode td chunk))).
Proof.
  revert td; induction chunk as [|b chunk IH]; intros td H; simpl.
  - assumption.
  - unfold decode_byte.
    pose proof (process_byte_invariant (decoder td) (Byte.to_N b) H) as H1.
    destruct (process_byte (decoder td) (Byte.to_N b)) as [d scalars].
    destruct (serialize (BOM_seen td) scalars) as [seen out].
    specialize (IH {| decoder := d; BOM_seen := seen |} H1).
    destruct (decode {| decoder := d; BOM_seen := seen |} chunk); exact IH.
Qed.

(** Whatever the decoder holds, a line-feed byte comes out as the last code
    unit of the text decoded for it. *)
Lemma decode_byte_LF (td : TextDecoder) :
  expectsContinuation (decoder td) ->
  exists text, snd (decode_byte td x0a) = text ++ [LF].
Proof.
  unfold expectsContinuation; intros H.
  unfold decode_byte, process_byte, utf8_handler.
  change (Byte.to_N x0a) with 10%N.
  destruct (bytes_needed (decoder td) =? 0)%N eqn:Hn.
  - simpl. destruct (BOM_seen td); exists []; reflexivity.
  - assert (Hout : inRange (lower_boundary (decoder td))
                     (upper_boundary (decoder td)) 10 = false).
    { unfold inRange. apply andb_false_iff; left. apply N.leb_gt. lia. }
    rewrite Hout; simpl.
    destruct (BOM_seen td); exists [REPLACEMENT]; reflexivity.
Qed.

Lemma endsWithLineFeed_inv (chunk : list byte) :
  Spec.endsWithLineFeed chunk = true -> exists c, chunk = c ++ [x0a].
Proof.
  unfold Spec.endsWithLineFeed; intros H.
  destruct (rev chunk) as [|b r] eqn:Hr; [discriminate|].
  destruct b; try discriminate.
  exists (rev r). rewrite <- (rev_involutive chunk), Hr. reflexivity.
Qed.

Lemma decode_LF_last (td : TextDecoder) (chunk : list byte) :
  expectsContinuation (decoder td) ->
  Spec.endsWithLineFeed chunk = true ->
  exists text, snd (decode td chunk) = text ++ [LF].
Proof.
  intros Hinv Hlf.
  destruct (endsWithLineFeed_inv _ Hlf) as [c ->].
  rewrite decode_app; simpl.
  pose proof (decode_invariant c td Hinv) as Hc.
  destruct (decode_byte_LF _ Hc) as [t Ht].
  destruct (decode_byte (fst (decode td c)) x0a) as [td1 out1].
  simpl in *. subst out1.
  exists (snd (decode td c) ++ t).
  rewrite app_nil_r, app_assoc. reflexivity.
Qed.

(* ================================================================== *)
(** * The read loop *)
(* ================================================================== *)

Section ReadLoop.
Context {number : Type} {engine : Engine number}.
Context {S : Type} (processLine : S -> jsstring -> S).

Hypothesis blank_line : forall st, processLine st [] = st.

(** Two reads whose boundary falls after a line feed do what one read of
    both chunks does. *)
Lemma processChunkWith_merge (s : TextDecoder * S) (c1 c2 : list byte) :
  expectsContinuation (decoder (fst s)) ->
  Spec.endsWithLineFeed c1 = true ->
  Spec.processChunkWith processLine (Spec.processChunkWith processLine s c1) c2
  = Spec.processChunkWith processLine s (c1 ++ c2).
Proof.
  intros Hinv Hlf. destruct s as [td st]; simpl in *.
  destruct (decode_LF_last td c1 Hinv Hlf) as [t Ht].
  unfold Spec.processChunkWith; simpl.
  rewrite decode_app.
  destruct (decode td c1) as [td1 out1]; simpl in *; subst out1.
  destruct (decode td1 c2) as [td2 out2]; simpl.
  f_equal.
  rewrite <- app_assoc; simpl.
  rewrite !split_lines_app_LF, !fold_left_app; simpl.
  rewrite blank_line. reflexivity.
Qed.

Lemma processChunkWith_invariant (s : TextDecoder * S) (c : list byte) :
  expectsContinuation (decoder (fst s)) ->
  expectsContinuation
    (decoder (fst (Spec.processChunkWith processLine s c))).
Proof.
  intros H. unfold Spec.processChunkWith.
  pose proof (decode_invariant c (fst s) H) as H1.
  destruct (decode (fst s) c); exact H1.
Qed.

(** A body whose chunk boundaries all fall after line feeds is read as if
    it came in one chunk. *)
Lemma readLoop_aligned (chunks : list (list byte)) (s : TextDecoder * S) :
  expectsContinuation (decoder (fst s)) ->
  Spec.boundariesAtLineEnds chunks = true ->
  fold_left (Spec.processChunkWith processLine) chunks s
  = Spec.processChunkWith processLine s (concat chunks).
Proof.
  revert s; induction chunks as [|c rest IH]; intros s Hinv Hal.
  - destruct s as [td st]; unfold Spec.processChunkWith; simpl.
    rewrite blank_line; reflexivity.
  - destruct rest as [|c2 rest'].
    + simpl. rewrite app_nil_r. reflexivity.
    + unfold Spec.boundariesAtLineEnds in Hal.
      change (removelast (c :: c2 :: rest'))
        with (c :: removelast (c2 :: rest')) in Hal.
      simpl forallb in Hal. apply andb_true_iff in Hal as [Hc Hrest].
      change (fold_left (Spec.processChunkWith processLine)
                (c :: c2 :: rest') s)
        with (fold_left (Spec.processChunkWith processLine) (c2 :: rest')
                (Spec.processChunkWith processLine s c)).
      rewrite IH;
        [ | apply processChunkWith_invariant; assumption | exact Hrest ].
      change (concat (c :: c2 :: rest')) with (c ++ concat (c2 :: rest')).
      apply processChunkWith_merge; assumption.
Qed.

End ReadLoop.

Section Factorisation.
Context {number : Type} {engine : Engine number}.
Context {S : Type} (processLine : S -> jsstring -> S)
        (step : S -> value number -> S).

Hypothesis line_events :
  forall st line, processLine st line = fold_left step (Spec.lineEvents line) st.

Lemma lines_events (lines : list jsstring) (st : S) :
  fold_left processLine lines st
  = fold_left step (flat_map Spec.lineEvents lines) st.
Proof.
  revert st; induction lines as [|line lines IH]; intros st; simpl.
  - reflexivity.
  - rewrite fold_left_app, <- line_events. apply IH.
Qed.

(** The read loop is the fold of the event handler over the decoded
    events of the stream. *)
Lemma readLoop_events (chunks : list (list byte)) (td : TextDecoder) (st : S) :
  snd (fold_left (Spec.processChunkWith processLine) chunks (td, st))
  = fold_left step (Spec.decodedEvents td chunks) st.
Proof.
  revert td st; induction chunks as [|c rest IH]; intros td st; simpl.
  - reflexivity.
  - unfold Spec.processChunkWith at 2; simpl.
    unfold Spec.chunkEvents.
    destruct (decode td c) as [td1 out1]; simpl.
    rewrite IH, fold_left_app, lines_events. reflexivity.
Qed.

End Factorisation.

Section Scripts.
Context {number : Type} {engine : Engine number}.
Local Abbreviation value := (value number).

Lemma MT_processLine_events (st : MTBench.State) (line : jsstring) :
  MTBench.processLine st line
  = fold_left MTBench.step (Spec.lineEvents line) st.
Proof.
  unfold MTBench.processLine, Spec.lineEvents, MTBench.tryFrame, MTBench.step.
  destruct (startsWith line (js "data: ")); [|reflexivity].
  destruct (unwrapEvent (slice 6 line)) as [[ev|]|e]; reflexivity.
Qed.

Lemma Tau_processLine_events (st : @TauBench.State number) (line : jsstring) :
  TauBench.processLine st line
  = fold_left TauBench.step (Spec.lineEvents line) st.
Proof.
  unfold TauBench.processLine, Spec.lineEvents, TauBench.tryFrame,
    TauBench.step.
  destruct (startsWith line (js "data: ")); [|reflexivity].
  destruct (unwrapEvent (slice 6 line)) as [[ev|]|e]; reflexivity.
Qed.

Lemma MT_readLoop_events (chunks : list (list byte)) (td : TextDecoder)
    (st : MTBench.State) :
  snd (MTBench.readLoop chunks (td, st))
  = MTBench.foldEvents (Spec.decodedEvents td chunks) st.
Proof.
  exact (readLoop_events MTBench.processLine MTBench.step
           MT_processLine_events chunks td st).
Qed.

Lemma Tau_readLoop_events (chunks : list (list byte)) (td : TextDecoder)
    (st : @TauBench.State number) :
  snd (TauBench.readLoop chunks (td, st))
  = TauBench.foldEvents (Spec.decodedEvents td chunks) st.
Proof.
  exact (readLoop_events TauBench.processLine TauBench.step
           Tau_processLine_events chunks td st).
Qed.

Lemma MT_readLoop_aligned (chunks : list (list byte)) :
  Spec.boundariesAtLineEnds chunks = true ->
  MTBench.readLoop chunks (newTextDecoder, MTBench.initial)
  = MTBench.readLoop [concat chunks] (newTextDecoder, MTBench.initial).
Proof.
  intros H.
  apply (readLoop_aligned MTBench.processLine (fun st => eq_refl) chunks
           (newTextDecoder, MTBench.initial)); [|exact H].
  unfold expectsContinuation; simpl; lia.
Qed.

Lemma Tau_readLoop_aligned (chunks : list (list byte)) :
  Spec.boundariesAtLineEnds chunks = true ->
  TauBench.readLoop chunks (newTextDecoder, TauBench.initial)
  = TauBench.readLoop [concat chunks] (newTextDecoder, TauBench.initial).
Proof.
  intros H.
  apply (readLoop_aligned TauBench.processLine (fun st => eq_refl) chunks
           (newTextDecoder, TauBench.initial)); [|exact H].
  unfold expectsContinuation; simpl; lia.
Qed.

End Scripts.

(* ================================================================== *)
(** * The event handlers *)
(* ================================================================== *)

Section Handlers.
Context {number : Type} {engine : Engine number}.
Local Abbreviation value := (value number).

Lemma strictEqualsString_true (v : value) (literal : jsstring) :
  strictEqualsString v literal = true -> v = VStr literal.
Proof.
  destruct v; simpl; try discriminate.
  intros H; apply eqb_eq in H; subst; reflexivity.
Qed.

Lemma typeIs_Return (ev : value) (literal : jsstring) (b : bool) :
  typeIs ev literal = Return b ->
  exists ty, getProp ev (js "type") = Return ty
             /\ strictEqualsString ty literal = b.
Proof.
  unfold typeIs. destruct (getProp ev (js "type")) as [ty|e]; simpl;
    [intros [= <-]; eauto | discriminate].
Qed.

(** Reading a property of a value that has just yielded one cannot
    throw. *)
Lemma getProp_total (ev : value) (k1 k2 : jsstring) (x : value) :
  getProp ev k1 = Return x -> exists y, getProp ev k2 = Return y.
Proof.
  destruct ev; simpl; try discriminate; eauto.
  intros _. destruct (ownProperty properties k2); eauto.
Qed.

Lemma literals_distinct :
  JS.eqb TEXT_MESSAGE_CONTENT TEXT_MESSAGE_END = false
  /\ JS.eqb TOOL_CALL_START TEXT_MESSAGE_CONTENT = false
  /\ JS.eqb TOOL_CALL_START TEXT_MESSAGE_END = false
  /\ JS.eqb TEXT_MESSAGE_START TEXT_MESSAGE_CONTENT = false
  /\ JS.eqb TEXT_MESSAGE_START TEXT_MESSAGE_END = false
  /\ JS.eqb TEXT_MESSAGE_START TOOL_CALL_START = false
  /\ JS.eqb TOOL_CALL_END TOOL_CALL_START = false
  /\ JS.eqb TOOL_CALL_ARGS TOOL_CALL_START = false
  /\ JS.eqb TEXT_MESSAGE_CONTENT TOOL_CALL_START = false
  /\ JS.eqb TEXT_MESSAGE_END TOOL_CALL_START = false.
Proof. repeat split; reflexivity. Qed.

(** Of two literals, a type equal to the first equals the second exactly
    when the literals agree. *)
Lemma strictEqualsString_other (ty : value) (a b : jsstring) :
  strictEqualsString ty a = true ->
  strictEqualsString ty b = JS.eqb a b.
Proof. intros H; apply strictEqualsString_true in H; subst; reflexivity. Qed.

Ltac case_type ev :=
  unfold typeIsAnd, typeIs;
  destruct (getProp ev (js "type")) as [?ty|?e] eqn:?Htype; simpl.

(** On the text accumulators, the MT-Bench handler is the span-wise
    reduction. *)
Lemma MT_step_text (st : MTBench.State) (ev : value) :
  (MTBench.fullResponse (MTBench.step st ev),
   MTBench.currentMessage (MTBench.step st ev))
  = Spec.textStep (MTBench.fullResponse st, MTBench.currentMessage st) ev.
Proof.
  unfold MTBench.step, MTBench.collectText, Spec.textStep, Spec.closesSpan,
    Spec.deltaOf.
  case_type ev; [|rewrite app_nil_r; reflexivity].
  destruct (strictEqualsString ty TEXT_MESSAGE_CONTENT) eqn:Hc; simpl.
  - rewrite (strictEqualsString_other _ _ TEXT_MESSAGE_END Hc),
      (proj1 literals_distinct).
    destruct (getProp ev (js "delta")) as [d|e]; simpl;
      [|rewrite app_nil_r; reflexivity].
    destruct (ToBoolean d); simpl.
    + destruct (ToString d); simpl; rewrite ?app_nil_r; reflexivity.
    + rewrite app_nil_r; reflexivity.
  - destruct (strictEqualsString ty TEXT_MESSAGE_END); simpl;
      rewrite ?app_nil_r; reflexivity.
Qed.

(** The tool statement leaves the text accumulators alone. *)
Lemma trackToolUsage_text (st : @TauBench.State number) (ev : value) :
  TauBench.fullResponse (snd (TauBench.trackToolUsage ev st))
  = TauBench.fullResponse st
  /\ TauBench.currentMessage (snd (TauBench.trackToolUsage ev st))
     = TauBench.currentMessage st.
Proof.
  unfold TauBench.trackToolUsage.
  destruct (typeIsAnd ev TOOL_CALL_START (js "toolCallName")) as [[|]|e];
    simpl; auto.
  destruct (getProp ev (js "toolCallName")); simpl; auto.
Qed.

(** The text statement leaves the tool list alone. *)
Lemma collectText_tools (st : @TauBench.State number) (ev : value) :
  TauBench.toolsUsed (snd (TauBench.collectText ev st))
  = TauBench.toolsUsed st.
Proof.
  unfold TauBench.collectText.
  destruct (typeIsAnd ev TEXT_MESSAGE_CONTENT (js "delta")) as [[|]|e];
    simpl; auto.
  - destruct (delta <- getProp ev (js "delta");; ToString delta)%js;
      reflexivity.
  - destruct (typeIs ev TEXT_MESSAGE_END) as [[|]|e]; reflexivity.
Qed.

Lemma Tau_collectText_text (st : @TauBench.State number) (ev : value) :
  (TauBench.fullResponse (snd (TauBench.collectText ev st)),
   TauBench.currentMessage (snd (TauBench.collectText ev st)))
  = Spec.textStep (TauBench.fullResponse st, TauBench.currentMessage st) ev.
Proof.
  unfold TauBench.collectText, Spec.textStep, Spec.closesSpan, Spec.deltaOf.
  case_type ev; [|rewrite app_nil_r; reflexivity].
  destruct (strictEqualsString ty TEXT_MESSAGE_CONTENT) eqn:Hc; simpl.
  - rewrite (strictEqualsString_other _ _ TEXT_MESSAGE_END Hc),
      (proj1 literals_distinct).
    destruct (getProp ev (js "delta")) as [d|e]; simpl;
      [|rewrite app_nil_r; reflexivity].
    destruct (ToBoolean d); simpl.
    + destruct (ToString d); simpl; rewrite ?app_nil_r; reflexivity.
    + rewrite app_nil_r; reflexivity.
  - destruct (strictEqualsString ty TEXT_MESSAGE_END); simpl;
      rewrite ?app_nil_r; reflexivity.
Qed.

(** A value whose [type] cannot be read makes both statements throw
    before they assign anything. *)
Lemma trackToolUsage_throw (st : @TauBench.State number) (ev : value) e :
  fst (TauBench.trackToolUsage ev st) = Throw e ->
  Spec.textStep (TauBench.fullResponse st, TauBench.currentMessage st) ev
  = (TauBench.fullResponse st, TauBench.currentMessage st).
Proof.
  unfold TauBench.trackToolUsage, Spec.textStep, Spec.closesSpan,
    Spec.deltaOf.
  case_type ev.
  - destruct (strictEqualsString ty TOOL_CALL_START) eqn:Hs; simpl;
      [|discriminate].
    destruct (getProp_total ev (js "type") (js "toolCallName") ty Htype)
      as [y Hy].
    rewrite Hy; simpl. destruct (ToBoolean y); simpl; discriminate.
  - intros _. rewrite app_nil_r; reflexivity.
Qed.

(** On the text accumulators, the Tau-Bench handler is the span-wise
    reduction as well. *)
Lemma Tau_step_text (st : @TauBench.State number) (ev : value) :
  (TauBench.fullResponse (TauBench.step st ev),
   TauBench.currentMessage (TauBench.step st ev))
  = Spec.textStep (TauBench.fullResponse st, TauBench.currentMessage st) ev.
Proof.
  unfold TauBench.step, TauBench.handleEvent.
  pose proof (trackToolUsage_text st ev) as [Hf Hc].
  pose proof (trackToolUsage_throw st ev) as Hthrow.
  destruct (TauBench.trackToolUsage ev st) as [[u|e] st']; simpl in *.
  - rewrite Tau_collectText_text, Hf, Hc. reflexivity.
  - rewrite Hf, Hc. symmetry. apply (Hthrow e). reflexivity.
Qed.

(** On the tool list, the Tau-Bench handler appends the tool name of the
    event. *)
Lemma Tau_step_tools (st : @TauBench.State number) (ev : value) :
  TauBench.toolsUsed (TauBench.step st ev)
  = TauBench.toolsUsed st ++ Spec.toolNameOf ev.
Proof.
  unfold TauBench.step, TauBench.handleEvent.
  assert (Ht : TauBench.toolsUsed (snd (TauBench.trackToolUsage ev st))
               = TauBench.toolsUsed st ++ Spec.toolNameOf ev).
  { unfold TauBench.trackToolUsage, Spec.toolNameOf.
    destruct (typeIsAnd ev TOOL_CALL_START (js "toolCallName"))
      as [[|]|e]; simpl; rewrite ?app_nil_r; auto.
    destruct (getProp ev (js "toolCallName")); simpl;
      rewrite ?app_nil_r; reflexivity. }
  destruct (TauBench.trackToolUsage ev st) as [[u|e] st']; simpl in *.
  - rewrite collectText_tools. exact Ht.
  - exact Ht.
Qed.

Lemma spanText_snoc (opened : list value) (ev : value) :
  Spec.spanText (opened ++ [ev]) = Spec.spanText opened ++ Spec.deltaOf ev.
Proof.
  unfold Spec.spanText. rewrite map_app, concat_app. simpl.
  rewrite app_nil_r. reflexivity.
Qed.

(** The span-wise reduction yields the texts of the completed spans, in
    order, and keeps the text of the open span in the buffer. *)
Lemma textStep_spans (events opened : list value) (full : jsstring) :
  fold_left Spec.textStep events (full, Spec.spanText opened)
  = (full ++ concat (map Spec.spanText (Spec.completedSpans opened events)),
     Spec.spanText (Spec.openSpan opened events)).
Proof.
  revert opened full; induction events as [|ev events IH];
    intros opened full; simpl.
  - rewrite app_nil_r. reflexivity.
  - unfold Spec.textStep at 2; simpl.
    destruct (Spec.closesSpan ev).
    + change (@nil code_unit) with (Spec.spanText (@nil value)).
      rewrite IH. simpl. rewrite app_assoc. reflexivity.
    + rewrite <- spanText_snoc. apply IH.
Qed.

Lemma MT_fold_text (events : list value) (st : MTBench.State) :
  (MTBench.fullResponse (MTBench.foldEvents events st),
   MTBench.currentMessage (MTBench.foldEvents events st))
  = fold_left Spec.textStep events
      (MTBench.fullResponse st, MTBench.currentMessage st).
Proof.
  unfold MTBench.foldEvents.
  revert st; induction events as [|ev events IH]; intros st; simpl.
  - reflexivity.
  - rewrite IH, MT_step_text. reflexivity.
Qed.

Lemma Tau_fold_text (events : list value) (st : @TauBench.State number) :
  (TauBench.fullResponse (TauBench.foldEvents events st),
   TauBench.currentMessage (TauBench.foldEvents events st))
  = fold_left Spec.textStep events
      (TauBench.fullResponse st, TauBench.currentMessage st).
Proof.
  unfold TauBench.foldEvents.
  revert st; induction events as [|ev events IH]; intros st; simpl.
  - reflexivity.
  - rewrite IH, Tau_step_text. reflexivity.
Qed.

Lemma Tau_fold_tools (events : list value) (st : @TauBench.State number) :
  TauBench.toolsUsed (TauBench.foldEvents events st)
  = TauBench.toolsUsed st ++ flat_map Spec.toolNameOf events.
Proof.
  unfold TauBench.foldEvents.
  revert st; induction events as [|ev events IH]; intros st; simpl.
  - rewrite app_nil_r. reflexivity.
  - rewrite IH, Tau_step_tools, app_assoc. reflexivity.
Qed.

(** What a successful call returns, in terms of the decoded events. *)
Lemma MT_call_ok (clock : Clock) (status : N) (chunks : list (list byte)) :
  ok {| status := status; body := Some chunks |} = true ->
  MTBench.callOasisAgent clock {| status := status; body := Some chunks |}
  = Return
      {| MTBench.response :=
           MTBench.finalResponse
             (MTBench.addRemaining
                (MTBench.foldEvents
                   (Spec.decodedEvents newTextDecoder chunks)
                   MTBench.initial));
         MTBench.latencyMs := (now clock - startTime clock)%Z |}.
Proof.
  intros Hok. unfold MTBench.callOasisAgent. rewrite Hok. simpl.
  rewrite MT_readLoop_events. reflexivity.
Qed.

Lemma Tau_call_ok (clock : Clock) (status : N) (chunks : list (list byte)) :
  ok {| status := status; body := Some chunks |} = true ->
  TauBench.callOasisAgent clock {| status := status; body := Some chunks |}
  = Return
      {| TauBench.response :=
           TauBench.fullResponse
             (TauBench.foldEvents
                (Spec.decodedEvents newTextDecoder chunks) TauBench.initial);
         TauBench.resultToolsUsed :=
           TauBench.toolsUsed
             (TauBench.foldEvents
                (Spec.decodedEvents newTextDecoder chunks) TauBench.initial);
         TauBench.latencyMs := (now clock - startTime clock)%Z |}.
Proof.
  intros Hok. unfold TauBench.callOasisAgent. rewrite Hok. simpl.
  rewrite Tau_readLoop_events. reflexivity.
Qed.

End Handlers.

(* ================================================================== *)
(** * Scenarios of the specification, run on the reference engine *)
(* ================================================================== *)

(** Two frames, a content event "Hi" and an end event: one text "Hi", and
    a raw-event log of length two. *)
Example scenario_end_to_end :
  Spec.decodedEvents newTextDecoder Examples.twoReads
  = [Examples.evContentHi; Examples.evEnd]
  /\ MTBench.callOasisAgent Examples.clockA
       {| status := 200; body := Some Examples.twoReads |}
     = Return {| MTBench.response := js "Hi"; MTBench.latencyMs := 250 |}
  /\ TauBench.callOasisAgent Examples.clockA
       {| status := 200; body := Some Examples.twoReads |}
     = Return {| TauBench.response := js "Hi";
                 TauBench.resultToolsUsed := [];
                 TauBench.latencyMs := 250 |}
  /\ OllyConnector.trajectory Examples.liveRun = [js "Hi"]
  /\ length (OllyConnector.rawEvents Examples.liveRun) = 2.
Proof. repeat split; vm_compute; reflexivity. Qed.

(** A line that is not JSON between two valid frames: exactly the events of
    the two valid frames, in order. *)
Example scenario_malformed_frame :
  Spec.decodedEvents newTextDecoder Examples.interleavedBody
  = [Examples.evContentHi; Examples.evEnd].
Proof. vm_compute; reflexivity. Qed.

(** An unknown event, then start, content and end. *)
Example scenario_unknown_type :
  TauBench.callOasisAgent Examples.clockA
    {| status := 200;
       body := Some [Examples.unknown ++ Examples.NL
                     ++ Examples.messageStart ++ Examples.NL;
                     Examples.contentHi ++ Examples.NL
                     ++ Examples.messageEnd ++ Examples.NL] |}
  = Return {| TauBench.response := js "Hi";
              TauBench.resultToolsUsed := [];
              TauBench.latencyMs := 250 |}.
Proof. vm_compute; reflexivity. Qed.

(** A delta that is a Number is appended as its decimal text; an event that
    is [null] throws inside the [try] and changes nothing. *)
Example scenario_untyped_events :
  MTBench.callOasisAgent Examples.clockA
    {| status := 200;
       body := Some [Examples.contentNumber ++ Examples.NL
                     ++ Examples.eventNull ++ Examples.NL] |}
  = Return {| MTBench.response := js "42"; MTBench.latencyMs := 250 |}
  /\ TauBench.handleEvent (VNull : value Z) TauBench.initial
     = (Throw TypeError, TauBench.initial).
Proof. split; vm_compute; reflexivity. Qed.

(** Each way of failing to unwrap occurs. *)
Example failure_not_json : Spec.FrameFailure (js "not-json").
Proof. apply Spec.NotJson. reflexivity. Qed.

Example failure_output_missing : Spec.FrameFailure Examples.payloadNoOutput.
Proof.
  eapply Spec.OutputMissingOrMisshapen; [vm_compute; reflexivity|].
  intros elements H. vm_compute in H. discriminate.
Qed.

Example failure_output_misshapen :
  Spec.FrameFailure Examples.payloadOutputNotArray.
Proof.
  eapply Spec.OutputMissingOrMisshapen; [vm_compute; reflexivity|].
  intros elements H. vm_compute in H. discriminate.
Qed.

Example failure_no_response : Spec.FrameFailure Examples.payloadNoResponse.
Proof.
  eapply Spec.NoResponseElement;
    [vm_compute; reflexivity | vm_compute; reflexivity |].
  intros o [<- | []] H. vm_compute in H. discriminate.
Qed.

Example failure_content_absent : Spec.FrameFailure Examples.payloadNoContent.
Proof.
  eapply Spec.ContentAbsent.
  - vm_compute; reflexivity.
  - vm_compute; reflexivity.
  - vm_compute; reflexivity.
  - vm_compute; reflexivity.
Qed.

Example failure_content_not_json :
  Spec.FrameFailure Examples.payloadBadContent.
Proof.
  eapply Spec.ContentNotJson.
  - vm_compute; reflexivity.
  - vm_compute; reflexivity.
  - vm_compute; reflexivity.
  - vm_compute; reflexivity.
  - vm_compute; reflexivity.
Qed.

(* ================================================================== *)
(** * The connector: live run and replay *)
(* ================================================================== *)

Section Replay.
Context {AGUIEvent TrajectoryStep Converter : Type}
        {converterClass :
           OllyConnector.AGUIToTrajectoryConverter
             AGUIEvent TrajectoryStep Converter}.

Lemma push_each (steps trajectory : list TrajectoryStep) :
  fold_left (fun t step => t ++ [step]) steps trajectory = trajectory ++ steps.
Proof.
  revert trajectory; induction steps as [|x steps IH]; intros t; simpl.
  - rewrite app_nil_r; reflexivity.
  - rewrite IH, <- app_assoc. reflexivity.
Qed.

(** The callback logs every event, in order. *)
Lemma live_rawEvents (stream : list AGUIEvent) (l : OllyConnector.Locals) :
  OllyConnector.localRawEvents (fold_left OllyConnector.onEvent stream l)
  = OllyConnector.localRawEvents l ++ stream.
Proof.
  revert l; induction stream as [|event stream IH]; intros l; simpl.
  - rewrite app_nil_r; reflexivity.
  - rewrite IH. unfold OllyConnector.onEvent at 1.
    destruct (OllyConnector.processEvent (OllyConnector.converter l) event).
    simpl. rewrite <- app_assoc. reflexivity.
Qed.

(** The callback drives the converter exactly as the replay fold does. *)
Lemma live_trajectory (stream : list AGUIEvent) (l : OllyConnector.Locals) :
  OllyConnector.localTrajectory (fold_left OllyConnector.onEvent stream l)
  = fst (fold_left
           (fun acc event =>
              let (steps, converter) :=
                OllyConnector.processEvent (snd acc) event in
              (fst acc ++ steps, converter))
           stream
           (OllyConnector.localTrajectory l, OllyConnector.converter l)).
Proof.
  revert l; induction stream as [|event stream IH]; intros l; simpl.
  - reflexivity.
  - rewrite IH.
    assert (Hstep :
      OllyConnector.onEvent l event
      = {| OllyConnector.localTrajectory :=
             OllyConnector.localTrajectory l
             ++ fst (OllyConnector.processEvent
                       (OllyConnector.converter l) event);
           OllyConnector.localRawEvents :=
             OllyConnector.localRawEvents l ++ [event];
           OllyConnector.converter :=
             snd (OllyConnector.processEvent
                    (OllyConnector.converter l) event) |}).
    { unfold OllyConnector.onEvent.
      destruct (OllyConnector.processEvent (OllyConnector.converter l) event).
      rewrite push_each. reflexivity. }
    rewrite Hstep; simpl.
    destruct (OllyConnector.processEvent (OllyConnector.converter l) event);
      reflexivity.
Qed.

Lemma replay_live (stream : list AGUIEvent) :
  OllyConnector.parseResponse
    (OllyConnector.rawEvents (OllyConnector.execute stream))
  = OllyConnector.trajectory (OllyConnector.execute stream).
Proof.
  unfold OllyConnector.execute, OllyConnector.parseResponse,
    OllyConnector.computeTrajectoryFromRawEvents,
    OllyConnector.consumeSSEStream; simpl.
  rewrite live_rawEvents, live_trajectory. reflexivity.
Qed.

End Replay.

(* ================================================================== *)
(** * The claims *)
(* ================================================================== *)

(** C1.  The fold is deterministic.  Two runs of the Tau-Bench call that
    decode the same sequence of AG-UI events return the same response text
    and the same tool list, whatever the clock readings, the success status
    and the chunking of the two runs; and replaying the raw events captured
    by a live run of the connector through a fresh converter gives exactly
    the trajectory of the live run. *)
Theorem C1_fold_deterministic
    {number : Type} {engine : Engine number}
    (clock1 clock2 : Clock) (status1 status2 : N)
    (chunks1 chunks2 : list (list byte))
    (result1 result2 : @TauBench.Result number)
    {AGUIEvent TrajectoryStep Converter : Type}
    {converterClass :
       OllyConnector.AGUIToTrajectoryConverter
         AGUIEvent TrajectoryStep Converter}
    (stream : list AGUIEvent) :
  Spec.decodedEvents newTextDecoder chunks1
  = Spec.decodedEvents newTextDecoder chunks2 ->
  TauBench.callOasisAgent clock1 {| status := status1; body := Some chunks1 |}
  = Return result1 ->
  TauBench.callOasisAgent clock2 {| status := status2; body := Some chunks2 |}
  = Return result2 ->
  TauBench.response result1 = TauBench.response result2
  /\ TauBench.resultToolsUsed result1 = TauBench.resultToolsUsed result2
  /\ OllyConnector.parseResponse
       (OllyConnector.rawEvents (OllyConnector.execute stream))
     = OllyConnector.trajectory (OllyConnector.execute stream).
Proof.
  intros Hevents H1 H2.
  assert (Hok : forall clock status chunks (result : @TauBench.Result number),
             TauBench.callOasisAgent clock
               {| status := status; body := Some chunks |} = Return result ->
             ok {| status := status; body := Some chunks |} = true).
  { intros clock status chunks result H.
    unfold TauBench.callOasisAgent in H.
    destruct (ok {| status := status; body := Some chunks |});
      [reflexivity | discriminate]. }
  rewrite (Tau_call_ok clock1 status1 chunks1 (Hok _ _ _ _ H1)) in H1.
  rewrite (Tau_call_ok clock2 status2 chunks2 (Hok _ _ _ _ H2)) in H2.
  injection H1 as <-. injection H2 as <-. simpl.
  rewrite Hevents. repeat split. apply replay_live.
Qed.

Lemma C1_witness :
  TauBench.response Examples.resultA = TauBench.response Examples.resultB
  /\ TauBench.resultToolsUsed Examples.resultA
     = TauBench.resultToolsUsed Examples.resultB
  /\ Examples.replayed = OllyConnector.trajectory Examples.liveRun.
Proof.
  apply (C1_fold_deterministic (engine := Reference.engine)
           Examples.clockA Examples.clockB 200 201
           [Examples.contentHi ++ Examples.NL;
            Examples.toolStart ++ Examples.NL;
            Examples.messageEnd ++ Examples.NL]
           [Examples.contentHi ++ Examples.NL ++ Examples.toolStart
            ++ Examples.NL ++ Examples.messageEnd ++ Examples.NL]
           Examples.resultA Examples.resultB
           (converterClass := Examples.textConverter)
           Examples.capturedEvents);
    vm_compute; reflexivity.
Defined.

(* ------------------------------------------------------------------ *)

Section TextSpans.
Context {number : Type} {engine : Engine number}.
Local Abbreviation value := (value number).

Lemma deltaOf_string (ev : value) (d : jsstring) :
  typeIs ev TEXT_MESSAGE_CONTENT = Return true ->
  getProp ev (js "delta") = Return (VStr d) ->
  Spec.deltaOf ev = d.
Proof.
  intros Hty Hd. unfold Spec.deltaOf, typeIsAnd.
  rewrite Hty; simpl. rewrite Hd; simpl.
  destruct d; reflexivity.
Qed.

Lemma addRemaining_app (st : MTBench.State) :
  MTBench.addRemaining (engine := engine) st
  = MTBench.fullResponse st ++ MTBench.currentMessage st.
Proof.
  unfold MTBench.addRemaining; simpl.
  destruct (MTBench.currentMessage st); simpl;
    rewrite ?app_nil_r; reflexivity.
Qed.

(** Events that close no span only extend the buffer. *)
Lemma textStep_open_tail (tail : list value) (full current : jsstring) :
  (forall e, In e tail -> Spec.closesSpan e = false) ->
  fold_left Spec.textStep tail (full, current)
  = (full, current ++ Spec.spanText tail).
Proof.
  revert current; induction tail as [|e tail IH]; intros current Hopen; simpl.
  - rewrite app_nil_r; reflexivity.
  - unfold Spec.textStep at 2. rewrite (Hopen e (or_introl eq_refl)). simpl.
    rewrite IH by (intros; apply Hopen; right; assumption).
    unfold Spec.spanText; simpl. rewrite app_assoc. reflexivity.
Qed.

Lemma MT_text_of_events (events : list value) :
  MTBench.addRemaining (engine := engine)
    (MTBench.foldEvents events MTBench.initial)
  = concat (map Spec.spanText (Spec.completedSpans [] events))
    ++ Spec.spanText (Spec.openSpan [] events).
Proof.
  rewrite addRemaining_app.
  pose proof (MT_fold_text events MTBench.initial) as H.
  change (MTBench.fullResponse MTBench.initial, MTBench.currentMessage MTBench.initial)
    with (@nil code_unit, Spec.spanText (@nil value)) in H.
  rewrite textStep_spans in H. injection H as -> ->. reflexivity.
Qed.

Lemma Tau_text_of_events (events : list value) :
  TauBench.fullResponse (TauBench.foldEvents events TauBench.initial)
  = concat (map Spec.spanText (Spec.completedSpans [] events)).
Proof.
  pose proof (Tau_fold_text events TauBench.initial) as H.
  change (TauBench.fullResponse TauBench.initial,
          TauBench.currentMessage TauBench.initial)
    with (@nil code_unit, Spec.spanText (@nil value)) in H.
  rewrite textStep_spans in H. injection H as -> _. reflexivity.
Qed.

End TextSpans.

(** C2 (amended).  The text of a completed span is the exact concatenation,
    in arrival order, of the delta fragments accumulated before its
    TEXT_MESSAGE_END, a string delta being its own fragment.  The Tau-Bench
    call returns the in-order concatenation of the texts of the completed
    spans; the MT-Bench call returns that concatenation followed by the text
    of the span left open, passed through [trim] and the empty-text
    default. *)
Theorem C2_span_text_is_concatenation
    {number : Type} {engine : Engine number}
    (clock : Clock) (status : N) (chunks : list (list byte)) :
  ok {| status := status; body := Some chunks |} = true ->
  (forall (ev : value number) (d : jsstring),
      typeIs ev TEXT_MESSAGE_CONTENT = Return true ->
      getProp ev (js "delta") = Return (VStr d) ->
      Spec.deltaOf ev = d)
  /\ (exists result,
        TauBench.callOasisAgent clock
          {| status := status; body := Some chunks |} = Return result
        /\ TauBench.response result
           = concat (map (fun span => concat (map Spec.deltaOf span))
                       (Spec.completedSpans []
                          (Spec.decodedEvents newTextDecoder chunks))))
  /\ (exists result,
        MTBench.callOasisAgent clock
          {| status := status; body := Some chunks |} = Return result
        /\ MTBench.response result
           = MTBench.finalResponse
               (concat (map (fun span => concat (map Spec.deltaOf span))
                          (Spec.completedSpans []
                             (Spec.decodedEvents newTextDecoder chunks)))
                ++ concat (map Spec.deltaOf
                             (Spec.openSpan []
                                (Spec.decodedEvents newTextDecoder chunks))))).
Proof.
  intros Hok. split; [exact deltaOf_string|]. split.
  - eexists. split; [apply Tau_call_ok; exact Hok|]. simpl.
    apply Tau_text_of_events.
  - eexists. split; [apply MT_call_ok; exact Hok|]. simpl.
    rewrite MT_text_of_events. reflexivity.
Qed.

Lemma C2_witness :
  (forall (ev : value Z) (d : jsstring),
      typeIs ev TEXT_MESSAGE_CONTENT = Return true ->
      getProp ev (js "delta") = Return (VStr d) ->
      Spec.deltaOf ev = d)
  /\ (exists result,
        TauBench.callOasisAgent Examples.clockA
          {| status := 200; body := Some Examples.twoReads |} = Return result
        /\ TauBench.response result
           = concat (map (fun span => concat (map Spec.deltaOf span))
                       (Spec.completedSpans []
                          (Spec.decodedEvents newTextDecoder
                             Examples.twoReads))))
  /\ (exists result,
        MTBench.callOasisAgent Examples.clockA
          {| status := 200; body := Some Examples.twoReads |} = Return result
        /\ MTBench.response result
           = MTBench.finalResponse
               (concat (map (fun span => concat (map Spec.deltaOf span))
                          (Spec.completedSpans []
                             (Spec.decodedEvents newTextDecoder
                                Examples.twoReads)))
                ++ concat (map Spec.deltaOf
                             (Spec.openSpan []
                                (Spec.decodedEvents newTextDecoder
                                   Examples.twoReads))))).
Proof.
  apply (C2_span_text_is_concatenation (engine := Reference.engine)
           Examples.clockA 200 Examples.twoReads).
  reflexivity.
Defined.

(** The MT-Bench call trims: a completed span whose text is " Hi " yields the
    response "Hi", not the concatenation of the span texts. *)
Lemma C2_counterexample :
  exists result,
    MTBench.callOasisAgent Examples.clockA
      {| status := 200; body := Some Examples.paddedBody |} = Return result
    /\ concat (map Spec.spanText
                 (Spec.completedSpans []
                    (Spec.decodedEvents newTextDecoder Examples.paddedBody)))
       = js " Hi "
    /\ MTBench.response result = js "Hi"
    /\ MTBench.response result
       <> concat (map Spec.spanText
                    (Spec.completedSpans []
                       (Spec.decodedEvents newTextDecoder
                          Examples.paddedBody))).
Proof.
  eexists. split; [vm_compute; reflexivity|].
  split; [vm_compute; reflexivity|].
  split; [vm_compute; reflexivity|].
  vm_compute. discriminate.
Qed.

(* ------------------------------------------------------------------ *)

Section Chunking.
Context {number : Type} {engine : Engine number}.
Local Abbreviation value := (value number).

Lemma snoc_each (events acc : list value) :
  fold_left (fun a e => a ++ [e]) events acc = acc ++ events.
Proof.
  revert acc; induction events as [|e events IH]; intros acc; simpl.
  - rewrite app_nil_r; reflexivity.
  - rewrite IH, <- app_assoc. reflexivity.
Qed.

(** The decoded events are what the read loop gathers with the collecting
    line handler. *)
Lemma decodedEvents_loop (chunks : list (list byte)) (td : TextDecoder) :
  Spec.decodedEvents td chunks
  = snd (fold_left (Spec.processChunkWith Spec.collectLine) chunks (td, [])).
Proof.
  rewrite (readLoop_events Spec.collectLine (fun a e => a ++ [e])).
  - rewrite snoc_each. reflexivity.
  - intros st line. unfold Spec.collectLine. rewrite snoc_each. reflexivity.
Qed.

Lemma decodedEvents_aligned (chunks : list (list byte)) :
  Spec.boundariesAtLineEnds chunks = true ->
  Spec.decodedEvents newTextDecoder chunks
  = Spec.decodedEvents newTextDecoder [concat chunks].
Proof.
  intros H. rewrite !decodedEvents_loop.
  rewrite (readLoop_aligned Spec.collectLine); [reflexivity | | | exact H].
  - intros st. unfold Spec.collectLine. apply app_nil_r.
  - unfold expectsContinuation; simpl; lia.
Qed.

End Chunking.

(** C3 (amended).  The decoded events and the results of both calls are
    independent of the chunking as long as every chunk boundary falls just
    after a line feed: two bodies with the same bytes, in each of which every
    chunk but the last ends with a line feed, decode to the same events and
    make each call complete in the same way. *)
Theorem C3_chunking_at_line_ends
    {number : Type} {engine : Engine number}
    (clock : Clock) (status : N) (chunks1 chunks2 : list (list byte)) :
  Spec.boundariesAtLineEnds chunks1 = true ->
  Spec.boundariesAtLineEnds chunks2 = true ->
  concat chunks1 = concat chunks2 ->
  Spec.decodedEvents newTextDecoder chunks1
  = Spec.decodedEvents newTextDecoder chunks2
  /\ TauBench.callOasisAgent clock {| status := status; body := Some chunks1 |}
     = TauBench.callOasisAgent clock {| status := status; body := Some chunks2 |}
  /\ MTBench.callOasisAgent clock {| status := status; body := Some chunks1 |}
     = MTBench.callOasisAgent clock {| status := status; body := Some chunks2 |}.
Proof.
  intros H1 H2 Hbytes. repeat split.
  - rewrite (decodedEvents_aligned chunks1 H1),
      (decodedEvents_aligned chunks2 H2), Hbytes. reflexivity.
  - unfold TauBench.callOasisAgent; simpl.
    rewrite (Tau_readLoop_aligned chunks1 H1),
      (Tau_readLoop_aligned chunks2 H2), Hbytes. reflexivity.
  - unfold MTBench.callOasisAgent, text; simpl.
    rewrite (MT_readLoop_aligned chunks1 H1),
      (MT_readLoop_aligned chunks2 H2), Hbytes. reflexivity.
Qed.

Lemma C3_witness :
  Spec.decodedEvents newTextDecoder Examples.twoReads
  = Spec.decodedEvents newTextDecoder Examples.wholeBody
  /\ TauBench.callOasisAgent Examples.clockA
       {| status := 200; body := Some Examples.twoReads |}
     = TauBench.callOasisAgent Examples.clockA
         {| status := 200; body := Some Examples.wholeBody |}
  /\ MTBench.callOasisAgent Examples.clockA
       {| status := 200; body := Some Examples.twoReads |}
     = MTBench.callOasisAgent Examples.clockA
         {| status := 200; body := Some Examples.wholeBody |}.
Proof.
  apply (C3_chunking_at_line_ends (engine := Reference.engine)
           Examples.clockA 200 Examples.twoReads Examples.wholeBody);
    vm_compute; reflexivity.
Defined.

(** Nothing carries an unfinished line over to the next read: the same bytes,
    with the first frame split across two chunks, lose that frame's event. *)
Lemma C3_counterexample :
  concat Examples.wholeBody = concat Examples.splitBody
  /\ Spec.decodedEvents newTextDecoder Examples.wholeBody
     = [Examples.evContentHi; Examples.evEnd]
  /\ Spec.decodedEvents newTextDecoder Examples.splitBody = [Examples.evEnd]
  /\ TauBench.callOasisAgent Examples.clockA
       {| status := 200; body := Some Examples.wholeBody |}
     = Return {| TauBench.response := js "Hi";
                 TauBench.resultToolsUsed := [];
                 TauBench.latencyMs := 250 |}
  /\ TauBench.callOasisAgent Examples.clockA
       {| status := 200; body := Some Examples.splitBody |}
     = Return {| TauBench.response := [];
                 TauBench.resultToolsUsed := [];
                 TauBench.latencyMs := 250 |}
  /\ TauBench.callOasisAgent Examples.clockA
       {| status := 200; body := Some Examples.wholeBody |}
     <> TauBench.callOasisAgent Examples.clockA
          {| status := 200; body := Some Examples.splitBody |}.
Proof.
  repeat split; try (vm_compute; reflexivity).
  vm_compute. discriminate.
Qed.

(* ------------------------------------------------------------------ *)

(** C4 (amended).  When the stream ends while a span is still open (the
    decoded events end in a tail without TEXT_MESSAGE_END), the Tau-Bench
    call discards the content of that tail: its response is what the events
    before the tail produce.  The MT-Bench call adds the remaining message:
    the content of the tail is appended to the accumulated text before
    [trim] and the empty-text default. *)
Theorem C4_open_span_at_end_of_stream
    {number : Type} {engine : Engine number}
    (clock : Clock) (status : N) (chunks : list (list byte))
    (closed tail : list (value number)) :
  ok {| status := status; body := Some chunks |} = true ->
  Spec.decodedEvents newTextDecoder chunks = closed ++ tail ->
  (forall e, In e tail -> Spec.closesSpan e = false) ->
  (exists result,
      TauBench.callOasisAgent clock
        {| status := status; body := Some chunks |} = Return result
      /\ TauBench.response result
         = TauBench.fullResponse (TauBench.foldEvents closed TauBench.initial))
  /\ (exists result,
        MTBench.callOasisAgent clock
          {| status := status; body := Some chunks |} = Return result
        /\ MTBench.response result
           = MTBench.finalResponse
               (MTBench.fullResponse
                  (MTBench.foldEvents closed MTBench.initial)
                ++ MTBench.currentMessage
                     (MTBench.foldEvents closed MTBench.initial)
                ++ concat (map Spec.deltaOf tail))).
Proof.
  intros Hok Hevents Hopen. split.
  - eexists. split; [apply Tau_call_ok; exact Hok|]. simpl.
    rewrite Hevents.
    pose proof (Tau_fold_text (closed ++ tail) TauBench.initial) as H.
    rewrite fold_left_app, <- Tau_fold_text in H.
    rewrite textStep_open_tail in H by exact Hopen.
    injection H as -> _. reflexivity.
  - eexists. split; [apply MT_call_ok; exact Hok|]. simpl.
    rewrite Hevents, addRemaining_app.
    pose proof (MT_fold_text (closed ++ tail) MTBench.initial) as H.
    rewrite fold_left_app, <- MT_fold_text in H.
    rewrite textStep_open_tail in H by exact Hopen.
    injection H as -> ->. reflexivity.
Qed.

Lemma C4_witness :
  (exists result,
      TauBench.callOasisAgent Examples.clockA
        {| status := 200; body := Some Examples.openBody |} = Return result
      /\ TauBench.response result
         = TauBench.fullResponse (TauBench.foldEvents [] TauBench.initial))
  /\ (exists result,
        MTBench.callOasisAgent Examples.clockA
          {| status := 200; body := Some Examples.openBody |} = Return result
        /\ MTBench.response result
           = MTBench.finalResponse
               (MTBench.fullResponse (MTBench.foldEvents [] MTBench.initial)
                ++ MTBench.currentMessage
                     (MTBench.foldEvents [] MTBench.initial)
                ++ concat (map Spec.deltaOf [Examples.evContentHi]))).
Proof.
  apply (C4_open_span_at_end_of_stream (engine := Reference.engine)
           Examples.clockA 200 Examples.openBody [] [Examples.evContentHi]).
  - reflexivity.
  - vm_compute; reflexivity.
  - intros e [<- | []]. reflexivity.
Defined.

(** The MT-Bench call flushes: a stream that ends after a content event,
    without TEXT_MESSAGE_END, returns that content. *)
Lemma C4_counterexample :
  Spec.decodedEvents newTextDecoder Examples.openBody = [Examples.evContentHi]
  /\ Spec.completedSpans [] [Examples.evContentHi] = []
  /\ MTBench.callOasisAgent Examples.clockA
       {| status := 200; body := Some Examples.openBody |}
     = Return {| MTBench.response := js "Hi"; MTBench.latencyMs := 250 |}
  /\ MTBench.callOasisAgent Examples.clockA
       {| status := 200; body := Some Examples.openBody |}
     <> MTBench.callOasisAgent Examples.clockA
          {| status := 200; body := Some [] |}.
Proof.
  repeat split; try (vm_compute; reflexivity).
  vm_compute. discriminate.
Qed.

(* ------------------------------------------------------------------ *)

Section Frames.
Context {number : Type} {engine : Engine number}.
Local Abbreviation value := (value number).

(** Once the guard [data.inference_results?.[0]?.output] is truthy, the plain
    chain reads the same value. *)
Lemma outputGuard_outputsOf (data v : value) :
  outputGuard data = Return v -> ToBoolean v = true ->
  outputsOf data = Return v.
Proof.
  unfold outputGuard, outputsOf, optional.
  destruct (getProp data (js "inference_results")) as [results|e]; simpl;
    [|discriminate].
  destruct (isNullish results).
  { intros [= <-]; discriminate. }
  destruct (getIndex0 results) as [first|e]; simpl; [|discriminate].
  destruct (isNullish first).
  { intros [= <-]; discriminate. }
  auto.
Qed.

Lemma contentGuard_contentOf (responseOutput c : value) :
  contentGuard responseOutput = Return c -> ToBoolean c = true ->
  contentOf responseOutput = Return c.
Proof.
  unfold contentGuard, contentOf, optional.
  destruct (isNullish responseOutput).
  { intros [= <-]; discriminate. }
  destruct (getProp responseOutput (js "dataAsMap")) as [dataAsMap|e]; simpl;
    [|discriminate].
  destruct (isNullish dataAsMap).
  { intros [= <-]; discriminate. }
  auto.
Qed.

Lemma findFirst_no_response (outputs : list value) :
  (forall o, In o outputs ->
             getProp o (js "name") <> Return (VStr (js "response"))) ->
  findFirst isResponse outputs = Return VUndefined
  \/ exists e, findFirst isResponse outputs = Throw e.
Proof.
  induction outputs as [|o outputs IH]; intros Hnone; simpl.
  - left; reflexivity.
  - pose proof (Hnone o (or_introl eq_refl)) as Ho.
    destruct (isResponse o) as [hit|e] eqn:Hr; simpl; [|right; eauto].
    destruct hit.
    + exfalso. unfold isResponse in Hr.
      destruct (getProp o (js "name")) as [name|e]; simpl in Hr;
        [|discriminate].
      injection Hr as Hname.
      apply strictEqualsString_true in Hname; subst name. contradiction.
    + apply IH. intros o' Hin. apply Hnone. right; assumption.
Qed.

Lemma JSON_parse_string (payload : jsstring) :
  JSON_parse (VStr payload)
  = match JSON_parse_text payload with
    | Some data => Return data
    | None => Throw SyntaxError
    end.
Proof. reflexivity. Qed.

(** A frame that fails to unwrap yields no event: the [try] block either
    skips its [if]s or throws before the event-handling statements. *)
Lemma FrameFailure_no_event (payload : jsstring) :
  Spec.FrameFailure payload ->
  unwrapEvent payload = Return None
  \/ exists e, unwrapEvent payload = Throw e.
Proof.
  intros [Hparse
         | data Hparse Hshape
         | data outputs Hparse Hguard Hnone
         | data outputs responseOutput Hparse Hguard Hfind Habsent
         | data outputs responseOutput content e Hparse Hguard Hfind Hcontent
             Hbad];
    unfold unwrapEvent; rewrite JSON_parse_string, Hparse; simpl.
  - right; eauto.
  - destruct (outputGuard data) as [v|e] eqn:Hguard; simpl; [|right; eauto].
    destruct (ToBoolean v) eqn:Htruthy; [|left; reflexivity].
    rewrite (outputGuard_outputsOf data v Hguard Htruthy); simpl.
    destruct v; simpl; try (right; eauto; fail).
    exfalso. exact (Hshape elements eq_refl).
  - rewrite Hguard; simpl.
    rewrite (outputGuard_outputsOf data _ Hguard eq_refl); simpl.
    destruct (findFirst_no_response outputs Hnone) as [-> | [e ->]]; simpl;
      [left; reflexivity | right; eauto].
  - rewrite Hguard; simpl.
    rewrite (outputGuard_outputsOf data _ Hguard eq_refl); simpl.
    rewrite Hfind; simpl. rewrite Habsent; simpl. left; reflexivity.
  - rewrite Hguard; simpl.
    rewrite (outputGuard_outputsOf data _ Hguard eq_refl); simpl.
    rewrite Hfind; simpl. rewrite Hcontent; simpl.
    destruct (ToBoolean content) eqn:Htruthy; [|left; reflexivity].
    rewrite (contentGuard_contentOf responseOutput content Hcontent Htruthy).
    simpl. rewrite Hbad; simpl. right; eauto.
Qed.

Lemma data_line (payload : jsstring) :
  startsWith (js "data: " ++ payload) (js "data: ") = true
  /\ slice 6 (js "data: " ++ payload) = payload.
Proof. split; vm_compute; reflexivity. Qed.

Lemma FrameFailure_lineEvents (payload : jsstring) :
  Spec.FrameFailure payload ->
  Spec.lineEvents (js "data: " ++ payload) = [].
Proof.
  intros H. unfold Spec.lineEvents.
  destruct (data_line payload) as [-> ->].
  destruct (FrameFailure_no_event payload H) as [-> | [e ->]]; reflexivity.
Qed.

End Frames.

(** C5.  A frame that fails at any unwrapping step (the text after the
    prefix is not JSON, the output is missing or not an array, no element is
    named response, the content is absent, or the content is not JSON)
    produces no event and changes no accumulator, and the lines around it
    are processed as if it were not there.  The per-line handler is a total
    function of the accumulators: nothing it throws escapes the [try]. *)
Theorem C5_failing_frame_is_skipped
    {number : Type} {engine : Engine number}
    (payload : jsstring) (before after : list jsstring) :
  Spec.FrameFailure payload ->
  Spec.lineEvents (js "data: " ++ payload) = []
  /\ (forall st, snd (MTBench.tryFrame payload st) = st)
  /\ (forall st : @TauBench.State number,
         snd (TauBench.tryFrame payload st) = st)
  /\ (forall st,
         fold_left MTBench.processLine
           (before ++ (js "data: " ++ payload) :: after) st
         = fold_left MTBench.processLine (before ++ after) st)
  /\ (forall st : @TauBench.State number,
         fold_left TauBench.processLine
           (before ++ (js "data: " ++ payload) :: after) st
         = fold_left TauBench.processLine (before ++ after) st).
Proof.
  intros Hfail.
  pose proof (FrameFailure_lineEvents payload Hfail) as Hnone.
  pose proof (FrameFailure_no_event payload Hfail) as Hunwrap.
  split; [exact Hnone|].
  split; [|split; [|split]].
  - intros st. unfold MTBench.tryFrame.
    destruct Hunwrap as [-> | [e ->]]; reflexivity.
  - intros st. unfold TauBench.tryFrame.
    destruct Hunwrap as [-> | [e ->]]; reflexivity.
  - intros st. rewrite !fold_left_app. simpl.
    rewrite (MT_processLine_events _ (js "data: " ++ payload)), Hnone.
    reflexivity.
  - intros st. rewrite !fold_left_app. simpl.
    rewrite (Tau_processLine_events _ (js "data: " ++ payload)), Hnone.
    reflexivity.
Qed.

Lemma C5_witness :
  Spec.lineEvents (js "data: " ++ js "not-json") = []
  /\ (forall st, snd (MTBench.tryFrame (js "not-json") st) = st)
  /\ (forall st : @TauBench.State Z,
         snd (TauBench.tryFrame (js "not-json") st) = st)
  /\ (forall st,
         fold_left MTBench.processLine
           ([js "data: 1"] ++ (js "data: " ++ js "not-json") :: [js "x"]) st
         = fold_left MTBench.processLine ([js "data: 1"] ++ [js "x"]) st)
  /\ (forall st : @TauBench.State Z,
         fold_left TauBench.processLine
           ([js "data: 1"] ++ (js "data: " ++ js "not-json") :: [js "x"]) st
         = fold_left TauBench.processLine ([js "data: 1"] ++ [js "x"]) st).
Proof.
  apply (C5_failing_frame_is_skipped (engine := Reference.engine)
           (js "not-json") [js "data: 1"] [js "x"]).
  apply Spec.NotJson. reflexivity.
Defined.

(* ------------------------------------------------------------------ *)

(** C6.  A decoded event whose type is none of the literals the scripts
    test completes normally, leaves every accumulator as it was, and the
    events after it are processed as if it were absent. *)
Theorem C6_unrecognised_type_is_ignored
    {number : Type} {engine : Engine number}
    (ev ty : value number) :
  getProp ev (js "type") = Return ty ->
  strictEqualsString ty TOOL_CALL_START = false ->
  strictEqualsString ty TEXT_MESSAGE_CONTENT = false ->
  strictEqualsString ty TEXT_MESSAGE_END = false ->
  (forall st, TauBench.handleEvent ev st = (Return tt, st))
  /\ (forall st, MTBench.collectText ev st = (Return tt, st))
  /\ (forall before after st,
         TauBench.foldEvents (before ++ ev :: after) st
         = TauBench.foldEvents (before ++ after) st)
  /\ (forall before after st,
         MTBench.foldEvents (before ++ ev :: after) st
         = MTBench.foldEvents (before ++ after) st).
Proof.
  intros Htype Htool Hcontent Hend.
  assert (HT : forall st, TauBench.handleEvent ev st = (Return tt, st)).
  { intros st.
    unfold TauBench.handleEvent, TauBench.trackToolUsage,
      TauBench.collectText, typeIsAnd, typeIs.
    rewrite Htype; simpl. rewrite Htool; simpl.
    rewrite Hcontent; simpl. rewrite Hend; reflexivity. }
  assert (HM : forall st, MTBench.collectText ev st = (Return tt, st)).
  { intros st. unfold MTBench.collectText, typeIsAnd, typeIs.
    rewrite Htype; simpl. rewrite Hcontent; simpl.
    rewrite Hend; reflexivity. }
  repeat split; auto.
  - intros before after st. unfold TauBench.foldEvents.
    rewrite !fold_left_app. simpl. unfold TauBench.step at 2.
    rewrite HT. reflexivity.
  - intros before after st. unfold MTBench.foldEvents.
    rewrite !fold_left_app. simpl. unfold MTBench.step at 2.
    rewrite HM. reflexivity.
Qed.

Lemma C6_witness :
  (forall st, TauBench.handleEvent Examples.evUnknown st = (Return tt, st))
  /\ (forall st, MTBench.collectText Examples.evUnknown st = (Return tt, st))
  /\ (forall before after st,
         TauBench.foldEvents (before ++ Examples.evUnknown :: after) st
         = TauBench.foldEvents (before ++ after) st)
  /\ (forall before after st,
         MTBench.foldEvents (before ++ Examples.evUnknown :: after) st
         = MTBench.foldEvents (before ++ after) st).
Proof.
  apply (C6_unrecognised_type_is_ignored (engine := Reference.engine)
           Examples.evUnknown (VStr (js "SOMETHING_UNKNOWN")));
    reflexivity.
Defined.

(* ------------------------------------------------------------------ *)

(** C7.  A response with a non-success status, or without a body, makes the
    call throw its set-up error and return nothing; a response with a
    success status and a body makes the call return a result, whatever the
    bytes of the body are. *)
Theorem C7_only_setup_failures_throw
    {number : Type} {engine : Engine number}
    (clock : Clock) (response : Response) :
  (ok response = false \/ body response = None ->
   TauBench.callOasisAgent (number := number) clock response
   = Throw (Error (js "Agent request failed: " ++ decimal (status response)))
   /\ MTBench.callOasisAgent (number := number) clock response
      = Throw (Error
                 (if ok response then js "No response body"
                  else js "Agent error: " ++ decimal (status response)
                       ++ js " - "
                       ++ text (match body response with
                                | Some chunks => chunks
                                | None => []
                                end))))
  /\ (forall chunks,
         ok response = true -> body response = Some chunks ->
         (exists result : @TauBench.Result number,
             TauBench.callOasisAgent clock response = Return result)
         /\ (exists result,
               MTBench.callOasisAgent (number := number) clock response
               = Return result)).
Proof.
  split.
  - intros Hsetup. unfold TauBench.callOasisAgent, MTBench.callOasisAgent.
    destruct (ok response); simpl.
    + destruct Hsetup as [Hok | Hbody]; [discriminate|].
      rewrite Hbody. split; reflexivity.
    + split; reflexivity.
  - intros chunks Hok Hbody.
    unfold TauBench.callOasisAgent, MTBench.callOasisAgent.
    rewrite Hok, Hbody; simpl. split; eauto.
Qed.

Lemma C7_witness :
  (TauBench.callOasisAgent (number := Z) Examples.clockA
     {| status := 503; body := Some [Examples.quoted "busy"] |}
   = Throw (Error (js "Agent request failed: 503"))
   /\ MTBench.callOasisAgent (number := Z) Examples.clockA
        {| status := 503; body := Some [Examples.quoted "busy"] |}
      = Throw (Error (js "Agent error: 503 - busy")))
  /\ ((exists result : @TauBench.Result Z,
          TauBench.callOasisAgent Examples.clockA
            {| status := 200; body := Some Examples.interleavedBody |}
          = Return result)
      /\ (exists result,
            MTBench.callOasisAgent (number := Z) Examples.clockA
              {| status := 200; body := Some Examples.interleavedBody |}
            = Return result)).
Proof.
  split.
  - apply (proj1 (C7_only_setup_failures_throw (engine := Reference.engine)
                    Examples.clockA
                    {| status := 503;
                       body := Some [Examples.quoted "busy"] |})).
    left. reflexivity.
  - apply (proj2 (C7_only_setup_failures_throw (engine := Reference.engine)
                    Examples.clockA
                    {| status := 200; body := Some Examples.interleavedBody |})
             Examples.interleavedBody); reflexivity.
Defined.

(* ------------------------------------------------------------------ *)

(** C8.  In the Tau-Bench call a TOOL_CALL_START event that carries a
    toolCallName appends that name to the tool list when it is processed; one
    without a name appends nothing; tool-call end and args events leave the
    list as it is; so the list returned is the names of the start events, in
    arrival order. *)
Theorem C8_tool_names_are_appended_at_start
    {number : Type} {engine : Engine number} :
  (forall (ev name : value number) st,
      typeIs ev TOOL_CALL_START = Return true ->
      getProp ev (js "toolCallName") = Return name ->
      ToBoolean name = true ->
      TauBench.toolsUsed (TauBench.step st ev)
      = TauBench.toolsUsed st ++ [name])
  /\ (forall (ev name : value number) st,
         typeIs ev TOOL_CALL_START = Return true ->
         getProp ev (js "toolCallName") = Return name ->
         ToBoolean name = false ->
         TauBench.toolsUsed (TauBench.step st ev) = TauBench.toolsUsed st)
  /\ (forall (ev : value number) st,
         typeIs ev TOOL_CALL_END = Return true
         \/ typeIs ev TOOL_CALL_ARGS = Return true ->
         TauBench.toolsUsed (TauBench.step st ev) = TauBench.toolsUsed st)
  /\ (forall (events : list (value number)) st,
         TauBench.toolsUsed (TauBench.foldEvents events st)
         = TauBench.toolsUsed st ++ flat_map Spec.toolNameOf events)
  /\ (forall clock status chunks,
         ok {| status := status; body := Some chunks |} = true ->
         exists result : @TauBench.Result number,
           TauBench.callOasisAgent clock
             {| status := status; body := Some chunks |} = Return result
           /\ TauBench.resultToolsUsed result
              = flat_map Spec.toolNameOf
                  (Spec.decodedEvents newTextDecoder chunks)).
Proof.
  repeat split.
  - intros ev name st Hty Hname Htruthy.
    rewrite Tau_step_tools. unfold Spec.toolNameOf, typeIsAnd.
    rewrite Hty; simpl. rewrite Hname; simpl. rewrite Htruthy. reflexivity.
  - intros ev name st Hty Hname Hfalsy.
    rewrite Tau_step_tools. unfold Spec.toolNameOf, typeIsAnd.
    rewrite Hty; simpl. rewrite Hname; simpl. rewrite Hfalsy.
    apply app_nil_r.
  - intros ev st Hother.
    rewrite Tau_step_tools. unfold Spec.toolNameOf, typeIsAnd.
    destruct Hother as [H | H];
      apply typeIs_Return in H as [ty [Hprop Heq]];
      unfold typeIs; rewrite Hprop; simpl;
      rewrite (strictEqualsString_other _ _ TOOL_CALL_START Heq);
      apply app_nil_r.
  - intros events st. apply Tau_fold_tools.
  - intros clock status chunks Hok.
    eexists. split; [apply Tau_call_ok; exact Hok|]. simpl.
    rewrite Tau_fold_tools. reflexivity.
Qed.

Lemma C8_witness :
  TauBench.toolsUsed (TauBench.step TauBench.initial Examples.evToolSearch)
  = TauBench.toolsUsed TauBench.initial ++ [VStr (js "search")]
  /\ TauBench.toolsUsed
       (TauBench.step TauBench.initial Examples.evToolUnnamed)
     = TauBench.toolsUsed TauBench.initial
  /\ TauBench.toolsUsed (TauBench.step TauBench.initial Examples.evToolEnd)
     = TauBench.toolsUsed TauBench.initial
  /\ exists result : @TauBench.Result Z,
       TauBench.callOasisAgent Examples.clockA
         {| status := 200; body := Some Examples.toolBody |} = Return result
       /\ TauBench.resultToolsUsed result
          = flat_map Spec.toolNameOf
              (Spec.decodedEvents newTextDecoder Examples.toolBody).
Proof.
  pose proof (C8_tool_names_are_appended_at_start (engine := Reference.engine))
    as [Hnamed [Hunnamed [Hother [_ Hcall]]]].
  split; [|split; [|split]].
  - apply Hnamed; reflexivity.
  - apply (Hunnamed Examples.evToolUnnamed VUndefined); reflexivity.
  - apply Hother. left; reflexivity.
  - apply Hcall. reflexivity.
Defined.

(* ------------------------------------------------------------------ *)

(** C9.  The fold keeps no open-span flag.  A TEXT_MESSAGE_START event
    changes nothing; a TEXT_MESSAGE_CONTENT event with a non-empty delta is
    appended to the current message in every state, whether or not a start
    came before; a TEXT_MESSAGE_END on an empty buffer leaves the response
    text as it was. *)
Theorem C9_no_open_span_flag
    {number : Type} {engine : Engine number} :
  (forall ev : value number,
      typeIs ev TEXT_MESSAGE_START = Return true ->
      (forall st, MTBench.collectText ev st = (Return tt, st))
      /\ (forall st, TauBench.handleEvent ev st = (Return tt, st)))
  /\ (forall (ev : value number) (d : jsstring),
         typeIs ev TEXT_MESSAGE_CONTENT = Return true ->
         getProp ev (js "delta") = Return (VStr d) ->
         d <> [] ->
         (forall st,
             MTBench.collectText ev st
             = (Return tt,
                {| MTBench.fullResponse := MTBench.fullResponse st;
                   MTBench.currentMessage :=
                     MTBench.currentMessage st ++ d |}))
         /\ (forall st,
               TauBench.handleEvent ev st
               = (Return tt,
                  {| TauBench.fullResponse := TauBench.fullResponse st;
                     TauBench.currentMessage :=
                       TauBench.currentMessage st ++ d;
                     TauBench.toolsUsed := TauBench.toolsUsed st |})))
  /\ (forall ev : value number,
         typeIs ev TEXT_MESSAGE_END = Return true ->
         (forall st,
             MTBench.currentMessage st = [] ->
             MTBench.collectText ev st = (Return tt, st))
         /\ (forall st,
               TauBench.currentMessage st = [] ->
               TauBench.handleEvent ev st = (Return tt, st))).
Proof.
  split; [|split].
  - intros ev Hty.
    apply typeIs_Return in Hty as [ty [Hprop Heq]].
    pose proof literals_distinct
      as [_ [_ [_ [Hsc [Hse [Hst _]]]]]].
    split; intros st.
    + unfold MTBench.collectText, typeIsAnd, typeIs.
      rewrite Hprop; simpl.
      rewrite (strictEqualsString_other _ _ TEXT_MESSAGE_CONTENT Heq), Hsc.
      simpl.
      rewrite (strictEqualsString_other _ _ TEXT_MESSAGE_END Heq), Hse.
      reflexivity.
    + unfold TauBench.handleEvent, TauBench.trackToolUsage,
        TauBench.collectText, typeIsAnd, typeIs.
      rewrite Hprop; simpl.
      rewrite (strictEqualsString_other _ _ TOOL_CALL_START Heq), Hst.
      simpl.
      rewrite (strictEqualsString_other _ _ TEXT_MESSAGE_CONTENT Heq), Hsc.
      simpl.
      rewrite (strictEqualsString_other _ _ TEXT_MESSAGE_END Heq), Hse.
      reflexivity.
  - intros ev d Hty Hdelta Hd.
    destruct d as [|c d']; [contradiction|].
    pose proof Hty as Hty'.
    apply typeIs_Return in Hty' as [ty [Hprop Heq]].
    pose proof literals_distinct
      as [_ [_ [_ [_ [_ [_ [_ [_ [Hcs _]]]]]]]]].
    split; intros st.
    + unfold MTBench.collectText, typeIsAnd.
      rewrite Hty; simpl. rewrite Hdelta; simpl. reflexivity.
    + unfold TauBench.handleEvent, TauBench.trackToolUsage,
        TauBench.collectText, typeIsAnd.
      assert (Hnot : typeIs ev TOOL_CALL_START = Return false).
      { unfold typeIs. rewrite Hprop; simpl.
        rewrite (strictEqualsString_other _ _ TOOL_CALL_START Heq), Hcs.
        reflexivity. }
      rewrite Hnot; simpl. rewrite Hty; simpl. rewrite Hdelta; simpl.
      reflexivity.
  - intros ev Hty.
    pose proof Hty as Hty'.
    apply typeIs_Return in Hty' as [ty [Hprop Heq]].
    pose proof literals_distinct
      as [Hce [_ [_ [_ [_ [_ [_ [_ [_ Hes]]]]]]]]].
    assert (Hc : typeIs ev TEXT_MESSAGE_CONTENT = Return false).
    { unfold typeIs. rewrite Hprop; simpl.
      rewrite (strictEqualsString_other _ _ TEXT_MESSAGE_CONTENT Heq).
      destruct (JS.eqb TEXT_MESSAGE_END TEXT_MESSAGE_CONTENT) eqn:E;
        [apply eqb_eq in E; discriminate | reflexivity]. }
    split; intros st Hempty.
    + unfold MTBench.collectText, typeIsAnd.
      rewrite Hc; simpl. rewrite Hty.
      destruct st as [full current]; simpl in *; subst current.
      rewrite app_nil_r. reflexivity.
    + unfold TauBench.handleEvent, TauBench.trackToolUsage,
        TauBench.collectText, typeIsAnd.
      assert (Hnot : typeIs ev TOOL_CALL_START = Return false).
      { unfold typeIs. rewrite Hprop; simpl.
        rewrite (strictEqualsString_other _ _ TOOL_CALL_START Heq), Hes.
        reflexivity. }
      rewrite Hnot; simpl. rewrite Hc; simpl. rewrite Hty.
      destruct st as [full current tools]; simpl in *; subst current.
      rewrite app_nil_r. reflexivity.
Qed.

Lemma C9_witness :
  MTBench.collectText Examples.evStart MTBench.initial
  = (Return tt, MTBench.initial)
  /\ TauBench.handleEvent Examples.evContentHi TauBench.initial
     = (Return tt,
        {| TauBench.fullResponse := [];
           TauBench.currentMessage := [] ++ js "Hi";
           TauBench.toolsUsed := [] |})
  /\ TauBench.handleEvent Examples.evEnd TauBench.initial
     = (Return tt, TauBench.initial).
Proof.
  pose proof (C9_no_open_span_flag (engine := Reference.engine))
    as [Hstart [Hcontent Hend]].
  split; [|split].
  - apply (proj1 (Hstart Examples.evStart eq_refl)).
  - apply (proj2 (Hcontent Examples.evContentHi (js "Hi")
                    eq_refl eq_refl ltac:(discriminate))).
  - apply (proj2 (Hend Examples.evEnd eq_refl)). reflexivity.
Defined.

(* ------------------------------------------------------------------ *)

(** C10.  The MT-Bench call returns the trimmed accumulated text, and the
    literal "No response received" when that trimmed text is empty; hence a
    stream without content and a stream whose content is that literal return
    the same response. *)
Theorem C10_trimmed_response_or_default
    {number : Type} {engine : Engine number}
    (clock : Clock) (status : N) (chunks : list (list byte)) :
  ok {| status := status; body := Some chunks |} = true ->
  (exists result,
      MTBench.callOasisAgent clock
        {| status := status; body := Some chunks |} = Return result
      /\ MTBench.response result
         = (let st := MTBench.foldEvents
                        (Spec.decodedEvents newTextDecoder chunks)
                        MTBench.initial in
            let accumulated :=
              MTBench.fullResponse st ++ MTBench.currentMessage st in
            if JS.eqb (trim accumulated) [] then js "No response received"
            else trim accumulated))
  /\ (forall chunks',
         (let st := MTBench.foldEvents
                      (Spec.decodedEvents newTextDecoder chunks)
                      MTBench.initial in
          trim (MTBench.fullResponse st ++ MTBench.currentMessage st) = []) ->
         (let st' := MTBench.foldEvents
                       (Spec.decodedEvents newTextDecoder chunks')
                       MTBench.initial in
          trim (MTBench.fullResponse st' ++ MTBench.currentMessage st')
          = js "No response received") ->
         MTBench.callOasisAgent clock
           {| status := status; body := Some chunks |}
         = MTBench.callOasisAgent clock
             {| status := status; body := Some chunks' |}).
Proof.
  intros Hok. split.
  - eexists. split; [apply MT_call_ok; exact Hok|]. simpl.
    rewrite addRemaining_app. unfold MTBench.finalResponse; simpl.
    destruct (JS.eqb _ []); reflexivity.
  - intros chunks' Hempty Hliteral; simpl in Hempty, Hliteral.
    rewrite (MT_call_ok clock status chunks Hok).
    rewrite (MT_call_ok clock status chunks' Hok).
    rewrite !addRemaining_app. unfold MTBench.finalResponse.
    rewrite Hempty, Hliteral. reflexivity.
Qed.

Lemma C10_witness :
  (exists result,
      MTBench.callOasisAgent Examples.clockA
        {| status := 200; body := Some [] |} = Return result
      /\ MTBench.response result = js "No response received")
  /\ MTBench.callOasisAgent Examples.clockA
       {| status := 200; body := Some [] |}
     = MTBench.callOasisAgent Examples.clockA
         {| status := 200; body := Some Examples.sentinelBody |}.
Proof.
  pose proof (C10_trimmed_response_or_default (engine := Reference.engine)
                Examples.clockA 200 [] eq_refl) as [Hresponse Hsame].
  split.
  - exact Hresponse.
  - apply Hsame; vm_compute; reflexivity.
Defined.

(* ================================================================== *)
(** * Further properties of the two agent calls *)
(* ================================================================== *)

Section Trim.

Lemma trimStart_split (s : jsstring) :
  exists blanks, s = blanks ++ trimStart s.
Proof.
  induction s as [|c s [blanks IH]]; simpl.
  - exists []; reflexivity.
  - destruct (isWhiteSpace c).
    + exists (c :: blanks). simpl. rewrite <- IH. reflexivity.
    + exists []; reflexivity.
Qed.

Lemma trimStart_head (s : jsstring) (c : code_unit) (rest : jsstring) :
  trimStart s = c :: rest -> isWhiteSpace c = false.
Proof.
  induction s as [|x s IH]; simpl; [discriminate|].
  destruct (isWhiteSpace x) eqn:Hx; [exact IH|].
  intros [= <- _]. exact Hx.
Qed.

Lemma trimStart_fixed (c : code_unit) (s : jsstring) :
  isWhiteSpace c = false -> trimStart (c :: s) = c :: s.
Proof. intros H; simpl; rewrite H; reflexivity. Qed.

Lemma trimStart_idempotent (s : jsstring) :
  trimStart (trimStart s) = trimStart s.
Proof.
  destruct (trimStart s) as [|c rest] eqn:H; [reflexivity|].
  apply trimStart_fixed. exact (trimStart_head s c rest H).
Qed.

Lemma trimEnd_split (s : jsstring) :
  exists blanks, s = trimEnd s ++ blanks.
Proof.
  unfold trimEnd. destruct (trimStart_split (rev s)) as [blanks H].
  exists (rev blanks).
  rewrite <- rev_app_distr, <- H, rev_involutive. reflexivity.
Qed.

(** [trim] is idempotent: a trimmed string has nothing left to strip. *)
Lemma trim_idempotent (s : jsstring) : trim (trim s) = trim s.
Proof.
  unfold trim.
  set (a := trimStart s).
  assert (Hstart : trimStart (trimEnd a) = trimEnd a).
  { destruct (trimEnd_split a) as [blanks Hsplit].
    destruct (trimEnd a) as [|c b] eqn:Hb; [reflexivity|].
    apply trimStart_fixed.
    apply (trimStart_head s c (b ++ blanks)).
    fold a. rewrite Hsplit. reflexivity. }
  rewrite Hstart.
  unfold trimEnd at 1. unfold trimEnd at 1.
  rewrite rev_involutive, trimStart_idempotent. reflexivity.
Qed.

Lemma Forall_trimStart (P : code_unit -> Prop) (s : jsstring) :
  Forall P s -> Forall P (trimStart s).
Proof.
  intros H. destruct (trimStart_split s) as [blanks Hs].
  rewrite Hs in H. apply Forall_app in H as [_ H]. exact H.
Qed.

Lemma Forall_trim (P : code_unit -> Prop) (s : jsstring) :
  Forall P s -> Forall P (trim s).
Proof.
  intros H. unfold trim, trimEnd.
  apply Forall_rev, Forall_trimStart, Forall_rev, Forall_trimStart, H.
Qed.

End Trim.

(** X1.  The response of a completed MT-Bench call is never the empty
    string and carries no white space at either end. *)
Theorem MT_response_nonempty_and_trimmed
    {number : Type} {engine : Engine number}
    (clock : Clock) (response : Response) (result : MTBench.Result) :
  MTBench.callOasisAgent clock response = Return result ->
  MTBench.response result <> [] /\ trim (MTBench.response result)
                                   = MTBench.response result.
Proof.
  unfold MTBench.callOasisAgent.
  destruct (ok response); simpl; [|discriminate].
  destruct (body response) as [chunks|]; [|discriminate].
  intros [= <-]; simpl. unfold MTBench.finalResponse; simpl.
  destruct (trim _) as [|c t] eqn:Ht; simpl.
  - split; [discriminate | reflexivity].
  - split; [discriminate|]. rewrite <- Ht. apply trim_idempotent.
Qed.

Lemma MT_response_nonempty_and_trimmed_witness :
  MTBench.response {| MTBench.response := js "Hi"; MTBench.latencyMs := 250 |}
  <> []
  /\ trim (MTBench.response
             {| MTBench.response := js "Hi"; MTBench.latencyMs := 250 |})
     = MTBench.response
         {| MTBench.response := js "Hi"; MTBench.latencyMs := 250 |}.
Proof.
  apply (MT_response_nonempty_and_trimmed (engine := Reference.engine)
           Examples.clockA
           {| status := 200; body := Some Examples.paddedBody |}).
  vm_compute. reflexivity.
Defined.

(* ------------------------------------------------------------------ *)

Section AppendOnly.
Context {number : Type} {engine : Engine number}.
Local Abbreviation value := (value number).

Lemma decodedEvents_app (chunks more : list (list byte)) (td : TextDecoder) :
  exists td',
    Spec.decodedEvents td (chunks ++ more)
    = Spec.decodedEvents td chunks ++ Spec.decodedEvents td' more.
Proof.
  revert td; induction chunks as [|c chunks IH]; intros td; simpl.
  - exists td; reflexivity.
  - destruct (IH (fst (decode td c))) as [td' H].
    exists td'. rewrite H, app_assoc. reflexivity.
Qed.

(** The span-wise reduction only ever appends to the response. *)
Lemma textStep_grows (events : list value) (full current : jsstring) :
  exists more,
    fst (fold_left Spec.textStep events (full, current)) = full ++ more.
Proof.
  revert full current; induction events as [|ev events IH];
    intros full current; simpl.
  - exists []. rewrite app_nil_r. reflexivity.
  - assert (Hstep : Spec.textStep (full, current) ev
                     = if Spec.closesSpan ev then (full ++ current, [])
                       else (full, current ++ Spec.deltaOf ev))
      by reflexivity.
    rewrite Hstep. destruct (Spec.closesSpan ev).
    + destruct (IH (full ++ current) []) as [more H].
      exists (current ++ more). rewrite app_assoc. exact H.
    + apply IH.
Qed.

End AppendOnly.

(** X2.  The Tau-Bench call is append-only across the stream: when more
    chunks follow the ones received, the response and the tool list of the
    longer stream extend those of the shorter one, so a stream cut short
    returns prefixes of what the complete stream returns. *)
Theorem Tau_result_extends_with_the_stream
    {number : Type} {engine : Engine number}
    (clock : Clock) (status : N) (chunks more : list (list byte)) :
  ok {| status := status; body := Some chunks |} = true ->
  exists (short long : @TauBench.Result number) text tools,
    TauBench.callOasisAgent clock {| status := status; body := Some chunks |}
    = Return short
    /\ TauBench.callOasisAgent clock
         {| status := status; body := Some (chunks ++ more) |}
       = Return long
    /\ TauBench.response long = TauBench.response short ++ text
    /\ TauBench.resultToolsUsed long
       = TauBench.resultToolsUsed short ++ tools.
Proof.
  intros Hok.
  destruct (decodedEvents_app chunks more newTextDecoder) as [td' Hevents].
  pose proof (Tau_fold_text (Spec.decodedEvents td' more)
                (TauBench.foldEvents
                   (Spec.decodedEvents newTextDecoder chunks)
                   TauBench.initial)) as Htext.
  destruct (textStep_grows (Spec.decodedEvents td' more)
              (TauBench.fullResponse
                 (TauBench.foldEvents
                    (Spec.decodedEvents newTextDecoder chunks)
                    TauBench.initial))
              (TauBench.currentMessage
                 (TauBench.foldEvents
                    (Spec.decodedEvents newTextDecoder chunks)
                    TauBench.initial))) as [text Hgrow].
  rewrite <- Htext in Hgrow. simpl in Hgrow.
  eexists _, _, text, (flat_map Spec.toolNameOf (Spec.decodedEvents td' more)).
  split; [apply Tau_call_ok; exact Hok|].
  split; [apply (Tau_call_ok clock status (chunks ++ more)); exact Hok|].
  simpl. rewrite Hevents. unfold TauBench.foldEvents in *.
  rewrite fold_left_app. split; [exact Hgrow|].
  apply (Tau_fold_tools (Spec.decodedEvents td' more)).
Qed.

Lemma Tau_result_extends_with_the_stream_witness :
  exists (short long : @TauBench.Result Z) text tools,
    TauBench.callOasisAgent Examples.clockA
      {| status := 200; body := Some Examples.twoReads |} = Return short
    /\ TauBench.callOasisAgent Examples.clockA
         {| status := 200;
            body := Some (Examples.twoReads ++ Examples.toolBody) |}
       = Return long
    /\ TauBench.response long = TauBench.response short ++ text
    /\ TauBench.resultToolsUsed long
       = TauBench.resultToolsUsed short ++ tools.
Proof.
  apply (Tau_result_extends_with_the_stream (engine := Reference.engine)
           Examples.clockA 200 Examples.twoReads Examples.toolBody).
  reflexivity.
Defined.

(* ------------------------------------------------------------------ *)

(** X3.  A repeated TEXT_MESSAGE_END adds nothing: the first one moves the
    buffer to the response and clears it, so processing the end event twice
    in a row leaves both calls in the state that processing it once does. *)
Theorem repeated_end_event_adds_nothing
    {number : Type} {engine : Engine number} (ev : value number) :
  Spec.closesSpan ev = true ->
  (forall st, MTBench.step (MTBench.step st ev) ev = MTBench.step st ev)
  /\ (forall st, TauBench.step (TauBench.step st ev) ev
                 = TauBench.step st ev).
Proof.
  intros Hend.
  assert (Htext : forall acc, Spec.textStep (Spec.textStep acc ev) ev
                              = Spec.textStep acc ev).
  { intros acc. unfold Spec.textStep. rewrite Hend; simpl.
    rewrite app_nil_r. reflexivity. }
  assert (Htool : Spec.toolNameOf ev = []).
  { unfold Spec.closesSpan in Hend.
    destruct (typeIs ev TEXT_MESSAGE_END) as [b|e] eqn:Hty; [|discriminate].
    subst b. apply typeIs_Return in Hty as [ty [Hprop Heq]].
    unfold Spec.toolNameOf, typeIsAnd, typeIs. rewrite Hprop; simpl.
    rewrite (strictEqualsString_other _ _ TOOL_CALL_START Heq).
    reflexivity. }
  split; intros st.
  - pose proof (MT_step_text (MTBench.step st ev) ev) as H2.
    rewrite (MT_step_text st ev), Htext, <- (MT_step_text st ev) in H2.
    destruct (MTBench.step (MTBench.step st ev) ev),
      (MTBench.step st ev); simpl in *.
    injection H2 as -> ->. reflexivity.
  - pose proof (Tau_step_text (TauBench.step st ev) ev) as H2.
    rewrite (Tau_step_text st ev), Htext, <- (Tau_step_text st ev) in H2.
    pose proof (Tau_step_tools (TauBench.step st ev) ev) as H3.
    rewrite Htool, app_nil_r in H3.
    destruct (TauBench.step (TauBench.step st ev) ev),
      (TauBench.step st ev); simpl in *.
    injection H2 as -> ->. subst. reflexivity.
Qed.

Lemma repeated_end_event_adds_nothing_witness :
  (forall st, MTBench.step (MTBench.step st Examples.evEnd) Examples.evEnd
              = MTBench.step st Examples.evEnd)
  /\ (forall st, TauBench.step (TauBench.step st Examples.evEnd) Examples.evEnd
                 = TauBench.step st Examples.evEnd).
Proof.
  apply (repeated_end_event_adds_nothing (engine := Reference.engine)
           Examples.evEnd).
  reflexivity.
Defined.

(* ================================================================== *)
(** * Text matching *)
(* ================================================================== *)

Import Text.

Section Matching.

Lemma startsWith_firstn (literal s : jsstring) :
  startsWith s literal = true <-> firstn (length literal) s = literal.
Proof.
  revert s; induction literal as [|p literal IH]; intros s; simpl.
  - split; reflexivity.
  - destruct s as [|c s]; simpl; [split; discriminate|].
    rewrite andb_true_iff, N.eqb_eq, IH.
    split; [intros [-> ->]; reflexivity | intros [= -> ->]; auto].
Qed.

Lemma startsWith_app (literal rest : jsstring) :
  startsWith (literal ++ rest) literal = true.
Proof.
  apply startsWith_firstn.
  rewrite firstn_app, Nat.sub_diag, firstn_all. simpl. apply app_nil_r.
Qed.

Lemma In_firstn (x : code_unit) (n : nat) (l : jsstring) :
  In x (firstn n l) -> In x l.
Proof.
  intros H. rewrite <- (firstn_skipn n l). apply in_or_app; left; exact H.
Qed.

(** A literal whose last code unit occurs nowhere else in it cannot start
    inside the text before one of its occurrences and reach into it. *)
Lemma startsWith_before_occurrence
    (body : jsstring) (last : code_unit) (q rest : jsstring) :
  ~ In last body -> q <> [] ->
  startsWith (q ++ (body ++ [last]) ++ rest) (body ++ [last]) = true ->
  startsWith q (body ++ [last]) = true.
Proof.
  intros Hlast Hq H.
  apply startsWith_firstn in H. apply startsWith_firstn.
  rewrite firstn_app in H.
  destruct (Nat.le_gt_cases (length (body ++ [last])) (length q)) as [Hle|Hgt].
  - replace (length (body ++ [last]) - length q)%nat with 0%nat in H by lia.
    simpl in H. rewrite app_nil_r in H. exact H.
  - exfalso.
    rewrite firstn_all2 in H by lia.
    rewrite <- app_assoc in H. rewrite firstn_app in H.
    rewrite length_app in Hgt; simpl in Hgt.
    assert (Hq' : (1 <= length q)%nat) by (destruct q; simpl; [contradiction|lia]).
    replace (length (body ++ [last]) - length q - length body)%nat
      with 0%nat in H by (rewrite length_app; simpl; lia).
    simpl in H. rewrite app_nil_r in H.
    set (f := firstn (length (body ++ [last]) - length q) body) in H.
    assert (Hf : f <> []).
    { intros Hnil. apply (f_equal (@length code_unit)) in H.
      rewrite Hnil, app_nil_r, length_app in H. simpl in H. lia. }
    destruct (exists_last Hf) as [f' [x Hx]].
    rewrite Hx, app_assoc in H.
    apply app_inj_tail in H as [_ Heq]. subst x.
    apply Hlast. apply (In_firstn last (length (body ++ [last]) - length q)).
    fold f. rewrite Hx. apply in_or_app; right; left; reflexivity.
Qed.

(** The leftmost match skips text that does not contain the literal. *)
Lemma matchAfter_skips (body : jsstring) (last : code_unit)
    (group : jsstring -> option jsstring) (pre rest : jsstring) :
  ~ In last body ->
  occurs (body ++ [last]) pre = false ->
  matchAfter (body ++ [last]) group (pre ++ (body ++ [last]) ++ rest)
  = matchAfter (body ++ [last]) group ((body ++ [last]) ++ rest).
Proof.
  intros Hlast. induction pre as [|c pre IH]; intros Hfree.
  - reflexivity.
  - cbn [occurs] in Hfree. apply orb_false_iff in Hfree as [Hhere Hlater].
    change ((c :: pre) ++ (body ++ [last]) ++ rest)
      with (c :: (pre ++ (body ++ [last]) ++ rest)).
    cbn [matchAfter].
    destruct (startsWith (c :: pre ++ (body ++ [last]) ++ rest)
                (body ++ [last])) eqn:Hs.
    + exfalso.
      assert (Hq : startsWith (c :: pre) (body ++ [last]) = true).
      { apply (startsWith_before_occurrence body last (c :: pre) rest);
          [exact Hlast | discriminate | exact Hs]. }
      rewrite Hq in Hhere. discriminate.
    + apply IH. exact Hlater.
Qed.

Lemma matchAfter_here (literal : jsstring)
    (group : jsstring -> option jsstring) (rest captured : jsstring) :
  group rest = Some captured ->
  matchAfter literal group (literal ++ rest) = Some captured.
Proof.
  intros H.
  assert (Hhere : (if startsWith (literal ++ rest) literal
                   then group (skipn (length literal) (literal ++ rest))
                   else None) = Some captured).
  { rewrite startsWith_app, skipn_app, Nat.sub_diag, skipn_all. exact H. }
  destruct (literal ++ rest); simpl in *; rewrite Hhere; reflexivity.
Qed.

Lemma takeWhile_Forall (p : code_unit -> bool) (s : jsstring) :
  Forall (fun c => p c = true) (takeWhile p s).
Proof.
  induction s as [|c s IH]; simpl; [constructor|].
  destruct (p c) eqn:Hc; constructor; assumption.
Qed.

Lemma takeWhile_stop (p : code_unit -> bool) (run : jsstring)
    (c : code_unit) (rest : jsstring) :
  Forall (fun x => p x = true) run -> p c = false ->
  takeWhile p (run ++ c :: rest) = run.
Proof.
  induction 1 as [|x run Hx _ IH]; intros Hc; simpl.
  - rewrite Hc; reflexivity.
  - rewrite Hx, IH by exact Hc. reflexivity.
Qed.

(** What a match of the group yields, wherever it is found. *)
Lemma matchAfter_group (literal : jsstring)
    (group : jsstring -> option jsstring) (P : jsstring -> Prop) :
  (forall s captured, group s = Some captured -> P captured) ->
  forall s captured,
    matchAfter literal group s = Some captured -> P captured.
Proof.
  intros Hgroup s; induction s as [|c s IH]; intros captured; simpl.
  - destruct (startsWith [] literal); [|discriminate].
    destruct (group (skipn (length literal) [])) eqn:Hg; [|discriminate].
    intros [= <-]. exact (Hgroup _ _ Hg).
  - destruct (if startsWith (c :: s) literal
              then group (skipn (length literal) (c :: s)) else None)
      as [g|] eqn:Hhere.
    + intros [= <-].
      destruct (startsWith (c :: s) literal); [|discriminate].
      exact (Hgroup _ _ Hhere).
    + apply IH.
Qed.

Lemma restOfLine_spec (s captured : jsstring) :
  restOfLine s = Some captured ->
  captured <> []
  /\ Forall (fun c => isLineTerminator c = false) captured.
Proof.
  unfold restOfLine.
  pose proof (takeWhile_Forall (fun c => negb (isLineTerminator c)) s) as H.
  destruct (takeWhile _ s) as [|c run]; [discriminate|].
  intros [= <-]. split; [discriminate|].
  eapply Forall_impl; [|exact H]. simpl. intros a Ha.
  apply negb_true_iff in Ha. exact Ha.
Qed.

Lemma bracketed_spec (s captured : jsstring) :
  bracketed s = Some captured ->
  captured <> [] /\ Forall (fun c => c <> 93%N) captured.
Proof.
  unfold bracketed.
  pose proof (takeWhile_Forall (fun c => negb (N.eqb c 93)) s) as H.
  destruct (takeWhile _ s) as [|c run]; [discriminate|].
  destruct (skipn _ s) as [|x rest]; [discriminate|].
  destruct (N.eqb x 93); [|discriminate].
  intros [= <-]. split; [discriminate|].
  eapply Forall_impl; [|exact H]. simpl. intros a Ha.
  apply negb_true_iff, N.eqb_neq in Ha. exact Ha.
Qed.

End Matching.

(* ================================================================== *)
(** * The signer *)
(* ================================================================== *)

(** X4.  What [generateFreshFasCreds] returns is a single line with no
    white space at either end: it contains no line terminator and [trim]
    leaves it unchanged. *)
Theorem fresh_creds_are_one_trimmed_line
    (execSync : outcome jsstring) (creds : jsstring) :
  SigV4Signer.generateFreshFasCreds execSync = Return creds ->
  Forall (fun c => isLineTerminator c = false) creds
  /\ trim creds = creds.
Proof.
  unfold SigV4Signer.generateFreshFasCreds.
  destruct execSync as [output|e]; simpl; [|discriminate].
  destruct (matchAfter (js "ENCRYPTED_FAS_CREDS=") restOfLine output)
    as [group|] eqn:Hmatch; [|discriminate].
  destruct (SigV4Signer.nonEmpty group); [|discriminate].
  intros [= <-]. split; [|apply trim_idempotent].
  apply Forall_trim.
  apply (matchAfter_group (js "ENCRYPTED_FAS_CREDS=") restOfLine
           (fun g => Forall (fun c => isLineTerminator c = false) g)
           (fun s g Hg => proj2 (restOfLine_spec s g Hg)) output group Hmatch).
Qed.

Lemma fresh_creds_are_one_trimmed_line_witness :
  Forall (fun c => isLineTerminator c = false) (js "AgV4abc==")
  /\ trim (js "AgV4abc==") = js "AgV4abc==".
Proof.
  apply (fresh_creds_are_one_trimmed_line
           (Return (js "Step 5" ++ [LF] ++ js "ENCRYPTED_FAS_CREDS= AgV4abc=="
                    ++ [13%N; LF] ++ js "done"))).
  vm_compute. reflexivity.
Defined.

(** X5.  The line that the credential script prints is read back: from any
    output in which the first occurrence of "ENCRYPTED_FAS_CREDS=" is
    followed by a non-empty value and the end of the line,
    [generateFreshFasCreds] returns that value, trimmed. *)
Theorem fresh_creds_round_trip (pre creds post : jsstring) :
  occurs (js "ENCRYPTED_FAS_CREDS=") pre = false ->
  creds <> [] ->
  Forall (fun c => isLineTerminator c = false) creds ->
  SigV4Signer.generateFreshFasCreds
    (Return (pre ++ js "ENCRYPTED_FAS_CREDS=" ++ creds ++ LF :: post))
  = Return (trim creds).
Proof.
  intros Hfree Hne Hline.
  unfold SigV4Signer.generateFreshFasCreds, bind.
  assert (Hrun : restOfLine (creds ++ LF :: post) = Some creds).
  { unfold restOfLine. rewrite takeWhile_stop.
    - destruct creds; [contradiction | reflexivity].
    - eapply Forall_impl; [|exact Hline]. simpl. intros a Ha.
      rewrite Ha. reflexivity.
    - reflexivity. }
  match goal with
  | |- context [matchAfter ?l ?g ?s] =>
      assert (Hmatch : matchAfter l g s = Some creds)
  end.
  { etransitivity.
    - apply (matchAfter_skips (js "ENCRYPTED_FAS_CREDS") 61%N restOfLine pre
               (creds ++ LF :: post));
        [vm_compute; intuition discriminate | exact Hfree].
    - apply (matchAfter_here (js "ENCRYPTED_FAS_CREDS" ++ [61%N]) restOfLine
               (creds ++ LF :: post) creds Hrun). }
  rewrite Hmatch.
  destruct creds; [contradiction | reflexivity].
Qed.

Lemma fresh_creds_round_trip_witness :
  SigV4Signer.generateFreshFasCreds
    (Return (js "=== ENCRYPTED_FAS_CREDS Generator ===" ++ [LF]
             ++ js "ENCRYPTED_FAS_CREDS=" ++ js "AgV4abc==" ++ LF :: [LF]))
  = Return (trim (js "AgV4abc==")).
Proof.
  apply (fresh_creds_round_trip
           (js "=== ENCRYPTED_FAS_CREDS Generator ===" ++ [LF])
           (js "AgV4abc==") [LF]).
  - vm_compute. reflexivity.
  - discriminate.
  - vm_compute. repeat constructor.
Defined.

(* ================================================================== *)
(** * The credential script *)
(* ================================================================== *)

Section Script.

Lemma matchAfter_absent (literal : jsstring)
    (group : jsstring -> option jsstring) (s : jsstring) :
  occurs literal s = false -> matchAfter literal group s = None.
Proof.
  induction s as [|c s IH]; cbn [occurs matchAfter]; intros H;
    apply orb_false_iff in H as [Hhere Hlater]; rewrite Hhere.
  - reflexivity.
  - apply IH. exact Hlater.
Qed.

Lemma firstBearer_spec (messages : list (option jsstring)) (token : jsstring) :
  FasCredsScript.firstBearer messages = Return (Some token) ->
  token <> [] /\ Forall (fun c => c <> 93%N) token.
Proof.
  induction messages as [|[message|] messages IH]; simpl.
  - discriminate.
  - destruct (matchAfter (js "X-Amz-Juno-Sectoken:[Bearer ") bracketed message)
      as [t|] eqn:Hm; [|exact IH].
    destruct t as [|c t]; [exact IH|].
    intros [= <-].
    exact (matchAfter_group (js "X-Amz-Juno-Sectoken:[Bearer ") bracketed
             (fun g => g <> [] /\ Forall (fun c => c <> 93%N) g)
             bracketed_spec message (c :: t) Hm).
  - discriminate.
Qed.

Lemma attemptsFrom_unfound
    (lookup : nat -> outcome (option jsstring)) (maxAttempts : nat)
    (delayMs : N) (d : nat) :
  forall attempt fuel,
    attempt + fuel = S maxAttempts -> d < fuel ->
    (forall j, attempt <= j < attempt + d ->
               exists t, lookup j = Return t
                         /\ FasCredsScript.found t = false) ->
    FasCredsScript.attemptsFrom lookup maxAttempts delayMs attempt fuel
    = (Expect.retries d delayMs
       ++ fst (FasCredsScript.attemptsFrom lookup maxAttempts delayMs
                 (attempt + d) (fuel - d)),
       snd (FasCredsScript.attemptsFrom lookup maxAttempts delayMs
              (attempt + d) (fuel - d))).
Proof.
  induction d as [|d IH]; intros attempt fuel Hsum Hd Hunfound.
  - rewrite Nat.add_0_r, Nat.sub_0_r. simpl.
    destruct (FasCredsScript.attemptsFrom _ _ _ _ _); reflexivity.
  - destruct fuel as [|fuel]; [lia|].
    destruct (Hunfound attempt ltac:(lia)) as [t [Hlookup Hfound]].
    cbn [FasCredsScript.attemptsFrom]. rewrite Hlookup.
    assert (Hlt : Nat.ltb attempt maxAttempts = true)
      by (apply Nat.ltb_lt; lia).
    rewrite (IH (S attempt) fuel) by
      (try lia; intros j Hj; apply Hunfound; lia).
    replace (S attempt + d) with (attempt + S d) by lia.
    replace (S fuel - S d) with (fuel - d) by lia.
    rewrite Hlt.
    destruct t as [[|c t]|]; try discriminate; reflexivity.
Qed.

End Script.

(** X6.  A bearer token that [getJwtTokenFromCloudWatch] returns is never
    empty and contains no closing bracket, so [waitForToken] accepts it. *)
Theorem bearer_token_shape
    (filterLogEvents : outcome (option (list (option jsstring))))
    (token : jsstring) :
  FasCredsScript.getJwtTokenFromCloudWatch filterLogEvents
  = Return (Some token) ->
  token <> []
  /\ Forall (fun c => c <> 93%N) token
  /\ FasCredsScript.found (Some token) = true.
Proof.
  unfold FasCredsScript.getJwtTokenFromCloudWatch.
  destruct filterLogEvents as [[[|e events]|]|err]; simpl; try discriminate.
  intros H.
  destruct (firstBearer_spec (e :: events) token H) as [Hne Hall].
  repeat split; try assumption.
  destruct token; [contradiction | reflexivity].
Qed.

Lemma bearer_token_shape_witness :
  js "abc.def" <> []
  /\ Forall (fun c => c <> 93%N) (js "abc.def")
  /\ FasCredsScript.found (Some (js "abc.def")) = true.
Proof.
  apply (bearer_token_shape
           (Return (Some [Some (js "no token here");
                          Some (js "X-Amz-Juno-Sectoken:[Bearer abc.def] x")]))).
  vm_compute. reflexivity.
Defined.

(** X7.  [getJwtTokenFromCloudWatch] returns the token of the first log
    event that has one: events whose message does not contain
    "X-Amz-Juno-Sectoken:[Bearer " are passed over, and from a message whose
    first occurrence of it is followed by a non-empty token and a closing
    bracket, the token is returned. *)
Theorem bearer_token_of_first_matching_event
    (skipped : list jsstring) (pre token post : jsstring)
    (later : list (option jsstring)) :
  Forall (fun m => occurs (js "X-Amz-Juno-Sectoken:[Bearer ") m = false)
    skipped ->
  occurs (js "X-Amz-Juno-Sectoken:[Bearer ") pre = false ->
  token <> [] ->
  Forall (fun c => c <> 93%N) token ->
  FasCredsScript.getJwtTokenFromCloudWatch
    (Return (Some (map Some skipped
                   ++ Some (pre ++ js "X-Amz-Juno-Sectoken:[Bearer "
                            ++ token ++ 93%N :: post) :: later)))
  = Return (Some token).
Proof.
  intros Hskipped Hfree Hne Htoken.
  assert (Hrun : bracketed (token ++ 93%N :: post) = Some token).
  { unfold bracketed. rewrite takeWhile_stop.
    - destruct token as [|c t]; [contradiction|].
      rewrite skipn_app, Nat.sub_diag, skipn_all. reflexivity.
    - eapply Forall_impl; [|exact Htoken]. simpl. intros a Ha.
      apply negb_true_iff, N.eqb_neq. exact Ha.
    - reflexivity. }
  assert (Hmatch :
    matchAfter (js "X-Amz-Juno-Sectoken:[Bearer ") bracketed
      (pre ++ js "X-Amz-Juno-Sectoken:[Bearer " ++ token ++ 93%N :: post)
    = Some token).
  { etransitivity.
    - apply (matchAfter_skips (js "X-Amz-Juno-Sectoken:[Bearer") 32%N
               bracketed pre (token ++ 93%N :: post));
        [vm_compute; intuition discriminate | exact Hfree].
    - apply (matchAfter_here (js "X-Amz-Juno-Sectoken:[Bearer" ++ [32%N])
               bracketed (token ++ 93%N :: post) token Hrun). }
  assert (Hfirst :
    FasCredsScript.firstBearer
      (map Some skipped
       ++ Some (pre ++ js "X-Amz-Juno-Sectoken:[Bearer "
                ++ token ++ 93%N :: post) :: later)
    = Return (Some token)).
  { induction Hskipped as [|m skipped Hm _ IH];
      cbn [FasCredsScript.firstBearer map app].
    - rewrite Hmatch. destruct token; [contradiction | reflexivity].
    - rewrite (matchAfter_absent _ bracketed m Hm). exact IH. }
  unfold FasCredsScript.getJwtTokenFromCloudWatch, bind.
  rewrite <- Hfirst.
  destruct (map Some skipped ++ _) eqn:Hevents; [|reflexivity].
  destruct skipped; discriminate.
Qed.

Lemma bearer_token_of_first_matching_event_witness :
  FasCredsScript.getJwtTokenFromCloudWatch
    (Return (Some (map Some [js "request received"]
                   ++ Some (js "headers X-Amz-Date:[x] "
                            ++ js "X-Amz-Juno-Sectoken:[Bearer "
                            ++ js "abc.def" ++ 93%N :: js " end") :: [])))
  = Return (Some (js "abc.def")).
Proof.
  apply (bearer_token_of_first_matching_event
           [js "request received"] (js "headers X-Amz-Date:[x] ")
           (js "abc.def") (js " end") []).
  - repeat constructor.
  - vm_compute. reflexivity.
  - discriminate.
  - vm_compute. repeat constructor; discriminate.
Defined.

(** X8.  [waitForToken] stops at the first lookup that finds a token or
    throws: when the lookups before the [k]-th find nothing and [k] is at
    most [maxAttempts], it makes exactly [k] lookups, pauses [delayMs] after
    each of the first [k - 1], and completes as the [k]-th lookup does. *)
Theorem waitForToken_stops_at_first_decisive_lookup
    (lookup : nat -> outcome (option jsstring)) (maxAttempts : nat)
    (delayMs : N) (k : nat) :
  1 <= k <= maxAttempts ->
  (forall j, 1 <= j < k ->
             exists t, lookup j = Return t /\ FasCredsScript.found t = false) ->
  (forall token,
      lookup k = Return (Some token) -> token <> [] ->
      FasCredsScript.waitForToken lookup maxAttempts delayMs
      = (Expect.retries (k - 1) delayMs ++ [FasCredsScript.Lookup],
         Return token))
  /\ (forall e,
         lookup k = Throw e ->
         FasCredsScript.waitForToken lookup maxAttempts delayMs
         = (Expect.retries (k - 1) delayMs ++ [FasCredsScript.Lookup],
            Throw e)).
Proof.
  intros Hk Hunfound.
  assert (Hprefix :
    FasCredsScript.waitForToken lookup maxAttempts delayMs
    = (Expect.retries (k - 1) delayMs
       ++ fst (FasCredsScript.attemptsFrom lookup maxAttempts delayMs
                 k (S (maxAttempts - k))),
       snd (FasCredsScript.attemptsFrom lookup maxAttempts delayMs
              k (S (maxAttempts - k))))).
  { unfold FasCredsScript.waitForToken.
    rewrite (attemptsFrom_unfound lookup maxAttempts delayMs (k - 1)
               1 maxAttempts) by
      (try lia; intros j Hj; apply Hunfound; lia).
    replace (1 + (k - 1)) with k by lia.
    replace (maxAttempts - (k - 1)) with (S (maxAttempts - k)) by lia.
    reflexivity. }
  split.
  - intros token Hlookup Hne. rewrite Hprefix.
    cbn [FasCredsScript.attemptsFrom]. rewrite Hlookup.
    destruct token; [contradiction | reflexivity].
  - intros e Hlookup. rewrite Hprefix.
    cbn [FasCredsScript.attemptsFrom]. rewrite Hlookup. reflexivity.
Qed.

Lemma waitForToken_stops_at_first_decisive_lookup_witness :
  FasCredsScript.waitForToken
    (fun j => if Nat.eqb j 2 then Return (Some (js "abc.def"))
              else Return None) 3 2000
  = (Expect.retries (2 - 1) 2000 ++ [FasCredsScript.Lookup],
     Return (js "abc.def")).
Proof.
  apply (proj1 (waitForToken_stops_at_first_decisive_lookup
                  (fun j => if Nat.eqb j 2 then Return (Some (js "abc.def"))
                            else Return None) 3 2000 2
                  ltac:(lia)
                  ltac:(intros j Hj; exists None;
                        replace j with 1 by lia; split; reflexivity))
           (js "abc.def")).
  - reflexivity.
  - discriminate.
Defined.

(** X9.  When none of the [maxAttempts] lookups finds a token,
    [waitForToken] throws after exactly [maxAttempts] lookups and
    [maxAttempts - 1] pauses: it does not pause after the last lookup. *)
Theorem waitForToken_gives_up
    (lookup : nat -> outcome (option jsstring)) (maxAttempts : nat)
    (delayMs : N) :
  1 <= maxAttempts ->
  (forall j, 1 <= j <= maxAttempts ->
             exists t, lookup j = Return t /\ FasCredsScript.found t = false) ->
  FasCredsScript.waitForToken lookup maxAttempts delayMs
  = (Expect.retries (maxAttempts - 1) delayMs ++ [FasCredsScript.Lookup],
     Throw (Error (js "Failed to find token after maximum attempts"))).
Proof.
  intros Hmax Hunfound.
  unfold FasCredsScript.waitForToken.
  rewrite (attemptsFrom_unfound lookup maxAttempts delayMs (maxAttempts - 1)
             1 maxAttempts) by
    (try lia; intros j Hj; apply Hunfound; lia).
  replace (1 + (maxAttempts - 1)) with maxAttempts by lia.
  replace (maxAttempts - (maxAttempts - 1)) with 1 by lia.
  destruct (Hunfound maxAttempts ltac:(lia)) as [t [Hlookup Hfound]].
  cbn [FasCredsScript.attemptsFrom]. rewrite Hlookup, Nat.ltb_irrefl.
  destruct t as [[|c t]|]; try discriminate; reflexivity.
Qed.

Lemma waitForToken_gives_up_witness :
  FasCredsScript.waitForToken (fun _ => Return None) 3 2000
  = (Expect.retries (3 - 1) 2000 ++ [FasCredsScript.Lookup],
     Throw (Error (js "Failed to find token after maximum attempts"))).
Proof.
  apply (waitForToken_gives_up (fun _ => Return None) 3 2000).
  - lia.
  - intros j Hj. exists None. split; reflexivity.
Defined.

Section Jwt.
Context {number : Type} {engine : Engine number}.
Variable base64ToUtf8 : jsstring -> jsstring.

Lemma split_nonempty (sep : code_unit) (s : jsstring) : split sep s <> [].
Proof.
  destruct s as [|c s]; simpl; [discriminate|].
  destruct (N.eqb c sep); [discriminate|].
  destruct (split sep s); discriminate.
Qed.

Lemma split_free (sep : code_unit) (s : jsstring) :
  Forall (fun c => c <> sep) s -> split sep s = [s].
Proof.
  induction 1 as [|c s Hc _ IH]; simpl; [reflexivity|].
  apply N.eqb_neq in Hc. rewrite Hc, IH. reflexivity.
Qed.

Lemma split_at_first (sep : code_unit) (part rest : jsstring) :
  Forall (fun c => c <> sep) part ->
  split sep (part ++ sep :: rest) = part :: split sep rest.
Proof.
  induction 1 as [|c s Hc _ IH]; simpl.
  - rewrite N.eqb_refl. reflexivity.
  - apply N.eqb_neq in Hc. rewrite Hc, IH. reflexivity.
Qed.

End Jwt.

(** X10.  [extractEncryptedFasCreds] reads the second dot-separated part of
    the token and nothing else: a token without a dot is rejected as an
    invalid JWT, and the header part and whatever follows the payload (a
    signature, whole or truncated, or none) do not change the result. *)
Theorem extract_reads_only_the_payload
    {number : Type} {engine : Engine number}
    (base64ToUtf8 : jsstring -> jsstring)
    (header header' payload signature : jsstring) :
  Forall (fun c => c <> 46%N) header ->
  Forall (fun c => c <> 46%N) header' ->
  Forall (fun c => c <> 46%N) payload ->
  FasCredsScript.extractEncryptedFasCreds base64ToUtf8 header
  = Throw (Error (js "Invalid JWT format - need at least header and payload"))
  /\ FasCredsScript.extractEncryptedFasCreds base64ToUtf8
       (header ++ 46%N :: payload ++ 46%N :: signature)
     = FasCredsScript.extractEncryptedFasCreds base64ToUtf8
         (header' ++ 46%N :: payload).
Proof.
  intros Hh Hh' Hp. unfold FasCredsScript.extractEncryptedFasCreds. split.
  - rewrite (split_free 46%N header Hh). reflexivity.
  - rewrite (split_at_first 46%N header _ Hh), (split_at_first 46%N payload _ Hp).
    rewrite (split_at_first 46%N header' _ Hh'), (split_free 46%N payload Hp).
    pose proof (split_nonempty 46%N signature) as Hne.
    destruct (split 46%N signature); [contradiction | reflexivity].
Qed.

Lemma extract_reads_only_the_payload_witness :
  FasCredsScript.extractEncryptedFasCreds (fun s => s) (js "eyJh")
  = Throw (Error (js "Invalid JWT format - need at least header and payload"))
  /\ FasCredsScript.extractEncryptedFasCreds (fun s => s)
       (js "eyJh" ++ 46%N :: js "eyJl" ++ 46%N :: js "sig")
     = FasCredsScript.extractEncryptedFasCreds (fun s => s)
         (js "x" ++ 46%N :: js "eyJl").
Proof.
  apply (extract_reads_only_the_payload (engine := Reference.engine)
           (fun s => s) (js "eyJh") (js "x") (js "eyJl") (js "sig"));
    vm_compute; repeat constructor; discriminate.
Defined.

(* ================================================================== *)
(** * The headers of the signer *)
(* ================================================================== *)

Section Headers.
Import SigV4Signer.

(** Reading a header after an assignment: the assigned one has the new
    value, every other one is as before. *)
Lemma getHeader_setHeader (key v key' : jsstring) (headers : Headers) :
  getHeader (setHeader key v headers) key'
  = if JS.eqb key key' then Some v else getHeader headers key'.
Proof.
  induction headers as [|[k0 v0] headers IH]; simpl.
  - reflexivity.
  - destruct (JS.eqb k0 key) eqn:E0; simpl.
    + apply eqb_eq in E0; subst k0.
      destruct (JS.eqb key key'); reflexivity.
    + rewrite IH.
      destruct (JS.eqb k0 key') eqn:E1; [|reflexivity].
      destruct (JS.eqb key key') eqn:E2; [|reflexivity].
      apply eqb_eq in E1, E2. subst. rewrite eqb_refl in E0. discriminate.
Qed.

Lemma setHeader_keys (key v x : jsstring) (headers : Headers) :
  In x (map fst (setHeader key v headers)) ->
  x = key \/ In x (map fst headers).
Proof.
  induction headers as [|[k0 v0] headers IH]; simpl.
  - intros [<- | []]; left; reflexivity.
  - destruct (JS.eqb k0 key) eqn:E0; simpl.
    + intros [<- | H]; right; [left | right]; auto.
    + intros [<- | H]; [right; left; reflexivity|].
      destruct (IH H) as [-> | H']; [left | right; right]; auto.
Qed.

(** An assignment never makes a header name appear twice. *)
Lemma setHeader_NoDup (key v : jsstring) (headers : Headers) :
  NoDup (map fst headers) -> NoDup (map fst (setHeader key v headers)).
Proof.
  induction headers as [|[k0 v0] headers IH]; simpl; intros Hnd.
  - repeat constructor. intros [].
  - inversion Hnd as [|? ? Hnotin Hrest]; subst.
    destruct (JS.eqb k0 key) eqn:E0; simpl.
    + constructor; assumption.
    + constructor; [|apply IH; exact Hrest].
      intros Hin. apply setHeader_keys in Hin as [-> | Hin].
      * rewrite eqb_refl in E0. discriminate.
      * contradiction.
Qed.

Lemma setHeader_length (key v : jsstring) (headers : Headers) :
  length headers <= length (setHeader key v headers) <= S (length headers).
Proof.
  induction headers as [|[k0 v0] headers IH]; simpl; [lia|].
  destruct (JS.eqb k0 key); simpl; lia.
Qed.

Lemma orElse_nonEmpty (x : option jsstring) :
  nonEmpty (orElse x []) = true ->
  x = Some (orElse x []) /\ orElse x [] <> [].
Proof.
  destruct x as [[|c s]|]; simpl; try discriminate.
  intros _. split; [reflexivity | discriminate].
Qed.


End Headers.

Section Datasource.
Import SigV4Signer Expect.

Ltac decide_names :=
  repeat match goal with
         | |- context [JS.eqb ?a ?b] =>
             let r := eval vm_compute in (JS.eqb a b) in
             change (JS.eqb a b) with r
         end;
  cbv beta iota.

(** Which datasource headers [addDatasourceHeaders] sets, and to what. *)
Lemma datasource_headers (env : Env) (headers : Headers) :
  getHeader headers DS_ENDPOINT = None ->
  getHeader headers DS_TYPE = None ->
  getHeader headers DS_REGION = None ->
  getHeader headers DS_ACCESS_KEY = None ->
  getHeader headers DS_SECRET_KEY = None ->
  getHeader headers DS_SESSION_TOKEN = None ->
  let endpoint := orElse (env (js "MLCOMMONS_HEADER_OPENSEARCH_URL")) [] in
  let region := orElse (env (js "MLCOMMONS_HEADER_AWS_REGION")) [] in
  let access := orElse (env (js "MLCOMMONS_HEADER_AWS_ACCESS_KEY_ID")) [] in
  let secret := orElse (env (js "MLCOMMONS_HEADER_AWS_SECRET_ACCESS_KEY")) [] in
  let session := orElse (env (js "MLCOMMONS_HEADER_AWS_SESSION_TOKEN")) [] in
  let withKeys := nonEmpty endpoint && nonEmpty access && nonEmpty secret in
  let result := addDatasourceHeaders env headers in
  getHeader result DS_ENDPOINT
  = (if nonEmpty endpoint then Some endpoint else None)
  /\ getHeader result DS_TYPE
     = (if nonEmpty endpoint then Some (js "es") else None)
  /\ getHeader result DS_REGION = (if withKeys then Some region else None)
  /\ getHeader result DS_ACCESS_KEY = (if withKeys then Some access else None)
  /\ getHeader result DS_SECRET_KEY = (if withKeys then Some secret else None)
  /\ getHeader result DS_SESSION_TOKEN
     = (if withKeys && nonEmpty session then Some session else None).
Proof.
  intros H1 H2 H3 H4 H5 H6. cbv zeta. unfold addDatasourceHeaders.
  unfold DS_ENDPOINT, DS_TYPE, DS_REGION, DS_ACCESS_KEY, DS_SECRET_KEY,
    DS_SESSION_TOKEN in *.
  destruct (nonEmpty (orElse (env (js "MLCOMMONS_HEADER_OPENSEARCH_URL")) []));
    [|cbv beta iota; simpl andb; cbv iota; auto 10].
  destruct (nonEmpty
              (orElse (env (js "MLCOMMONS_HEADER_AWS_ACCESS_KEY_ID")) []));
    destruct (nonEmpty
                (orElse (env (js "MLCOMMONS_HEADER_AWS_SECRET_ACCESS_KEY")) []));
    destruct (nonEmpty
                (orElse (env (js "MLCOMMONS_HEADER_AWS_SESSION_TOKEN")) []));
    simpl andb; cbv beta iota zeta;
    rewrite ?getHeader_setHeader; decide_names;
    rewrite ?H1, ?H2, ?H3, ?H4, ?H5, ?H6; auto 10.
Qed.


(** What a successful [signAgentRequest] went through, and how a header of
    its result relates to the datasource step. *)
Lemma signAgentRequest_Return (fallback : jsstring) (env : Env)
    (x : Externals) (headers : Headers) :
  signAgentRequest fallback env x = Return headers ->
  exists size host signed base,
    payloadSize x = Return size
    /\ hostname x = Return host /\ assumedRole x = Return tt
    /\ signedRequest x = Return signed
    /\ getHeader base (js "encrypted-fas-creds")
       = Some match generateFreshFasCreds (execSync x) with
              | Return fresh => fresh
              | Throw _ => orElse (env (js "ENCRYPTED_FAS_CREDS")) fallback
              end
    /\ getHeader base DS_ENDPOINT = None /\ getHeader base DS_TYPE = None
    /\ getHeader base DS_REGION = None /\ getHeader base DS_ACCESS_KEY = None
    /\ getHeader base DS_SECRET_KEY = None
    /\ getHeader base DS_SESSION_TOKEN = None
    /\ forall key,
         JS.eqb (js "X-Amz-Security-Token") key = false ->
         getHeader headers key
         = getHeader (addDatasourceHeaders env base) key.
Proof.
  unfold signAgentRequest, bind.
  destruct (payloadSize x) as [size|]; [|discriminate].
  destruct (hostname x) as [host|]; [|discriminate].
  destruct (assumedRole x) as [[]|]; [|discriminate].
  destruct (signedRequest x) as [signed|]; [|discriminate].
  intros Hsign.
  match type of Hsign with
  | context [addDatasourceHeaders env ?b] => exists size, host, signed, b
  end.
  injection Hsign as <-.
  do 11 (split; [reflexivity|]).
  intros key Hkey.
  destruct (nonEmpty (orElse (getHeader signed (js "x-amz-security-token")) []));
    [|reflexivity].
  rewrite getHeader_setHeader, Hkey. reflexivity.
Qed.

(** The datasource headers of a signed request, read off the environment. *)
Lemma signAgentRequest_datasource (fallback : jsstring) (env : Env)
    (x : Externals) (headers : Headers) :
  signAgentRequest fallback env x = Return headers ->
  let endpoint := orElse (env (js "MLCOMMONS_HEADER_OPENSEARCH_URL")) [] in
  let region := orElse (env (js "MLCOMMONS_HEADER_AWS_REGION")) [] in
  let access := orElse (env (js "MLCOMMONS_HEADER_AWS_ACCESS_KEY_ID")) [] in
  let secret := orElse (env (js "MLCOMMONS_HEADER_AWS_SECRET_ACCESS_KEY")) [] in
  let session := orElse (env (js "MLCOMMONS_HEADER_AWS_SESSION_TOKEN")) [] in
  let withKeys := nonEmpty endpoint && nonEmpty access && nonEmpty secret in
  getHeader headers DS_ENDPOINT
  = (if nonEmpty endpoint then Some endpoint else None)
  /\ getHeader headers DS_TYPE
     = (if nonEmpty endpoint then Some (js "es") else None)
  /\ getHeader headers DS_REGION = (if withKeys then Some region else None)
  /\ getHeader headers DS_ACCESS_KEY = (if withKeys then Some access else None)
  /\ getHeader headers DS_SECRET_KEY = (if withKeys then Some secret else None)
  /\ getHeader headers DS_SESSION_TOKEN
     = (if withKeys && nonEmpty session then Some session else None).
Proof.
  intros Hsign.
  destruct (signAgentRequest_Return fallback env x headers Hsign)
    as (size & host & signed & base & _ & _ & _ & _ & _ & H1 & H2 & H3 & H4
        & H5 & H6 & Hsame).
  cbv zeta.
  rewrite !Hsame by (vm_compute; reflexivity).
  exact (datasource_headers env base H1 H2 H3 H4 H5 H6).
Qed.

End Datasource.

(** X11 (signAgentRequest).  The datasource headers of a signed request come
    in three nested groups: the endpoint and the type are sent exactly when
    MLCOMMONS_HEADER_OPENSEARCH_URL is a non-empty string; the region, the
    access key and the secret key are sent together or not at all, and only
    with the endpoint; the session token is sent only with the keys.  No
    datasource header but the region is ever sent with an empty value. *)
Theorem datasource_headers_are_nested (fallback : JS.jsstring)
    (env : SigV4Signer.Env) (x : SigV4Signer.Externals)
    (headers : SigV4Signer.Headers) :
  SigV4Signer.signAgentRequest fallback env x = Return headers ->
  let sent := Expect.sent headers in
  sent Expect.DS_ENDPOINT
  = SigV4Signer.nonEmpty
      (SigV4Signer.orElse (env (js "MLCOMMONS_HEADER_OPENSEARCH_URL")) [])
  /\ sent Expect.DS_TYPE = sent Expect.DS_ENDPOINT
  /\ sent Expect.DS_REGION = sent Expect.DS_SECRET_KEY
  /\ sent Expect.DS_ACCESS_KEY = sent Expect.DS_SECRET_KEY
  /\ (sent Expect.DS_SECRET_KEY = true -> sent Expect.DS_ENDPOINT = true)
  /\ (sent Expect.DS_SESSION_TOKEN = true -> sent Expect.DS_SECRET_KEY = true)
  /\ forall name,
       In name [Expect.DS_ENDPOINT; Expect.DS_TYPE; Expect.DS_ACCESS_KEY;
                Expect.DS_SECRET_KEY; Expect.DS_SESSION_TOKEN] ->
       SigV4Signer.getHeader headers name <> Some [].
Proof.
  intros Hsign.
  destruct (signAgentRequest_datasource fallback env x headers Hsign)
    as (H1 & H2 & H3 & H4 & H5 & H6).
  cbv zeta in *. unfold Expect.sent.
  repeat split.
  - rewrite H1. destruct (SigV4Signer.nonEmpty _); reflexivity.
  - rewrite H1, H2. destruct (SigV4Signer.nonEmpty _); reflexivity.
  - rewrite H3, H5. destruct (_ && _); reflexivity.
  - rewrite H4, H5. destruct (_ && _); reflexivity.
  - rewrite H1, H5.
    destruct (SigV4Signer.nonEmpty
                (SigV4Signer.orElse
                   (env (js "MLCOMMONS_HEADER_OPENSEARCH_URL")) []));
      simpl; [reflexivity | discriminate].
  - rewrite H5, H6.
    destruct (_ && SigV4Signer.nonEmpty
                     (SigV4Signer.orElse
                        (env (js "MLCOMMONS_HEADER_AWS_SECRET_ACCESS_KEY")) []));
      simpl; [reflexivity | discriminate].
  - intros name Hin.
    assert (Hvalue : forall v : JS.jsstring,
               (if SigV4Signer.nonEmpty v then Some v else None) <> Some []).
    { intros [|c v]; simpl; discriminate. }
    assert (Hguard : forall (b : bool) (v : JS.jsstring),
               (b = true -> SigV4Signer.nonEmpty v = true) ->
               (if b then Some v else None) <> Some []).
    { intros [|] v Hv; [|discriminate].
      specialize (Hv eq_refl). destruct v; discriminate. }
    simpl in Hin.
    destruct Hin as [<- | [<- | [<- | [<- | [<- | []]]]]].
    + rewrite H1. apply Hvalue.
    + rewrite H2. destruct (SigV4Signer.nonEmpty _); discriminate.
    + rewrite H4. apply Hguard. intros Hb.
      apply andb_prop in Hb as [Hb _]. apply andb_prop in Hb as [_ Hb].
      exact Hb.
    + rewrite H5. apply Hguard. intros Hb.
      apply andb_prop in Hb as [_ Hb]. exact Hb.
    + rewrite H6. apply Hguard. intros Hb.
      apply andb_prop in Hb as [_ Hb]. exact Hb.
Qed.

Lemma datasource_headers_are_nested_witness :
  exists headers,
    SigV4Signer.signAgentRequest (js "default")
      (Expect.envOf Expect.datasourceSettings)
      (Expect.signedRun (Throw (Error (js "Command failed"))))
    = Return headers
    /\ Expect.sent headers Expect.DS_REGION
       = Expect.sent headers Expect.DS_SECRET_KEY.
Proof.
  eexists. split.
  - vm_compute. reflexivity.
  - refine (proj1 (proj2 (proj2
             (datasource_headers_are_nested (js "default")
                (Expect.envOf Expect.datasourceSettings)
                (Expect.signedRun (Throw (Error (js "Command failed"))))
                _ _)))).
    vm_compute. reflexivity.
Defined.

Section Credentials.
Import SigV4Signer Expect.

(** The datasource step leaves every other header as it was. *)
Lemma datasource_leaves_others (env : Env) (headers : Headers)
    (key : jsstring) :
  JS.eqb DS_ENDPOINT key = false -> JS.eqb DS_TYPE key = false ->
  JS.eqb DS_REGION key = false -> JS.eqb DS_ACCESS_KEY key = false ->
  JS.eqb DS_SECRET_KEY key = false -> JS.eqb DS_SESSION_TOKEN key = false ->
  getHeader (addDatasourceHeaders env headers) key = getHeader headers key.
Proof.
  unfold DS_ENDPOINT, DS_TYPE, DS_REGION, DS_ACCESS_KEY, DS_SECRET_KEY,
    DS_SESSION_TOKEN, addDatasourceHeaders.
  intros H1 H2 H3 H4 H5 H6.
  destruct (nonEmpty _); [|reflexivity].
  destruct (nonEmpty _ && nonEmpty _);
    [destruct (nonEmpty _)|];
    rewrite ?getHeader_setHeader, ?H1, ?H2, ?H3, ?H4, ?H5, ?H6; reflexivity.
Qed.

End Credentials.


(** X13 (signAgentRequest, generateFreshFasCreds).  The encrypted-fas-creds
    header carries the value that the credential script printed whenever the
    script gave one, whatever the environment says; otherwise the variable
    ENCRYPTED_FAS_CREDS when it is a non-empty string; otherwise the built-in
    default. *)
Theorem fas_creds_precedence (fallback : JS.jsstring)
    (env : SigV4Signer.Env) (x : SigV4Signer.Externals)
    (headers : SigV4Signer.Headers) :
  SigV4Signer.signAgentRequest fallback env x = Return headers ->
  SigV4Signer.getHeader headers (js "encrypted-fas-creds")
  = Some match SigV4Signer.generateFreshFasCreds (SigV4Signer.execSync x) with
         | Return fresh => fresh
         | Throw _ =>
             match env (js "ENCRYPTED_FAS_CREDS") with
             | Some (c :: stored) => c :: stored
             | _ => fallback
             end
         end.
Proof.
  intros Hsign.
  destruct (signAgentRequest_Return fallback env x headers Hsign)
    as (size & host & signed & base & _ & _ & _ & _ & Hcreds & _ & _ & _ & _
        & _ & _ & Hsame).
  rewrite Hsame by (vm_compute; reflexivity).
  rewrite datasource_leaves_others by (vm_compute; reflexivity).
  exact Hcreds.
Qed.

Lemma fas_creds_precedence_witness :
  exists headers,
    SigV4Signer.signAgentRequest (js "default")
      (Expect.envOf Expect.datasourceSettings)
      (Expect.signedRun (Return (js "no credentials printed")))
    = Return headers
    /\ SigV4Signer.getHeader headers (js "encrypted-fas-creds")
       = Some (js "stored").
Proof.
  eexists. split.
  - vm_compute. reflexivity.
  - refine (fas_creds_precedence (js "default")
              (Expect.envOf Expect.datasourceSettings)
              (Expect.signedRun (Return (js "no credentials printed")))
              _ _).
    vm_compute. reflexivity.
Defined.



(* ================================================================== *)
(** * The judges *)
(* ================================================================== *)

Section Braces.
Import Text.

Lemma dropWhile_stop (p : code_unit -> bool) (pre : jsstring) (c : code_unit)
    (rest : jsstring) :
  Forall (fun x => p x = true) pre -> p c = false ->
  dropWhile p (pre ++ c :: rest) = c :: rest.
Proof.
  intros Hpre Hc. induction Hpre as [|x pre Hx _ IH]; simpl.
  - rewrite Hc. reflexivity.
  - rewrite Hx. exact IH.
Qed.

Lemma dropWhile_all (p : code_unit -> bool) (s : jsstring) :
  Forall (fun x => p x = true) s -> dropWhile p s = [].
Proof.
  intros Hs. induction Hs as [|x s Hx _ IH]; simpl; [reflexivity|].
  rewrite Hx. exact IH.
Qed.

Lemma throughLast_absent (c : code_unit) (s : jsstring) :
  Forall (fun x => N.eqb x c = false) s -> throughLast c s = None.
Proof.
  intros Hs. induction Hs as [|x s Hx _ IH]; simpl; [reflexivity|].
  rewrite IH, Hx. reflexivity.
Qed.

Lemma throughLast_last (c : code_unit) (body post : jsstring) :
  Forall (fun x => N.eqb x c = false) post ->
  throughLast c (body ++ c :: post) = Some (body ++ [c]).
Proof.
  intros Hpost. induction body as [|x body IH]; simpl.
  - rewrite (throughLast_absent c post Hpost), N.eqb_refl. reflexivity.
  - rewrite IH. reflexivity.
Qed.

(** The match runs from the first opening brace to the last closing one. *)
Lemma matchBraces_outermost (pre body post : jsstring) :
  Forall (fun x => N.eqb x 123%N = false) pre ->
  Forall (fun x => N.eqb x 125%N = false) post ->
  matchBraces (pre ++ 123%N :: body ++ 125%N :: post)
  = Some (123%N :: body ++ [125%N]).
Proof.
  intros Hpre Hpost. unfold matchBraces.
  rewrite dropWhile_stop.
  - match goal with
    | |- context [throughLast ?c ?s] =>
        replace (throughLast c s) with (Some (body ++ [125%N]))
          by (symmetry; apply throughLast_last; exact Hpost)
    end.
    reflexivity.
  - eapply Forall_impl; [|exact Hpre]. simpl. intros a Ha. rewrite Ha.
    reflexivity.
  - reflexivity.
Qed.

Lemma dropWhile_suffix (p : code_unit -> bool) (s : jsstring) :
  exists pre, s = pre ++ dropWhile p s.
Proof.
  induction s as [|x s [pre IH]]; simpl.
  - exists []. reflexivity.
  - destruct (p x).
    + exists (x :: pre). simpl. f_equal. exact IH.
    + exists []. reflexivity.
Qed.

Lemma matchBraces_unbalanced (s : jsstring) :
  Forall (fun x => N.eqb x 123%N = false) s
  \/ Forall (fun x => N.eqb x 125%N = false) s ->
  matchBraces s = None.
Proof.
  unfold matchBraces. intros [Hs | Hs].
  - rewrite dropWhile_all; [reflexivity|].
    eapply Forall_impl; [|exact Hs]. simpl. intros a Ha. rewrite Ha.
    reflexivity.
  - destruct (dropWhile_suffix (fun c => negb (N.eqb c 123%N)) s)
      as [pre Hsplit].
    destruct (dropWhile _ s) as [|open rest]; [reflexivity|].
    rewrite Hsplit in Hs. apply Forall_app in Hs as [_ Hs].
    inversion Hs as [|? ? _ Hrest]; subst.
    rewrite (throughLast_absent 125%N rest Hrest). reflexivity.
Qed.

End Braces.

(** X15 (evaluateWithBedrock).  The judge may wrap its verdict in prose:
    when the text of the reply is some prose without an opening brace, then
    a brace pair, then some prose without a closing brace, the verdict is
    read from the text from the first opening brace to the last closing one
    and from nothing else. *)
Theorem judge_verdict_ignores_prose {number : Type}
    {engine : JS.Engine number} (responseBody : list byte)
    (reply : JS.value number) (pre body post : JS.jsstring) :
  JS.JSON_parse (VStr (TextDecoder.text [responseBody])) = Return reply ->
  Judges.contentText reply
  = Return (VStr (pre ++ 123%N :: body ++ 125%N :: post)) ->
  Forall (fun x => N.eqb x 123%N = false) pre ->
  Forall (fun x => N.eqb x 125%N = false) post ->
  Judges.evaluateWithBedrock responseBody
  = Judges.readVerdict (123%N :: body ++ [125%N]).
Proof.
  intros Hparse Hcontent Hpre Hpost.
  unfold Judges.evaluateWithBedrock, bind.
  rewrite Hparse, Hcontent. unfold Judges.matchJson.
  rewrite (matchBraces_outermost pre body post Hpre Hpost). reflexivity.
Qed.

Lemma judge_verdict_ignores_prose_witness :
  Judges.evaluateWithBedrock Expect.judgeReply
  = Judges.readVerdict (123%N :: Expect.verdictBody ++ [125%N]).
Proof.
  apply (judge_verdict_ignores_prose Expect.judgeReply Expect.parsedReply
           (js "Verdict: ") Expect.verdictBody (js " Thanks")).
  - vm_compute. reflexivity.
  - vm_compute. reflexivity.
  - vm_compute. repeat constructor.
  - vm_compute. repeat constructor.
Defined.

(** X16 (evaluateWithBedrock).  When the text of the judge's reply has no
    opening brace, or no closing brace, the evaluation throws the error
    "Failed to parse judge response" instead of returning a verdict. *)
Theorem judge_reply_without_braces_throws {number : Type}
    {engine : JS.Engine number} (responseBody : list byte)
    (reply : JS.value number) (content : JS.jsstring) :
  JS.JSON_parse (VStr (TextDecoder.text [responseBody])) = Return reply ->
  Judges.contentText reply = Return (VStr content) ->
  Forall (fun x => N.eqb x 123%N = false) content
  \/ Forall (fun x => N.eqb x 125%N = false) content ->
  Judges.evaluateWithBedrock responseBody
  = Throw (Error (js "Failed to parse judge response")).
Proof.
  intros Hparse Hcontent Hbraces.
  unfold Judges.evaluateWithBedrock, bind.
  rewrite Hparse, Hcontent. unfold Judges.matchJson.
  rewrite (matchBraces_unbalanced content Hbraces). reflexivity.
Qed.

Lemma judge_reply_without_braces_throws_witness :
  Judges.evaluateWithBedrock Expect.judgeRefusal
  = Throw (Error (js "Failed to parse judge response")).
Proof.
  apply (judge_reply_without_braces_throws Expect.judgeRefusal
           Expect.parsedRefusal (js "I cannot rate this.")).
  - vm_compute. reflexivity.
  - vm_compute. reflexivity.
  - left. vm_compute. repeat constructor.
Defined.

Section TaskJudge.
Context {number : Type} {engine : JS.Engine number}.
Variable zero : number.





End TaskJudge.



(* ================================================================== *)
(** * The benchmark loop *)
(* ================================================================== *)

Section Loop.
Context {number : Type} {engine : JS.Engine number}.
Variable zero : number.
Variable describe : JS.exn -> JS.jsstring.
Variable callOasisAgent : nat -> JS.jsstring -> JS.outcome (JS.jsstring * Z).
Variable judge :
  nat -> JS.jsstring -> JS.jsstring -> JS.jsstring
  -> JS.outcome (JS.value number * JS.value number).

(** A turn of the loop pushes one row or two, and what they say about the
    question does not depend on how the evaluation went. *)
Lemma evaluateQuestion_rows (i : nat)
    (question : @Judges.MTBenchQuestion number) (later : list JS.jsstring)
    (query : JS.jsstring) :
  Judges.turns question = query :: later ->
  let rows :=
    Judges.evaluateQuestion zero describe callOasisAgent judge i question
      query
      (SigV4Signer.orElse (Judges.reference question)
         (js "No reference provided")) in
  1 <= length rows <= 2 /\ Forall (Expect.rowOf question) rows.
Proof.
  intros Hturns. cbv zeta.
  assert (Hscored : forall agent verdict,
             Expect.rowOf question
               (Judges.scoredRow question query
                  (SigV4Signer.orElse (Judges.reference question)
                     (js "No reference provided")) agent verdict)).
  { intros agent verdict. unfold Expect.rowOf. rewrite Hturns.
    repeat split. }
  assert (Herror : forall error,
             Expect.rowOf question
               (Judges.errorRow zero describe question query
                  (SigV4Signer.orElse (Judges.reference question)
                     (js "No reference provided")) error)).
  { intros error. unfold Expect.rowOf. rewrite Hturns. repeat split. }
  unfold Judges.evaluateQuestion, bind.
  destruct (callOasisAgent i query) as [agent|error].
  - destruct (judge i query _ (fst agent)) as [verdict|error].
    + destruct (Judges.progressLines verdict) as [[]|error]; simpl;
        (split; [lia | repeat (apply Forall_cons; [solve [auto]|]); apply Forall_nil]).
    + simpl. split; [lia | repeat (apply Forall_cons; [solve [auto]|]); apply Forall_nil].
  - simpl. split; [lia | repeat (apply Forall_cons; [solve [auto]|]); apply Forall_nil].
Qed.

(** With a verdict that the progress lines can print, or with a failing
    call, a turn pushes exactly one row. *)
Lemma evaluateQuestion_one_row (i : nat)
    (question : @Judges.MTBenchQuestion number) (later : list JS.jsstring)
    (query : JS.jsstring) :
  Judges.turns question = query :: later ->
  (forall expected actual verdict,
      judge i query expected actual = Return verdict ->
      Judges.progressLines verdict = Return tt) ->
  exists row,
    Judges.evaluateQuestion zero describe callOasisAgent judge i question
      query
      (SigV4Signer.orElse (Judges.reference question)
         (js "No reference provided"))
    = [row]
    /\ Expect.rowOf question row.
Proof.
  intros Hturns Hprints.
  destruct (evaluateQuestion_rows i question later query Hturns)
    as [_ Hrows].
  revert Hrows. unfold Judges.evaluateQuestion, bind.
  destruct (callOasisAgent i query) as [agent|error].
  - destruct (judge i query _ (fst agent)) as [verdict|error] eqn:Hjudge.
    + rewrite (Hprints _ _ _ Hjudge). intros Hrows.
      inversion Hrows; subst. eauto.
    + intros Hrows. inversion Hrows; subst. eauto.
  - intros Hrows. inversion Hrows; subst. eauto.
Qed.


Lemma evaluateFrom_rows (questions : list (@Judges.MTBenchQuestion number)) :
  Forall (fun question => Judges.turns question <> []) questions ->
  (forall i query expected actual verdict,
      judge i query expected actual = Return verdict ->
      Judges.progressLines verdict = Return tt) ->
  forall (i : nat) (results : list (@Judges.BenchmarkResult number)),
  exists rows,
    Judges.evaluateFrom zero describe callOasisAgent judge i questions results
    = Return (results ++ rows)
    /\ Forall2 Expect.rowOf questions rows.
Proof.
  intros Hturns Hprints.
  induction Hturns as [|question questions Hturn _ IH]; intros i results.
  - exists []. rewrite app_nil_r. split; [reflexivity | constructor].
  - cbn [Judges.evaluateFrom].
    destruct (Judges.turns question) as [|query later] eqn:Hturns;
      [contradiction|].
    destruct (evaluateQuestion_one_row i question later query Hturns
                (Hprints i query))
      as (row & -> & Hrow).
    destruct (IH (S i) (results ++ [row])) as (rows & Hrun & Hrows).
    exists (row :: rows). split.
    + rewrite Hrun, <- app_assoc. reflexivity.
    + constructor; assumption.
Qed.

Lemma evaluateFrom_without_turns
    (before : list (@Judges.MTBenchQuestion number))
    (question : @Judges.MTBenchQuestion number)
    (after : list (@Judges.MTBenchQuestion number)) :
  Judges.turns question = [] ->
  forall (i : nat) (results : list (@Judges.BenchmarkResult number)),
  Judges.evaluateFrom zero describe callOasisAgent judge i
    (before ++ question :: after) results
  = Throw TypeError.
Proof.
  intros Hturns. induction before as [|first before IH]; intros i results.
  - cbn [app Judges.evaluateFrom]. rewrite Hturns. reflexivity.
  - cbn [app Judges.evaluateFrom].
    destruct (Judges.turns first); [reflexivity | apply IH].
Qed.


End Loop.

(** X18 (runBenchmark).  Once the dataset is loaded: when every selected
    question has a first turn and every verdict that the judge returns can
    be printed by the two progress lines, the benchmark returns exactly one
    row per selected question, in the order of the dataset, with the
    question's id, category, first turn and reference (or "No reference
    provided"), whether the agent and the judge succeed or fail: a failing
    call costs a question its score, never its row, and never ends the
    run. *)
Theorem runBenchmark_one_row_per_question {number : Type}
    {engine : JS.Engine number} (zero : number)
    (describe : JS.exn -> JS.jsstring)
    (callOasisAgent : nat -> JS.jsstring -> JS.outcome (JS.jsstring * Z))
    (judge : nat -> JS.jsstring -> JS.jsstring -> JS.jsstring
             -> JS.outcome (JS.value number * JS.value number))
    (maxQuestions : Z) (dataset : list (@Judges.MTBenchQuestion number)) :
  Forall (fun question => Judges.turns question <> [])
    (Expect.selected maxQuestions dataset) ->
  (forall i query expected actual verdict,
      judge i query expected actual = Return verdict ->
      Judges.progressLines verdict = Return tt) ->
  exists rows,
    Judges.runBenchmark zero describe callOasisAgent judge maxQuestions dataset
    = Return rows
    /\ Forall2 Expect.rowOf (Expect.selected maxQuestions dataset) rows.
Proof.
  intros Hturns Hprints.
  exact (evaluateFrom_rows zero describe callOasisAgent judge
           (Expect.selected maxQuestions dataset) Hturns Hprints 0%nat []).
Qed.

Lemma runBenchmark_one_row_per_question_witness :
  exists rows,
    Judges.runBenchmark 0%Z (fun _ => js "Error: Agent error: 503")
      Expect.agentDown Expect.judgeFair 1 Expect.questions
    = Return rows
    /\ Forall2 Expect.rowOf (Expect.selected 1 Expect.questions) rows.
Proof.
  apply (runBenchmark_one_row_per_question 0%Z
           (fun _ => js "Error: Agent error: 503")
           Expect.agentDown Expect.judgeFair 1 Expect.questions).
  - vm_compute. repeat constructor; discriminate.
  - intros i query expected actual verdict [= <-]. reflexivity.
Defined.

(** X19 (runBenchmark).  A selected question without any turn ends the whole
    run with a TypeError, thrown by the progress line before the try block:
    the rows of the questions evaluated before it are lost with it. *)
Theorem runBenchmark_question_without_turns {number : Type}
    {engine : JS.Engine number} (zero : number)
    (describe : JS.exn -> JS.jsstring)
    (callOasisAgent : nat -> JS.jsstring -> JS.outcome (JS.jsstring * Z))
    (judge : nat -> JS.jsstring -> JS.jsstring -> JS.jsstring
             -> JS.outcome (JS.value number * JS.value number))
    (maxQuestions : Z)
    (dataset before after : list (@Judges.MTBenchQuestion number))
    (question : @Judges.MTBenchQuestion number) :
  Expect.selected maxQuestions dataset = before ++ question :: after ->
  Judges.turns question = [] ->
  Judges.runBenchmark zero describe callOasisAgent judge maxQuestions dataset
  = Throw TypeError.
Proof.
  intros Hselected Hturns.
  unfold Judges.runBenchmark. unfold Expect.selected in Hselected.
  rewrite Hselected.
  exact (evaluateFrom_without_turns zero describe callOasisAgent judge
           before question after Hturns 0%nat []).
Qed.

Lemma runBenchmark_question_without_turns_witness :
  Judges.runBenchmark 0%Z (fun _ => js "Error: Agent error: 503")
    Expect.agentDown Expect.judgeDown 0
    (Expect.questions ++ [Expect.blankQuestion])
  = Throw TypeError.
Proof.
  apply (runBenchmark_question_without_turns 0%Z
           (fun _ => js "Error: Agent error: 503")
           Expect.agentDown Expect.judgeDown 0
           (Expect.questions ++ [Expect.blankQuestion])
           Expect.questions [] Expect.blankQuestion).
  - reflexivity.
  - reflexivity.
Defined.




